(** * auto_implement_plan.py: plan parsing and phase orchestration

    A shallow embedding of [PlanAutomator] (parse_plan, _is_phase_completed,
    create_plan, load_slash_command, implement_phase,
    run_full_implementation) and the properties of its specification.

    Conventions of the embedding.
    - A Python [str] is a [string]; a character is a code point below 256.
      On that range [\s] and [str.isspace] are 9-13, 28-32, 133 and 160, and
      [\d] is '0'-'9'.
    - A Python [int] is a [Z].
    - A Python [int] is unbounded, and so is [int()] of a run of digits.
    - Effects (logging, printing, the file system, the agent collaborator,
      sleeping) are recorded in a chronological trace; the answers of the
      outside world are functions of the trace so far.
    - The stream of messages the agent produces for a prompt ends; it is
      the list of its messages.
    - Logging is not configured before the automator is built, so that
      [setup_logging] decides the level: INFO, or DEBUG in verbose mode. *)

From Stdlib Require Import ZArith List Bool Ascii String Lia DecimalString.
From Stdlib Require DecimalPos.
Import ListNotations.
Open Scope string_scope.
Open Scope Z_scope.

(* ================================================================== *)
(** ** Python string operations *)

Module PyStr.

Definition LF : ascii := Ascii.ascii_of_nat 10.

(** ["\n"] *)
Definition NL : string := String LF EmptyString.

Definition code (c : ascii) : N := N_of_ascii c.

(** [str.isspace] of one character, also the class [\s]. *)
Definition isspace (c : ascii) : bool :=
  let n := code c in
  (((9 <=? n) && (n <=? 13)) || ((28 <=? n) && (n <=? 32))
   || (n =? 133) || (n =? 160))%N.

(** The class [\d]. *)
Definition isdigit (c : ascii) : bool :=
  let n := code c in ((48 <=? n) && (n <=? 57))%N.

(** The class [.] (no DOTALL flag): anything but a newline. *)
Definition notnl (c : ascii) : bool := negb (Ascii.eqb c LF).

(** [s.split(sep)] for a one-character separator. *)
Fixpoint split_chr (sep : ascii) (s : string) : list string :=
  match s with
  | EmptyString => [EmptyString]
  | String c t =>
      if Ascii.eqb c sep then EmptyString :: split_chr sep t
      else match split_chr sep t with
           | l :: ls => String c l :: ls
           | [] => [String c EmptyString]
           end
  end.

(** [sep.join(parts)] is [String.concat sep parts]. *)
Definition join (sep : string) (parts : list string) : string :=
  String.concat sep parts.

(** [needle in hay] *)
Fixpoint str_in (needle hay : string) : bool :=
  String.prefix needle hay
  || match hay with
     | EmptyString => false
     | String _ t => str_in needle t
     end.

Fixpoint lstrip (s : string) : string :=
  match s with
  | EmptyString => EmptyString
  | String c t => if isspace c then lstrip t else s
  end.

Fixpoint rstrip (s : string) : string :=
  match s with
  | EmptyString => EmptyString
  | String c t =>
      match rstrip t with
      | EmptyString => if isspace c then EmptyString else String c EmptyString
      | r => String c r
      end
  end.

(** [s.strip()] *)
Definition strip (s : string) : string := rstrip (lstrip s).

(** [s.startswith(p)] *)
Definition startswith (p s : string) : bool := String.prefix p s.

(** [s[:n]] *)
Definition take (n : nat) (s : string) : string := String.substring 0 n s.

(** [s.split(sep, maxsplit)] for a non-empty separator: [skip] counts the
    characters of a separator just recognised that are still to be passed. *)
Fixpoint split_max_go (sep : string) (s : string) (skip : nat)
    (cur : string) (maxsplit : nat) : list string :=
  match s with
  | EmptyString => [cur]
  | String c t =>
      match skip with
      | S k => split_max_go sep t k cur maxsplit
      | O =>
          match maxsplit with
          | S m =>
              if String.prefix sep s
              then cur :: split_max_go sep t (String.length sep - 1) EmptyString m
              else split_max_go sep t O (cur ++ String c EmptyString) maxsplit
          | O => split_max_go sep t O (cur ++ String c EmptyString) maxsplit
          end
      end
  end.

Definition split_max (sep : string) (maxsplit : nat) (s : string) : list string :=
  split_max_go sep s O EmptyString maxsplit.

(** [int(s)] for a string of decimal digits. *)
Definition digit_val (c : ascii) : Z := Z.of_N (code c) - 48.

Fixpoint int_go (s : string) (acc : Z) : Z :=
  match s with
  | EmptyString => acc
  | String c t => int_go t (10 * acc + digit_val c)
  end.

Definition int (s : string) : Z := int_go s 0.

(** [str(n)] for an int. *)
Definition str (n : Z) : string := NilZero.string_of_int (Z.to_int n).

(** [c in s] for one character. *)
Fixpoint chr_in (c : ascii) (s : string) : bool :=
  match s with
  | EmptyString => false
  | String x t => Ascii.eqb x c || chr_in c t
  end.

(** [c * n] *)
Fixpoint repeat (c : ascii) (n : nat) : string :=
  match n with
  | O => EmptyString
  | S k => String c (repeat c k)
  end.

End PyStr.

(* ================================================================== *)
(** ** The fragment of [re] the script uses

    A pattern is a sequence of items: anchors, group parentheses, and a
    character class under a quantifier.  [re.match] is a backtracking
    matcher anchored at the start of the subject; it returns the captured
    groups of the first match in priority order. *)

Module Re.

Inductive quant := One | Star | Plus | PlusLazy.

Inductive item :=
| Bol                                   (* ^ *)
| Eol                                   (* $ *)
| Open                                  (* ( *)
| Close                                 (* ) *)
| Atom (cls : ascii -> bool) (q : quant).

Record mstate := mkState {
  consumed : nat;
  groups : list string;
  opened : option string
}.

Definition init : mstate := mkState 0 [] None.

Definition eat (c : ascii) (st : mstate) : mstate :=
  mkState (S (consumed st)) (groups st)
          (option_map (fun g => g ++ String c EmptyString) (opened st)).

Definition open_group (st : mstate) : mstate :=
  mkState (consumed st) (groups st) (Some EmptyString).

Definition close_group (st : mstate) : mstate :=
  mkState (consumed st)
          (groups st ++ [match opened st with Some g => g | None => EmptyString end])
          None.

Definition cont := string -> mstate -> option (list string).

Definition single (cls : ascii -> bool) (k : cont) : cont :=
  fun s st =>
    match s with
    | String c t => if cls c then k t (eat c st) else None
    | EmptyString => None
    end.

(** [x*]: as many as possible first, giving back one at a time. *)
Fixpoint greedy (cls : ascii -> bool) (k : cont) (s : string) (st : mstate)
  : option (list string) :=
  match s with
  | String c t =>
      if cls c then
        match greedy cls k t (eat c st) with
        | Some r => Some r
        | None => k s st
        end
      else k s st
  | EmptyString => k s st
  end.

(** [x*?]: as few as possible first. *)
Fixpoint lazy (cls : ascii -> bool) (k : cont) (s : string) (st : mstate)
  : option (list string) :=
  match k s st with
  | Some r => Some r
  | None =>
      match s with
      | String c t => if cls c then lazy cls k t (eat c st) else None
      | EmptyString => None
      end
  end.

(** [$] without MULTILINE: at the end, or just before a final newline. *)
Definition at_end (s : string) : bool :=
  match s with
  | EmptyString => true
  | String c EmptyString => Ascii.eqb c PyStr.LF
  | _ => false
  end.

Fixpoint matcher (p : list item) : cont :=
  match p with
  | [] => fun _ st => Some (groups st)
  | Bol :: p' => fun s st => if Nat.eqb (consumed st) 0 then matcher p' s st else None
  | Eol :: p' => fun s st => if at_end s then matcher p' s st else None
  | Open :: p' => fun s st => matcher p' s (open_group st)
  | Close :: p' => fun s st => matcher p' s (close_group st)
  | Atom cls One :: p' => single cls (matcher p')
  | Atom cls Star :: p' => greedy cls (matcher p')
  | Atom cls Plus :: p' => single cls (greedy cls (matcher p'))
  | Atom cls PlusLazy :: p' => single cls (lazy cls (matcher p'))
  end.

(** [re.match(p, s)]: [None], or the groups 1, 2, ... of the match. *)
Definition re_match (p : list item) (s : string) : option (list string) :=
  matcher p s init.

(** [m.group(i)] for [i >= 1]. *)
Definition group (m : list string) (i : nat) : string :=
  nth (i - 1) m EmptyString.

(** A literal piece of a pattern. *)
Definition lit (s : string) : list item :=
  map (fun c => Atom (Ascii.eqb c) One) (list_ascii_of_string s).

Definition ws : ascii -> bool := PyStr.isspace.
Definition digit : ascii -> bool := PyStr.isdigit.
Definition dot : ascii -> bool := PyStr.notnl.

End Re.

(* ================================================================== *)
(** ** What a pattern accepts

    [Accepts p pos s]: the pattern [p] matches a prefix of [s], [pos]
    characters into the subject.  It is the declarative reading of the
    pattern, with no reference to backtracking order. *)

Module ReSpec.
Import Re.

Fixpoint all (cls : ascii -> bool) (s : string) : bool :=
  match s with
  | EmptyString => true
  | String c t => cls c && all cls t
  end.

Fixpoint eat_all (w : string) (st : mstate) : mstate :=
  match w with
  | EmptyString => st
  | String c t => eat_all t (eat c st)
  end.

Fixpoint Accepts (p : list item) (pos : nat) (s : string) : Prop :=
  match p with
  | [] => True
  | Bol :: p' => pos = 0%nat /\ Accepts p' pos s
  | Eol :: p' => at_end s = true /\ Accepts p' pos s
  | Open :: p' => Accepts p' pos s
  | Close :: p' => Accepts p' pos s
  | Atom cls One :: p' =>
      exists c t, s = String c t /\ cls c = true /\ Accepts p' (S pos) t
  | Atom cls Star :: p' =>
      exists w t, s = w ++ t /\ all cls w = true
                  /\ Accepts p' (pos + String.length w) t
  | Atom cls Plus :: p' =>
      exists c w t, s = String c (w ++ t) /\ cls c = true /\ all cls w = true
                    /\ Accepts p' (S pos + String.length w) t
  | Atom cls PlusLazy :: p' =>
      exists c w t, s = String c (w ++ t) /\ cls c = true /\ all cls w = true
                    /\ Accepts p' (S pos + String.length w) t
  end.

Definition starts_not (cls : ascii -> bool) (t : string) : Prop :=
  match t with
  | EmptyString => True
  | String c _ => cls c = false
  end.

End ReSpec.

(* ================================================================== *)
(** ** Phases, the Completion Classifier and the Phase Extractor *)

Import PyStr.
Import ReSpec.

Record Phase := mkPhase {
  number : Z;
  name : string;
  content : string;
  is_completed : bool
}.

(** [r'^## Phase (\d+):\s*(.+?)$'] *)
Definition phase_pattern : list Re.item :=
  [Re.Bol] ++ Re.lit "## Phase "
  ++ [Re.Open; Re.Atom Re.digit Re.Plus; Re.Close] ++ Re.lit ":"
  ++ [Re.Atom Re.ws Re.Star; Re.Open; Re.Atom Re.dot Re.PlusLazy; Re.Close; Re.Eol].

(** [r'^\s*-\s*\[\s*\]\s*(.+)'] *)
Definition unchecked_pattern : list Re.item :=
  [Re.Bol; Re.Atom Re.ws Re.Star] ++ Re.lit "-"
  ++ [Re.Atom Re.ws Re.Star] ++ Re.lit "["
  ++ [Re.Atom Re.ws Re.Star] ++ Re.lit "]"
  ++ [Re.Atom Re.ws Re.Star; Re.Open; Re.Atom Re.dot Re.Plus; Re.Close].

(** [r'^\s*-\s*\[x\]\s*(.+)'] (bound in the source, never used) *)
Definition checked_pattern : list Re.item :=
  [Re.Bol; Re.Atom Re.ws Re.Star] ++ Re.lit "-"
  ++ [Re.Atom Re.ws Re.Star] ++ Re.lit "[x]"
  ++ [Re.Atom Re.ws Re.Star; Re.Open; Re.Atom Re.dot Re.Plus; Re.Close].

Definition AUTOMATED : string := "#### Automated Verification:".
Definition MANUAL : string := "#### Manual Verification:".

(** The loop of [_is_phase_completed] over the remaining lines, from the
    current [in_automated_section]; the result is [has_unchecked] when the
    loop ends or breaks. *)
Fixpoint scan_lines (lines : list string) (in_automated_section : bool) : bool :=
  match lines with
  | [] => false
  | line :: rest =>
      if str_in AUTOMATED line then scan_lines rest true
      else if str_in MANUAL line then scan_lines rest false
      else if in_automated_section then
        match Re.re_match unchecked_pattern line with
        | Some _ => true
        | None => scan_lines rest in_automated_section
        end
      else scan_lines rest in_automated_section
  end.

Definition _is_phase_completed (phase_content : string) : bool :=
  negb (scan_lines (split_chr LF phase_content) false).

(** "Save previous phase if exists" / "Don't forget the last phase". *)
Definition save_phase (phases : list Phase) (current_phase : option (Z * string))
    (current_content : list string) : list Phase :=
  match current_phase with
  | Some (n, nm) =>
      let phase_content := join NL current_content in
      phases ++ [mkPhase n nm phase_content (_is_phase_completed phase_content)]
  | None => phases
  end.

(** The [for] loop of [parse_plan] followed by the final save. *)
Fixpoint parse_lines (lines : list string) (phases : list Phase)
    (current_phase : option (Z * string)) (current_content : list string)
  : list Phase :=
  match lines with
  | [] => save_phase phases current_phase current_content
  | line :: rest =>
      match Re.re_match phase_pattern line with
      | Some m =>
          parse_lines rest (save_phase phases current_phase current_content)
            (Some (int (Re.group m 1), strip (Re.group m 2))) []
      | None =>
          match current_phase with
          | Some _ => parse_lines rest phases current_phase (current_content ++ [line])
          | None => parse_lines rest phases current_phase current_content
          end
      end
  end.

(** [parse_plan] once the document text has been read. *)
Definition parse_plan_text (content : string) : list Phase :=
  parse_lines (split_chr LF content) [] None [].

(* ================================================================== *)
(** ** Effects: the trace, the outside world, and a state-and-error monad *)

Inductive Level := DEBUG | INFO | ERROR.

Inductive Event :=
| EvLog (lvl : Level) (msg : string)        (* a record the logger emits *)
| EvPrint (text : string)                   (* print(text) *)
| EvExists (path : string)                  (* Path.exists() *)
| EvRead (path : string)                    (* open(...).read() / read_text() *)
| EvQuery (prompt : string) (permission_mode : string)  (* query(prompt, options) *)
| EvSleep (seconds : Z).                    (* asyncio.sleep *)

Definition Trace := list Event.

(** Messages of the agent SDK, as far as the script looks into them. *)
Inductive Block :=
| TextBlock (text : string)
| OtherBlock.

Inductive Message :=
| AssistantMessage (blocks : list Block)
| OtherMessage (type_name : string) (repr : string).

(** The outside world.  [file tr p] is the text of the file at path [p]
    (as text-mode [read] returns it) when it exists at the moment the
    trace is [tr]; [agent tr prompt] is the whole stream the agent
    produces for [prompt], a stream that ends. *)
Record World := mkWorld {
  home : string;
  file : Trace -> string -> option string;
  agent : Trace -> string -> list Message
}.

Inductive Exn :=
| FileNotFoundError (msg : string).

Inductive Result (A : Type) :=
| Ok (a : A)
| Raise (e : Exn).
Arguments Ok {A} a.
Arguments Raise {A} e.

Definition M (A : Type) : Type := Trace -> Result A * Trace.

Definition ret {A} (a : A) : M A := fun tr => (Ok a, tr).

Definition bind {A B} (m : M A) (k : A -> M B) : M B :=
  fun tr =>
    match m tr with
    | (Ok a, tr') => k a tr'
    | (Raise e, tr') => (Raise e, tr')
    end.

Definition raise {A} (e : Exn) : M A := fun tr => (Raise e, tr).

Definition emit (e : Event) : M unit := fun tr => (Ok tt, (tr ++ [e])%list).

Declare Scope py_scope.
Delimit Scope py_scope with py.
Notation "x <- m ;; k" := (bind m (fun x => k))
  (at level 61, m at next level, right associativity) : py_scope.
Notation "m ;; k" := (bind m (fun _ => k))
  (at level 61, right associativity) : py_scope.
Open Scope py_scope.

Record PlanAutomator := mkAutomator {
  verbose : bool;
  dry_run : bool
}.

(** [setup_logging]: the level is DEBUG when verbose, INFO otherwise.
    This is the level [logging.basicConfig] sets when logging is not
    configured before the automator is built, as when the script is
    started; on a root logger that already has handlers [basicConfig]
    changes nothing. *)
Definition enabled (self : PlanAutomator) (lvl : Level) : bool :=
  match lvl with
  | DEBUG => verbose self
  | _ => true
  end.

Definition log (self : PlanAutomator) (lvl : Level) (msg : string) : M unit :=
  if enabled self lvl then emit (EvLog lvl msg) else ret tt.

Definition print (text : string) : M unit := emit (EvPrint text).

Definition path_exists (w : World) (path : string) : M bool :=
  fun tr =>
    (Ok (match file w tr path with Some _ => true | None => false end),
     (tr ++ [EvExists path])%list).

Definition read_text (w : World) (path : string) : M string :=
  fun tr =>
    match file w tr path with
    | Some text => (Ok text, (tr ++ [EvRead path])%list)
    | None => (Raise (FileNotFoundError path), (tr ++ [EvRead path])%list)
    end.

Definition query (w : World) (prompt permission_mode : string) : M (list Message) :=
  fun tr => (Ok (agent w tr prompt), (tr ++ [EvQuery prompt permission_mode])%list).

Definition sleep (seconds : Z) : M unit := emit (EvSleep seconds).

(* ================================================================== *)
(** ** The methods of [PlanAutomator] *)

Definition parse_plan (w : World) (plan_path : string) : M (list Phase) :=
  found <- path_exists w plan_path ;;
  if negb found
  then raise (FileNotFoundError ("Plan file not found: " ++ plan_path))
  else
    content <- read_text w plan_path ;;
    ret (parse_plan_text content).

Definition load_slash_command (w : World) (command_name : string) : M string :=
  let home_path := home w ++ "/.claude/commands/" ++ command_name ++ ".md" in
  in_home <- path_exists w home_path ;;
  let command_path :=
    if negb in_home then ".claude/commands/" ++ command_name ++ ".md"
    else home_path in
  found <- path_exists w command_path ;;
  if negb found
  then raise (FileNotFoundError ("Slash command not found: " ++ command_name))
  else
    content <- read_text w command_path ;;
    ret (if startswith "---" content
         then
           let parts := split_max "---" 2 content in
           if (3 <=? List.length parts)%nat
           then strip (nth 2 parts EmptyString)
           else content
         else content).

(** The success indicators of [implement_phase]. *)
Definition success_indicator (text : string) : bool :=
  str_in "Phase" text && str_in "Complete" text.

Definition manual_verification_request (text : string) : bool :=
  str_in "Ready for Manual Verification" text.

(** The body of [implement_phase] for one text block. *)
Definition handle_text (self : PlanAutomator) (text : string) (success : bool) : M bool :=
  log self DEBUG ("Text block: " ++ take 100 text ++ "...") ;;
  success <- (if success_indicator text
              then log self DEBUG "Found success indicator" ;; ret true
              else ret success) ;;
  success <- (if manual_verification_request text
              then
                log self INFO "Phase requires manual verification" ;;
                log self INFO "Auto-confirming manual verification in automated mode" ;;
                ret true
              else ret success) ;;
  (if verbose self then print text else ret tt) ;;
  ret success.

Fixpoint handle_blocks (self : PlanAutomator) (blocks : list Block) (success : bool)
  : M bool :=
  match blocks with
  | [] => ret success
  | TextBlock text :: rest =>
      success <- handle_text self text success ;;
      handle_blocks self rest success
  | OtherBlock :: rest => handle_blocks self rest success
  end.

Fixpoint handle_messages (self : PlanAutomator) (messages : list Message)
    (success : bool) : M bool :=
  match messages with
  | [] => ret success
  | AssistantMessage blocks :: rest =>
      log self DEBUG "Received message type: AssistantMessage" ;;
      success <- handle_blocks self blocks success ;;
      handle_messages self rest success
  | OtherMessage type_name repr :: rest =>
      log self DEBUG ("Received message type: " ++ type_name) ;;
      log self DEBUG ("Non-assistant message: " ++ repr) ;;
      handle_messages self rest success
  end.

Definition implement_phase (self : PlanAutomator) (w : World) (plan_path : string)
    (phase : Phase) : M bool :=
  log self INFO ("Implementing Phase " ++ str (number phase) ++ ": " ++ name phase) ;;
  if is_completed phase then
    log self INFO ("Phase " ++ str (number phase) ++ " already completed, skipping...") ;;
    ret true
  else if dry_run self then
    log self INFO ("[DRY RUN] Would implement phase " ++ str (number phase)) ;;
    ret true
  else
    command_prompt <- load_slash_command w "implement_plan" ;;
    let prompt :=
      command_prompt ++ NL ++ NL ++ "Plan: " ++ plan_path ++ NL
      ++ "Phase: " ++ str (number phase) in
    messages <- query w prompt "bypassPermissions" ;;
    handle_messages self messages false.

(** Truthiness of an [Optional[int]]: [None] and [0] are false. *)
Definition truthy (bound : option Z) : bool :=
  match bound with
  | Some b => negb (b =? 0)
  | None => false
  end.

Definition bound_value (bound : option Z) : Z :=
  match bound with
  | Some b => b
  | None => 0
  end.

(** "Filter phases based on start/end" *)
Definition filter_phases (start_phase end_phase : option Z) (phases : list Phase)
  : list Phase :=
  let phases :=
    if truthy start_phase
    then filter (fun p => bound_value start_phase <=? number p) phases
    else phases in
  if truthy end_phase
  then filter (fun p => number p <=? bound_value end_phase) phases
  else phases.

Definition rule : string := repeat "=" 60.

(** One iteration of "Implement each phase"; the result says whether the
    loop goes on ([false] is [break]).  [phases] is the list iterated. *)
Definition loop_body (self : PlanAutomator) (w : World) (plan_path : string)
    (phases : list Phase) (phase : Phase) : M bool :=
  log self INFO (NL ++ rule) ;;
  log self INFO ("Starting Phase " ++ str (number phase) ++ "/"
                 ++ str (Z.of_nat (List.length phases)) ++ ": " ++ name phase) ;;
  log self INFO (rule ++ NL) ;;
  success <- implement_phase self w plan_path phase ;;
  if negb success then
    log self ERROR ("Phase " ++ str (number phase) ++ " failed, stopping implementation") ;;
    ret false
  else
    log self INFO ("Phase " ++ str (number phase) ++ " completed successfully") ;;
    (if number phase <? number (List.last phases phase)
     then log self INFO "Clearing context for next phase..." ;; sleep 1
     else ret tt) ;;
    ret true.

Fixpoint for_phases (self : PlanAutomator) (w : World) (plan_path : string)
    (phases todo : list Phase) : M unit :=
  match todo with
  | [] => ret tt
  | phase :: rest =>
      go_on <- loop_body self w plan_path phases phase ;;
      if go_on then for_phases self w plan_path phases rest else ret tt
  end.

Definition run_full_implementation (self : PlanAutomator) (w : World)
    (plan_path : string) (start_phase end_phase : option Z) : M unit :=
  phases <- parse_plan w plan_path ;;
  match phases with
  | [] => log self ERROR "No phases found in plan"
  | _ :: _ =>
      log self INFO ("Found " ++ str (Z.of_nat (List.length phases)) ++ " phases in plan") ;;
      let phases := filter_phases start_phase end_phase phases in
      for_phases self w plan_path phases phases ;;
      log self INFO (NL ++ rule) ;;
      log self INFO "Implementation complete!"
  end.

(* ================================================================== *)
(** ** Phase Extractor: the document as a preamble and heading blocks *)

(** What a heading line yields: [Some (number, name)] when the line matches
    [phase_pattern]. *)
Definition heading (line : string) : option (Z * string) :=
  match Re.re_match phase_pattern line with
  | Some m => Some (int (Re.group m 1), strip (Re.group m 2))
  | None => None
  end.

Definition is_heading (line : string) : bool :=
  match heading line with Some _ => true | None => false end.

(** A heading line of a document is "## Phase ", digits, a colon and a
    label of at least one character; its number is the value of the
    digits and its name the stripped label. *)
Definition heading_shape (line : string) (n : Z) (nm : string) : Prop :=
  exists digits label,
    line = "## Phase " ++ digits ++ ":" ++ label
    /\ digits <> EmptyString /\ all isdigit digits = true
    /\ label <> EmptyString
    /\ n = int digits /\ nm = strip label.

(** A block is a heading line with the lines that follow it up to the next
    heading line. *)
Definition block : Type := string * list string.

Definition block_lines (b : block) : list string := fst b :: snd b.

Definition plain (l : list string) : Prop := Forall (fun x => heading x = None) l.

Definition well_formed_block (b : block) : Prop :=
  heading (fst b) <> None /\ plain (snd b).

(** The record the extractor owes a block. *)
Definition extracted (b : block) (ph : Phase) : Prop :=
  heading (fst b) = Some (number ph, name ph)
  /\ content ph = join NL (snd b)
  /\ is_completed ph = _is_phase_completed (content ph).

Fixpoint segments (lines : list string) : list string * list block :=
  match lines with
  | [] => ([], [])
  | l :: rest =>
      let (pre, blocks) := segments rest in
      if is_heading l then ([], (l, pre) :: blocks) else (l :: pre, blocks)
  end.

Definition record_of (b : block) : Phase :=
  match heading (fst b) with
  | Some (n, nm) =>
      mkPhase n nm (join NL (snd b)) (_is_phase_completed (join NL (snd b)))
  | None => mkPhase 0 EmptyString EmptyString true
  end.

(** A document with a preamble and two phases. *)
Definition two_phase_doc : string :=
  "notes" ++ NL ++ "## Phase 1: Setup" ++ NL ++ "install" ++ NL
  ++ "## Phase 2:   Build  " ++ NL ++ AUTOMATED ++ NL ++ "- [ ] tests pass".

(* ================================================================== *)
(** ** Completion Classifier *)

Definition toggle (active : bool) (line : string) : bool :=
  if str_in AUTOMATED line then true
  else if str_in MANUAL line then false
  else active.

Definition section_active (before : list string) : bool :=
  fold_left toggle before false.

Definition is_header (line : string) : bool :=
  str_in AUTOMATED line || str_in MANUAL line.

Definition matches_unchecked (line : string) : bool :=
  match Re.re_match unchecked_pattern line with
  | Some _ => true
  | None => false
  end.

Definition unchecked_item (line : string) : bool :=
  negb (is_header line) && matches_unchecked line.

Definition found_unchecked (lines : list string) : Prop :=
  exists before line after,
    lines = (before ++ line :: after)%list
    /\ section_active before = true
    /\ unchecked_item line = true.

Definition RBRACKET : ascii := Ascii.ascii_of_nat 93.
Definition LBRACKET : ascii := Ascii.ascii_of_nat 91.

Fixpoint from_close (s : string) : string :=
  match s with
  | EmptyString => EmptyString
  | String c t => if Ascii.eqb c RBRACKET then s else from_close t
  end.

Fixpoint tick (s : string) : string :=
  match s with
  | EmptyString => EmptyString
  | String c t =>
      if Ascii.eqb c LBRACKET then String c (String "x" (from_close t))
      else String c (tick t)
  end.

(** The replacement clause of C2 as the claim states it: ticking the box
    of an unchecked item found in an active section makes the phase
    complete. *)
Definition replacement_as_stated : Prop :=
  forall doc before line after,
    split_chr LF doc = (before ++ line :: after)%list ->
    section_active before = true ->
    unchecked_item line = true ->
    _is_phase_completed (join NL (before ++ tick line :: after)) = true.

Definition two_items : string :=
  AUTOMATED ++ NL ++ "- [ ] lint" ++ NL ++ "- [ ] tests pass".

Definition one_item : string := AUTOMATED ++ NL ++ "- [ ] tests pass".


(* ================================================================== *)
(** ** Phase Driver *)

(** What a run shows of its dealings with the outside. *)
Definition is_query (e : Event) : bool :=
  match e with EvQuery _ _ => true | _ => false end.

Definition is_file_access (e : Event) : bool :=
  match e with EvExists _ | EvRead _ => true | _ => false end.

(** The calls made to the agent collaborator. *)
Definition agent_calls (tr : Trace) : list Event := filter is_query tr.

(** The look-ups and reads of files, the prompt template among them. *)
Definition file_accesses (tr : Trace) : list Event := filter is_file_access tr.

(** The text chunks of a stream, in the order the driver meets them. *)
Definition block_texts (blocks : list Block) : list string :=
  flat_map (fun b => match b with TextBlock text => [text] | OtherBlock => [] end) blocks.

Definition chunks (messages : list Message) : list string :=
  flat_map (fun m => match m with
                     | AssistantMessage blocks => block_texts blocks
                     | OtherMessage _ _ => []
                     end) messages.

(** A chunk satisfies the phase when it yields SUCCESS (it holds both
    "Phase" and "Complete") or MANUAL_VERIFICATION_PENDING (it holds
    "Ready for Manual Verification"). *)
Definition yields_success (text : string) : bool :=
  str_in "Phase" text && str_in "Complete" text.

Definition yields_manual_pending (text : string) : bool :=
  str_in "Ready for Manual Verification" text.

Definition satisfies (text : string) : bool :=
  yields_success text || yields_manual_pending text.

(** The prompt of a phase, from the template text. *)
Definition phase_prompt (command_prompt plan_path : string) (phase : Phase) : string :=
  command_prompt ++ NL ++ NL ++ "Plan: " ++ plan_path ++ NL
  ++ "Phase: " ++ str (number phase).

Definition live_world : World :=
  mkWorld "/home/dev"
    (fun _ p => if String.eqb p ".claude/commands/implement_plan.md"
                then Some "Implement the phase."
                else None)
    (fun _ _ => [OtherMessage "SystemMessage" "init";
                 AssistantMessage [OtherBlock; TextBlock "Phase 2 is now Complete"]]).

(* ================================================================== *)
(** ** Run Controller *)

(** The record that opens every call of [implement_phase]. *)
Definition driver_entry (phase : Phase) : Event :=
  EvLog INFO ("Implementing Phase " ++ str (number phase) ++ ": " ++ name phase).

Definition is_driver_entry (e : Event) : bool :=
  match e with
  | EvLog INFO msg => String.prefix "Implementing Phase " msg
  | _ => false
  end.

(** The calls of the Phase Driver a trace shows, in order. *)
Definition driver_entries (tr : Trace) : list Event := filter is_driver_entry tr.

(** The test the two filters of [run_full_implementation] apply. *)
Definition selected (start_phase end_phase : option Z) (p : Phase) : bool :=
  (if truthy start_phase then bound_value start_phase <=? number p else true)
  && (if truthy end_phase then number p <=? bound_value end_phase else true).

(** The run window in the words of the specification: each bound applies
    when it is present. *)
Definition in_window (start_phase end_phase : option Z) (p : Phase) : bool :=
  match start_phase with Some a => a <=? number p | None => true end
  && match end_phase with Some b => number p <=? b | None => true end.

(** The loop passes through [todo] with every verdict a success. *)
Fixpoint run_through (self : PlanAutomator) (w : World) (plan_path : string)
    (phases todo : list Phase) (tr : Trace) : option Trace :=
  match todo with
  | [] => Some tr
  | phase :: rest =>
      match loop_body self w plan_path phases phase tr with
      | (Ok true, tr') => run_through self w plan_path phases rest tr'
      | _ => None
      end
  end.



(** A computation is quiet when it adds no driver entry to the trace. *)
Definition quiet {A} (m : M A) : Prop :=
  forall tr, driver_entries (snd (m tr)) = driver_entries tr.

(** A computation that adds the one driver entry [e]. *)
Definition enters {A} (e : Event) (m : M A) : Prop :=
  forall tr, driver_entries (snd (m tr)) = (driver_entries tr ++ [e])%list.

(** The found-phases record of [run_full_implementation]. *)
Definition found_record (phases : list Phase) : Event :=
  EvLog INFO ("Found " ++ str (Z.of_nat (List.length phases)) ++ " phases in plan").

(** The records of [loop_body] before it calls the driver. *)
Definition banner (phases : list Phase) (phase : Phase) : Trace :=
  [EvLog INFO (NL ++ rule);
   EvLog INFO ("Starting Phase " ++ str (number phase) ++ "/"
               ++ str (Z.of_nat (List.length phases)) ++ ": " ++ name phase);
   EvLog INFO (rule ++ NL)].

Definition failure_record (phase : Phase) : Event :=
  EvLog ERROR ("Phase " ++ str (number phase) ++ " failed, stopping implementation").

Definition closing : Trace :=
  [EvLog INFO (NL ++ rule); EvLog INFO "Implementation complete!"].

(** A three-phase plan, every phase with an unchecked automated item. *)
Definition plan123 : string :=
  "# Plan" ++ NL
  ++ "## Phase 1: Setup" ++ NL ++ AUTOMATED ++ NL ++ "- [ ] lint" ++ NL
  ++ "## Phase 2: Build" ++ NL ++ AUTOMATED ++ NL ++ "- [ ] tests pass" ++ NL
  ++ "## Phase 3: Ship" ++ NL ++ AUTOMATED ++ NL ++ "- [ ] smoke test".

Definition template_files (path : string) : option string :=
  if String.eqb path ".claude/commands/implement_plan.md"
  then Some "Implement the phase."
  else None.

(** A world whose agent reports completion for phase 1 only. *)
Definition world_fail2 : World :=
  mkWorld "/home/dev"
    (fun _ path => if String.eqb path "plan.md" then Some plan123
                   else template_files path)
    (fun _ prompt =>
       if str_in "Phase: 1" prompt
       then [AssistantMessage [TextBlock "Phase 1 Complete"]]
       else [AssistantMessage [TextBlock "I could not finish."]]).

Definition live : PlanAutomator := mkAutomator false false.


(** A plan that lists phase 2 before phase 1. *)
Definition plan21 : string :=
  "## Phase 2: Deploy" ++ NL ++ AUTOMATED ++ NL ++ "- [ ] smoke test" ++ NL
  ++ "## Phase 1: Build" ++ NL ++ AUTOMATED ++ NL ++ "- [ ] tests pass".

Definition world_ok21 : World :=
  mkWorld "/home/dev"
    (fun _ path => if String.eqb path "plan.md" then Some plan21
                   else template_files path)
    (fun _ _ => [AssistantMessage [TextBlock "Phase Complete"]]).

Definition dry : PlanAutomator := mkAutomator false true.

Definition world123 : World :=
  mkWorld "/home/dev"
    (fun _ path => if String.eqb path "plan.md" then Some plan123 else None)
    (fun _ _ => []).

(* ================================================================== *)
(** ** Further notions: what a computation leaves in the trace *)

Definition is_print (e : Event) : bool :=
  match e with EvPrint _ => true | _ => false end.

Definition is_sleep (e : Event) : bool :=
  match e with EvSleep _ => true | _ => false end.

(** The texts printed, in order. *)
Definition prints (tr : Trace) : list Event := filter is_print tr.

(** A computation is silent for a kind of event when it adds none. *)
Definition silent {A} (kind : Event -> bool) (m : M A) : Prop :=
  forall tr, filter kind (snd (m tr)) = filter kind tr.

(** The two places [load_slash_command] looks at. *)
Definition home_command_path (w : World) (command_name : string) : string :=
  home w ++ "/.claude/commands/" ++ command_name ++ ".md".

Definition local_command_path (command_name : string) : string :=
  ".claude/commands/" ++ command_name ++ ".md".

(** "Strip YAML frontmatter", the last step of [load_slash_command]. *)
Definition strip_frontmatter (content : string) : string :=
  if startswith "---" content
  then
    let parts := split_max "---" 2 content in
    if (3 <=? List.length parts)%nat
    then strip (nth 2 parts EmptyString)
    else content
  else content.

(** A file system that does not change while the script runs. *)
Definition static_files (w : World) (files : string -> option string) : Prop :=
  forall tr path, file w tr path = files path.

(** The template [load_slash_command] settles on: the one under the home
    directory when there is one, else the one under the working
    directory. *)
Definition chosen_template (w : World) (files : string -> option string)
    (command_name : string) : option string :=
  match files (home_command_path w command_name) with
  | Some text => Some text
  | None => files (local_command_path command_name)
  end.

Definition plain_world (files : string -> option string) : World :=
  mkWorld "/home/dev" (fun _ path => files path) (fun _ _ => []).

Definition both_templates (path : string) : option string :=
  if String.eqb path "/home/dev/.claude/commands/implement_plan.md"
  then Some ("---" ++ NL ++ "allowed-tools: Bash" ++ NL ++ "---" ++ NL
             ++ "Implement the plan." ++ NL)
  else if String.eqb path ".claude/commands/implement_plan.md"
  then Some "Local template."
  else None.

Definition no_files (path : string) : option string := None.

(** A plan file without any phase heading. *)
Definition notes_only : string := "# Notes" ++ NL ++ "## Phase one: no number" ++ NL ++ "- [ ] todo".

Definition notes_files (path : string) : option string :=
  if String.eqb path "plan.md" then Some notes_only else None.

(** A phase the driver passes over without work: it is already completed,
    or the automator is in dry-run mode. *)
Definition skipped (self : PlanAutomator) (phase : Phase) : bool :=
  is_completed phase || dry_run self.

(** The pauses a trace shows. *)
Definition sleeps (tr : Trace) : list Event := filter is_sleep tr.

Definition verbose_live : PlanAutomator := mkAutomator true false.

(** A plan whose phases are all complete. *)
Definition done_plan : string :=
  "## Phase 1: Setup" ++ NL ++ AUTOMATED ++ NL ++ "- [x] lint" ++ NL
  ++ "## Phase 2: Build" ++ NL ++ "no checks".

Definition done_files (path : string) : option string :=
  if String.eqb path "plan.md" then Some done_plan else None.

Definition plan123_files (path : string) : option string :=
  if String.eqb path "plan.md" then Some plan123 else None.

(** A world with the plan and the template where the agent completes every
    phase. *)
Definition world_ok123 : World :=
  mkWorld "/home/dev"
    (fun _ path => if String.eqb path "plan.md" then Some plan123
                   else template_files path)
    (fun _ _ => [AssistantMessage [TextBlock "working"; TextBlock "Phase Complete"]]).

(* ================================================================== *)
(** ** [create_plan] *)

(** [re.search(p, s)]: the match at the leftmost position that has one. *)
Fixpoint search_from (p : list Re.item) (s : string) (pos : nat)
  : option (list string) :=
  match Re.matcher p s (Re.mkState pos [] None) with
  | Some m => Some m
  | None =>
      match s with
      | EmptyString => None
      | String _ t => search_from p t (S pos)
      end
  end.

Definition re_search (p : list Re.item) (s : string) : option (list string) :=
  search_from p s 0.

Definition BACKTICK : ascii := Ascii.ascii_of_nat 96.

(** The class [[^`]]. *)
Definition not_backtick (c : ascii) : bool := negb (Ascii.eqb c BACKTICK).

Definition PLANS_DIR : string := "thoughts/shared/plans/".

(** [r'`(thoughts/shared/plans/[^`]+\.md)`'] *)
Definition created_plan_pattern : list Re.item :=
  Re.lit "`" ++ [Re.Open] ++ Re.lit PLANS_DIR
  ++ [Re.Atom not_backtick Re.Plus] ++ Re.lit ".md" ++ [Re.Close] ++ Re.lit "`".

Section CreatePlan.

(** [Path]: the path object made from a string, as the string it prints
    to. *)
Variable Path : string -> string.

(** The body of [create_plan] for one text block. *)
Definition note_plan_path (self : PlanAutomator) (text : string)
    (plan_path : option string) : M (option string) :=
  plan_path <- (if str_in PLANS_DIR text
                then
                  match re_search created_plan_pattern text with
                  | Some m =>
                      let found := Path (Re.group m 1) in
                      log self INFO ("Plan created at: " ++ found) ;;
                      ret (Some found)
                  | None => ret plan_path
                  end
                else ret plan_path) ;;
  (if verbose self then print text else ret tt) ;;
  ret plan_path.

Fixpoint note_blocks (self : PlanAutomator) (blocks : list Block)
    (plan_path : option string) : M (option string) :=
  match blocks with
  | [] => ret plan_path
  | TextBlock text :: rest =>
      plan_path <- note_plan_path self text plan_path ;;
      note_blocks self rest plan_path
  | OtherBlock :: rest => note_blocks self rest plan_path
  end.

Fixpoint note_messages (self : PlanAutomator) (messages : list Message)
    (plan_path : option string) : M (option string) :=
  match messages with
  | [] => ret plan_path
  | AssistantMessage blocks :: rest =>
      plan_path <- note_blocks self blocks plan_path ;;
      note_messages self rest plan_path
  | OtherMessage _ _ :: rest => note_messages self rest plan_path
  end.

(** [create_plan]; the query carries the prompt alone, so the permission
    mode of its event is left empty. *)
Definition create_plan (self : PlanAutomator) (w : World) (task_description : string)
  : M (option string) :=
  log self INFO "Creating new plan..." ;;
  if dry_run self then
    log self INFO ("[DRY RUN] Would create plan for: " ++ task_description) ;;
    ret (Some (Path "thoughts/shared/plans/dry-run-plan.md"))
  else
    messages <- query w ("/create_plan " ++ task_description) "" ;;
    note_messages self messages None.

(** The plan path a text chunk reports, if any. *)
Definition reported_path (text : string) : option string :=
  match re_search created_plan_pattern text with
  | Some m => Some (Path (Re.group m 1))
  | None => None
  end.

(** The last report of a list, or the report already held. *)
Definition last_report (held : option string) (texts : list string) : option string :=
  fold_left (fun acc text => match reported_path text with
                             | Some p => Some p
                             | None => acc
                             end) texts held.

(** A report is a path under the plans directory that ends in ".md". *)
Definition plan_path_shape (p : string) : Prop :=
  exists stem,
    p = Path (PLANS_DIR ++ stem ++ ".md")
    /\ stem <> EmptyString /\ chr_in BACKTICK stem = false.

End CreatePlan.

Definition planner_world : World :=
  mkWorld "/home/dev" (fun _ _ => None)
    (fun _ _ => [AssistantMessage
                   [TextBlock "Draft at `thoughts/shared/plans/draft.md`.";
                    TextBlock "thinking about thoughts/shared/plans/ layout"];
                 OtherMessage "ResultMessage" "done";
                 AssistantMessage
                   [TextBlock "Plan written to `thoughts/shared/plans/2025-auth.md`"]]).

Definition same_path (s : string) : string := s.

(** The heading line the parser's comment describes, "## Phase N: Name",
    written from a number and a name. *)
Definition heading_line (n : Z) (nm : string) : string :=
  "## Phase " ++ str n ++ ": " ++ nm.

(* ================================================================== *)
(** * Properties *)

(* ================================================================== *)
(** ** Facts about the string operations *)

Module PyStrFacts.
Import PyStr.

Lemma chr_in_app c a b : chr_in c (a ++ b) = chr_in c a || chr_in c b.
Proof.
  induction a as [|x a IH]; simpl; [reflexivity|].
  now rewrite IH, orb_assoc.
Qed.

(** A needle cannot reach across a character it does not contain. *)
Lemma prefix_app_chr c : forall needle a b,
  chr_in c needle = false ->
  String.prefix needle (a ++ String c b) = String.prefix needle a.
Proof.
  intros needle a. revert needle.
  induction a as [|x a IH]; intros needle b H; destruct needle as [|n ns]; simpl; auto.
  - simpl in H. apply orb_false_iff in H. destruct H as [H _].
    destruct (ascii_dec n c) as [->|Hn]; [|reflexivity].
    now rewrite Ascii.eqb_refl in H.
  - simpl in H. apply orb_false_iff in H. destruct H as [_ H].
    destruct (ascii_dec n x); [|reflexivity]. now apply IH.
Qed.

Lemma str_in_app_chr c needle : forall a b,
  chr_in c needle = false ->
  str_in needle (a ++ String c b) = str_in needle a || str_in needle b.
Proof.
  induction a as [|x a IH]; intros b H.
  - pose proof (prefix_app_chr c needle EmptyString b H) as E.
    change (EmptyString ++ String c b) with (String c b) in *.
    cbn [str_in]. rewrite E. now rewrite orb_false_r.
  - pose proof (prefix_app_chr c needle (String x a) b H) as E.
    change (String x a ++ String c b) with (String x (a ++ String c b)) in *.
    cbn [str_in]. rewrite E, IH by assumption.
    now rewrite orb_assoc.
Qed.

Lemma split_chr_not_nil sep s : split_chr sep s <> [].
Proof.
  destruct s as [|c t]; simpl; [discriminate|].
  destruct (Ascii.eqb c sep); [discriminate|].
  destruct (split_chr sep t); discriminate.
Qed.

(** The pieces of a split are free of the separator. *)
Lemma split_chr_no_sep sep s :
  Forall (fun l => chr_in sep l = false) (split_chr sep s).
Proof.
  induction s as [|c t IH]; simpl.
  - constructor; [reflexivity|constructor].
  - destruct (Ascii.eqb c sep) eqn:E.
    + constructor; [reflexivity|assumption].
    + destruct (split_chr sep t) as [|l ls].
      * constructor; [|constructor]. simpl. now rewrite E.
      * inversion IH; subst. constructor; [|assumption]. simpl. now rewrite E.
Qed.

Lemma split_chr_piece sep l : forall t,
  chr_in sep l = false ->
  split_chr sep (l ++ String sep t) = l :: split_chr sep t.
Proof.
  induction l as [|c l IH]; intros t H; simpl.
  - now rewrite Ascii.eqb_refl.
  - simpl in H. apply orb_false_iff in H. destruct H as [Hc Hl].
    rewrite Hc, IH by assumption. reflexivity.
Qed.

Lemma split_chr_whole sep l :
  chr_in sep l = false -> split_chr sep l = [l].
Proof.
  induction l as [|c l IH]; intros H; simpl; [reflexivity|].
  simpl in H. apply orb_false_iff in H. destruct H as [Hc Hl].
  now rewrite Hc, IH.
Qed.

(** Splitting undoes joining when no line holds a newline. *)
Lemma split_join lines :
  lines <> [] ->
  Forall (fun l => chr_in LF l = false) lines ->
  split_chr LF (join NL lines) = lines.
Proof.
  intros Hne H. induction H as [|x xs Hx Hxs IH]; [congruence|].
  destruct xs as [|y ys].
  - simpl. now apply split_chr_whole.
  - change (join NL (x :: y :: ys)) with (x ++ String LF (join NL (y :: ys))).
    rewrite split_chr_piece by assumption.
    rewrite IH by discriminate. reflexivity.
Qed.

Lemma append_assoc (a b c : string) : (a ++ b) ++ c = a ++ b ++ c.
Proof. induction a as [|x a IH]; simpl; [reflexivity|now rewrite IH]. Qed.

Lemma app_nil_r_string s : s ++ EmptyString = s.
Proof. induction s as [|x s IH]; simpl; [reflexivity|now rewrite IH]. Qed.

End PyStrFacts.

Import PyStrFacts.

(* ================================================================== *)
(** ** What the matcher accepts

    [Accepts p pos s]: the pattern [p] matches a prefix of [s], [pos]
    characters into the subject.  It is the declarative reading of the
    pattern, with no reference to backtracking order. *)

Module ReFacts.
Import Re.
Import ReSpec.

Lemma consumed_eat_all w : forall st,
  consumed (eat_all w st) = (consumed st + String.length w)%nat.
Proof.
  induction w as [|c w IH]; intros st; simpl.
  - lia.
  - rewrite IH. simpl. lia.
Qed.

Lemma greedy_at_least cls (k : cont) s st :
  k s st <> None -> greedy cls k s st <> None.
Proof.
  intros H. destruct s as [|c t]; simpl; [assumption|].
  destruct (cls c); [|assumption].
  destruct (greedy cls k t (eat c st)); [discriminate|assumption].
Qed.

Lemma greedy_some cls (k : cont) s : forall st,
  greedy cls k s st <> None
  <-> exists w t, s = w ++ t /\ all cls w = true /\ k t (eat_all w st) <> None.
Proof.
  induction s as [|c s IH]; intros st; simpl.
  - split.
    + intros H. exists EmptyString, EmptyString. auto.
    + intros (w & t & E & _ & H). destruct w; [|discriminate].
      simpl in E. subst t. exact H.
  - split.
    + intros H. destruct (cls c) eqn:Ec.
      * destruct (greedy cls k s (eat c st)) eqn:Eg.
        -- assert (Hg : greedy cls k s (eat c st) <> None) by (rewrite Eg; discriminate).
           apply IH in Hg. destruct Hg as (w & t & E & Hw & Hk).
           exists (String c w), t. simpl. rewrite Ec, Hw, E. auto.
        -- exists EmptyString, (String c s). auto.
      * exists EmptyString, (String c s). auto.
    + intros (w & t & E & Hw & Hk). destruct w as [|c' w].
      * simpl in E, Hk. subst t.
        destruct (cls c); [|assumption].
        destruct (greedy cls k s (eat c st)); [discriminate|assumption].
      * simpl in E, Hw, Hk. injection E as <- ->.
        apply andb_true_iff in Hw. destruct Hw as [Hc Hw]. rewrite Hc.
        assert (Hg : greedy cls k (w ++ t) (eat c st) <> None).
        { apply IH. exists w, t. auto. }
        destruct (greedy cls k (w ++ t) (eat c st)); [discriminate|congruence].
Qed.

Lemma lazy_some cls (k : cont) s : forall st,
  lazy cls k s st <> None
  <-> exists w t, s = w ++ t /\ all cls w = true /\ k t (eat_all w st) <> None.
Proof.
  induction s as [|c s IH]; intros st; simpl.
  - split.
    + intros H. exists EmptyString, EmptyString.
      destruct (k EmptyString st) eqn:Ek; [|congruence].
      simpl. rewrite Ek. repeat split; discriminate.
    + intros (w & t & E & _ & H). destruct w; [|discriminate].
      simpl in E, H. subst t. destruct (k EmptyString st); congruence.
  - split.
    + intros H. destruct (k (String c s) st) eqn:Ek.
      * exists EmptyString, (String c s). simpl. rewrite Ek. repeat split; discriminate.
      * destruct (cls c) eqn:Ec; [|congruence].
        apply IH in H. destruct H as (w & t & E & Hw & Hk).
        exists (String c w), t. simpl. rewrite Ec, Hw, E. auto.
    + intros (w & t & E & Hw & Hk). destruct (k (String c s) st) eqn:Ek; [discriminate|].
      destruct w as [|c' w].
      * simpl in E, Hk. subst t. congruence.
      * simpl in E, Hw, Hk. injection E as <- ->.
        apply andb_true_iff in Hw. destruct Hw as [Hc Hw]. rewrite Hc.
        apply IH. exists w, t. auto.
Qed.

Lemma single_some cls (k : cont) s st :
  single cls k s st <> None
  <-> exists c t, s = String c t /\ cls c = true /\ k t (eat c st) <> None.
Proof.
  unfold single. split.
  - intros H. destruct s as [|c t]; [congruence|].
    destruct (cls c) eqn:Ec; [|congruence]. exists c, t. auto.
  - intros (c & t & -> & Hc & Hk). now rewrite Hc.
Qed.

(** The matcher succeeds exactly on what the pattern accepts. *)
Lemma matcher_accepts p : forall s st,
  matcher p s st <> None <-> Accepts p (consumed st) s.
Proof.
  induction p as [|i p IH]; intros s st.
  - simpl. split; [trivial|discriminate].
  - destruct i as [| | | |cls q]; cbn [matcher Accepts].
    + destruct (Nat.eqb_spec (consumed st) 0) as [E|E].
      * rewrite IH. tauto.
      * split; [congruence|tauto].
    + destruct (at_end s).
      * rewrite IH. tauto.
      * split; [congruence|intros [H _]; discriminate].
    + rewrite IH. reflexivity.
    + rewrite IH. reflexivity.
    + destruct q.
      * rewrite single_some. split.
        -- intros (c & t & E & Hc & Hk). exists c, t. apply IH in Hk. auto.
        -- intros (c & t & E & Hc & Hk). exists c, t.
           repeat split; auto. now apply IH.
      * rewrite greedy_some. split.
        -- intros (w & t & E & Hw & Hk). exists w, t. apply IH in Hk.
           rewrite consumed_eat_all in Hk. auto.
        -- intros (w & t & E & Hw & Hk). exists w, t.
           repeat split; auto. apply IH. now rewrite consumed_eat_all.
      * rewrite single_some. split.
        -- intros (c & t & E & Hc & Hk). apply greedy_some in Hk.
           destruct Hk as (w & t' & E' & Hw & Hk). apply IH in Hk.
           rewrite consumed_eat_all in Hk. exists c, w, t'. subst. auto.
        -- intros (c & w & t & E & Hc & Hw & Hk). exists c, (w ++ t).
           repeat split; auto. apply greedy_some. exists w, t.
           repeat split; auto. apply IH. now rewrite consumed_eat_all.
      * rewrite single_some. split.
        -- intros (c & t & E & Hc & Hk). apply lazy_some in Hk.
           destruct Hk as (w & t' & E' & Hw & Hk). apply IH in Hk.
           rewrite consumed_eat_all in Hk. exists c, w, t'. subst. auto.
        -- intros (c & w & t & E & Hc & Hw & Hk). exists c, (w ++ t).
           repeat split; auto. apply lazy_some. exists w, t.
           repeat split; auto. apply IH. now rewrite consumed_eat_all.
Qed.

Lemma re_match_accepts p s : re_match p s <> None <-> Accepts p 0 s.
Proof. unfold re_match. now rewrite matcher_accepts. Qed.

End ReFacts.

(* ================================================================== *)
(** ** How the matcher runs on a class it cannot leave early *)

Module ReRuns.
Import Re.
Import ReSpec.

Lemma groups_eat_all w : forall st, groups (eat_all w st) = groups st.
Proof. induction w as [|c w IH]; intros st; simpl; [reflexivity|now rewrite IH]. Qed.

Lemma opened_eat_all w : forall st,
  opened (eat_all w st) = option_map (fun g => g ++ w) (opened st).
Proof.
  induction w as [|c w IH]; intros st; simpl.
  - destruct (opened st) as [g|]; simpl; [|reflexivity].
    f_equal. induction g as [|x g IHg]; simpl; [reflexivity|now rewrite <- IHg].
  - rewrite IH. simpl. destruct (opened st) as [g|]; simpl; [|reflexivity].
    f_equal. now rewrite append_assoc.
Qed.

(** A greedy run whose continuation refuses to start on the class takes
    the whole run. *)
Lemma greedy_run cls (k : cont) w : forall t st,
  all cls w = true -> starts_not cls t ->
  (forall c s st', cls c = true -> k (String c s) st' = None) ->
  greedy cls k (w ++ t) st = k t (eat_all w st).
Proof.
  induction w as [|x w IH]; intros t st Hw Ht Hk.
  - simpl. destruct t as [|c t]; [reflexivity|].
    simpl in Ht. simpl. now rewrite Ht.
  - simpl in Hw. apply andb_true_iff in Hw. destruct Hw as [Hx Hw].
    simpl. rewrite Hx, IH by assumption.
    destruct (k t (eat_all w (eat x st))); [reflexivity|].
    now apply Hk.
Qed.

(** A greedy run that succeeds after taking everything. *)
Lemma greedy_all_then cls (k : cont) w : forall t st r,
  all cls w = true -> starts_not cls t ->
  k t (eat_all w st) = Some r ->
  greedy cls k (w ++ t) st = Some r.
Proof.
  induction w as [|x w IH]; intros t st r Hw Ht Hk.
  - simpl in *. destruct t as [|c t]; [assumption|].
    simpl in Ht. simpl. now rewrite Ht.
  - simpl in Hw. apply andb_true_iff in Hw. destruct Hw as [Hx Hw].
    simpl. rewrite Hx. now rewrite (IH t (eat x st) r).
Qed.

(** A greedy run to the end of the subject that gives one character back. *)
Lemma greedy_back_one cls (k : cont) w : forall c st r,
  all cls w = true -> cls c = true ->
  (forall st', k EmptyString st' = None) ->
  k (String c EmptyString) (eat_all w st) = Some r ->
  greedy cls k (w ++ String c EmptyString) st = Some r.
Proof.
  induction w as [|x w IH]; intros c st r Hw Hc Hn Hk.
  - simpl in *. now rewrite Hc, Hn.
  - simpl in Hw. apply andb_true_iff in Hw. destruct Hw as [Hx Hw].
    simpl. rewrite Hx. now rewrite (IH c (eat x st) r).
Qed.

(** A lazy run whose continuation refuses to start on the class goes to
    the end of a subject made of the class. *)
Lemma lazy_run cls (k : cont) s : forall st,
  all cls s = true ->
  (forall c t st', cls c = true -> k (String c t) st' = None) ->
  lazy cls k s st = k EmptyString (eat_all s st).
Proof.
  induction s as [|x s IH]; intros st Hs Hk.
  - simpl. now destruct (k EmptyString st).
  - simpl in Hs. apply andb_true_iff in Hs. destruct Hs as [Hx Hs].
    simpl. rewrite Hk, Hx by assumption. now apply IH.
Qed.

End ReRuns.

Import ReFacts.

(* ================================================================== *)
(** ** Phase Extractor *)

Section Extractor.

Lemma segments_partition lines :
  lines = (fst (segments lines) ++ flat_map block_lines (snd (segments lines)))%list.
Proof.
  induction lines as [|l rest IH]; simpl; [reflexivity|].
  destruct (segments rest) as [pre blocks]; simpl in *.
  destruct (is_heading l); simpl; now rewrite IH.
Qed.

Lemma segments_plain lines : plain (fst (segments lines)).
Proof.
  induction lines as [|l rest IH]; simpl; [constructor|].
  destruct (segments rest) as [pre blocks]; simpl in *.
  unfold is_heading. destruct (heading l) eqn:E; simpl; constructor; assumption.
Qed.

Lemma segments_blocks lines : Forall well_formed_block (snd (segments lines)).
Proof.
  induction lines as [|l rest IH]; simpl; [constructor|].
  pose proof (segments_plain rest) as Hp.
  destruct (segments rest) as [pre blocks]; simpl in *.
  unfold is_heading. destruct (heading l) eqn:E; simpl; [|assumption].
  constructor; [|assumption].
  split; simpl; [congruence|assumption].
Qed.

Lemma segments_count lines :
  List.length (snd (segments lines)) = List.length (filter is_heading lines).
Proof.
  induction lines as [|l rest IH]; simpl; [reflexivity|].
  destruct (segments rest) as [pre blocks]; simpl in *.
  destruct (is_heading l); simpl; congruence.
Qed.

Lemma save_phase_record phases n nm cc :
  save_phase phases (Some (n, nm)) cc
  = (phases ++ [mkPhase n nm (join NL cc) (_is_phase_completed (join NL cc))])%list.
Proof. reflexivity. Qed.

(** The loop from any intermediate state: the pending phase gets the
    preamble of the remaining lines, then each block gives its record. *)
Lemma segments_cons l rest :
  segments (l :: rest)
  = if is_heading l
    then ([], (l, fst (segments rest)) :: snd (segments rest))
    else (l :: fst (segments rest), snd (segments rest)).
Proof. simpl. now destruct (segments rest). Qed.

Lemma record_of_match l m body :
  Re.re_match phase_pattern l = Some m ->
  record_of (l, body)
  = mkPhase (int (Re.group m 1)) (strip (Re.group m 2)) (join NL body)
            (_is_phase_completed (join NL body)).
Proof. intros E. unfold record_of, heading. cbn [fst snd]. now rewrite E. Qed.

(** The loop from any intermediate state: the pending phase gets the
    preamble of the remaining lines, then each block gives its record. *)
Lemma parse_lines_segments lines : forall phases cur cc,
  parse_lines lines phases cur cc
  = (save_phase phases cur (cc ++ fst (segments lines))
     ++ map record_of (snd (segments lines)))%list.
Proof.
  induction lines as [|l rest IH]; intros phases cur cc.
  - cbn [parse_lines segments fst snd map]. now rewrite !app_nil_r.
  - rewrite segments_cons. cbn [parse_lines].
    unfold is_heading, heading.
    destruct (Re.re_match phase_pattern l) as [m|] eqn:Em; cbn [fst snd map].
    + rewrite IH, (record_of_match _ _ _ Em), app_nil_r.
      rewrite save_phase_record. cbn [app]. now rewrite <- app_assoc.
    + destruct cur as [[n nm]|]; rewrite IH.
      * now rewrite <- app_assoc.
      * reflexivity.
Qed.

Lemma record_of_extracted b : heading (fst b) <> None -> extracted b (record_of b).
Proof.
  intros H. unfold extracted, record_of.
  destruct (heading (fst b)) as [[n nm]|]; [|congruence].
  simpl. auto.
Qed.

Lemma records_extracted blocks :
  Forall well_formed_block blocks -> Forall2 extracted blocks (map record_of blocks).
Proof.
  induction 1 as [|b bs [Hb _] _ IH]; simpl; constructor; auto using record_of_extracted.
Qed.

End Extractor.

Lemma chr_in_notnl a c b : chr_in LF (a ++ String c b) = false -> notnl c = true.
Proof.
  rewrite PyStrFacts.chr_in_app. intros H. apply orb_false_iff in H.
  destruct H as [_ H]. simpl in H. apply orb_false_iff in H.
  destruct H as [H _]. unfold notnl. now rewrite H.
Qed.

Lemma isspace_not c x : isspace x = false -> isspace c = true -> Ascii.eqb c x = false.
Proof.
  intros Hx Hc. destruct (Ascii.eqb_spec c x) as [->|]; [congruence|reflexivity].
Qed.

Lemma accepts_heading line :
  Re.re_match phase_pattern line <> None
  <-> exists d ds w c v t,
      line = "## Phase " ++ String d (ds ++ ":" ++ w ++ String c (v ++ t))
      /\ isdigit d = true /\ all isdigit ds = true /\ all isspace w = true
      /\ notnl c = true /\ all notnl v = true /\ Re.at_end t = true.
Proof.
  rewrite re_match_accepts. unfold phase_pattern.
  cbn [Accepts app Re.lit map list_ascii_of_string].
  split.
  - intros (_ & c1 & t1 & -> & H1 & c2 & t2 & -> & H2 & c3 & t3 & -> & H3
            & c4 & t4 & -> & H4 & c5 & t5 & -> & H5 & c6 & t6 & -> & H6
            & c7 & t7 & -> & H7 & c8 & t8 & -> & H8 & c9 & t9 & -> & H9
            & d & ds & t10 & -> & Hd & Hds & c10 & t11 & -> & H10
            & w & t12 & -> & Hw & c & v & t & -> & Hc & Hv & Ht & _).
    apply Ascii.eqb_eq in H1, H2, H3, H4, H5, H6, H7, H8, H9, H10. subst.
    exists d, ds, w, c, v, t. repeat split; assumption.
  - intros (d & ds & w & c & v & t & -> & Hd & Hds & Hw & Hc & Hv & Ht).
    split; [reflexivity|].
    do 9 (eexists; eexists; split; [reflexivity|]; split; [reflexivity|]).
    exists d, ds. eexists. split; [reflexivity|]. split; [assumption|].
    split; [assumption|].
    eexists; eexists; split; [reflexivity|]; split; [reflexivity|].
    exists w. eexists. split; [reflexivity|]. split; [assumption|].
    exists c, v, t. repeat split; assumption.
Qed.

Lemma lstrip_split s :
  exists w, s = w ++ lstrip s /\ all isspace w = true.
Proof.
  induction s as [|c s (w & E & Hw)]; simpl.
  - exists EmptyString. auto.
  - destruct (isspace c) eqn:Ec.
    + exists (String c w). simpl. rewrite Ec, Hw. now rewrite <- E.
    + exists EmptyString. auto.
Qed.

Lemma lstrip_starts s : ReSpec.starts_not isspace (lstrip s).
Proof.
  induction s as [|c s IH]; simpl; [trivial|].
  destruct (isspace c) eqn:Ec; [assumption|]. simpl. assumption.
Qed.

Lemma lstrip_ws w s : all isspace w = true -> lstrip (w ++ s) = lstrip s.
Proof.
  induction w as [|x w IH]; simpl; [reflexivity|].
  intros H. apply andb_true_iff in H. destruct H as [-> Hw]. now apply IH.
Qed.

Lemma last_char s :
  s <> EmptyString -> exists s' c, s = s' ++ String c EmptyString.
Proof.
  induction s as [|x s IH]; intros H; [congruence|].
  destruct s as [|y s].
  - exists EmptyString, x. reflexivity.
  - destruct IH as (s' & c & E); [discriminate|].
    exists (String x s'), c. simpl. now rewrite <- E.
Qed.

Lemma all_app cls a b : all cls (a ++ b) = all cls a && all cls b.
Proof.
  induction a as [|x a IH]; simpl; [reflexivity|]. now rewrite IH, andb_assoc.
Qed.

Lemma no_newline_all s : chr_in LF s = false -> all notnl s = true.
Proof.
  induction s as [|x s IH]; simpl; [reflexivity|].
  intros H. apply orb_false_iff in H. destruct H as [Hx Hs].
  unfold notnl at 1. now rewrite Hx, IH.
Qed.

Lemma at_end_notnl c t : notnl c = true -> Re.at_end (String c t) = false.
Proof.
  unfold notnl. intros H. apply negb_true_iff in H.
  simpl. destruct t; [assumption|reflexivity].
Qed.

Lemma digit_not_colon c : isdigit c = true -> Ascii.eqb ":" c = false.
Proof.
  intros H. destruct (Ascii.eqb_spec ":" c) as [<-|]; [discriminate|reflexivity].
Qed.

(** What [re.match] returns on a heading line: the digits, and a second
    group that strips to the stripped label. *)
Lemma heading_groups d ds rest :
  isdigit d = true -> all isdigit ds = true ->
  rest <> EmptyString -> chr_in LF rest = false ->
  exists g2,
    Re.re_match phase_pattern ("## Phase " ++ String d (ds ++ ":" ++ rest))
    = Some [String d ds; g2]
    /\ strip g2 = strip rest.
Proof.
  intros Hd Hds Hne Hnl.
  unfold Re.re_match, phase_pattern.
  cbn [Re.matcher app Re.lit map list_ascii_of_string].
  cbn [append Re.single Re.init Re.consumed Nat.eqb].
  rewrite !Ascii.eqb_refl. change (Re.digit d) with (isdigit d). rewrite Hd.
  match goal with
  | |- context [Re.greedy Re.digit ?k _ ?st] => set (K1 := k); set (st1 := st)
  end.
  rewrite (ReRuns.greedy_run Re.digit K1 ds (String ":" rest) st1 Hds).
  2: { reflexivity. }
  2: { intros c s st' Hc. unfold K1, Re.single.
       now rewrite (digit_not_colon c Hc). }
  unfold K1 at 1. cbn [Re.single]. rewrite Ascii.eqb_refl.
  match goal with
  | |- context [Re.greedy Re.ws ?k _ ?st] => set (K2 := k); set (st2 := st)
  end.
  assert (G1 : Re.groups st2 = [String d ds]).
  { unfold st2, st1. cbn [Re.eat Re.close_group Re.groups Re.opened Re.open_group].
    rewrite ReRuns.groups_eat_all, ReRuns.opened_eat_all.
    reflexivity. }
  assert (K2end : forall st', K2 EmptyString st' = None) by reflexivity.
  assert (K2run : forall c v st',
            notnl c = true -> all notnl v = true ->
            K2 (String c v) st' = Some (Re.groups st' ++ [String c v])%list).
  { intros c v st' Hc Hv. unfold K2, Re.single. change (Re.dot c) with (notnl c).
    rewrite Hc, ReRuns.lazy_run.
    - cbn [Re.at_end]. unfold Re.close_group. cbn [Re.groups].
      rewrite ReRuns.groups_eat_all, ReRuns.opened_eat_all. reflexivity.
    - exact Hv.
    - intros c' t' st'' Hc'. now rewrite at_end_notnl. }
  destruct (lstrip_split rest) as (w & Ew & Hw).
  pose proof (lstrip_starts rest) as Hstart.
  destruct (lstrip rest) as [|c v] eqn:El.
  - (* the label is all whitespace *)
    rewrite app_nil_r_string in Ew. subst w.
    destruct (last_char rest Hne) as (w' & c & Erest).
    exists (String c EmptyString).
    assert (Hall : all isspace w' = true /\ isspace c = true).
    { rewrite Erest, all_app in Hw. apply andb_true_iff in Hw.
      destruct Hw as [H1 H2]. simpl in H2. rewrite andb_true_r in H2. auto. }
    destruct Hall as [Hw' Hc]. split.
    + rewrite Erest.
      rewrite (ReRuns.greedy_back_one Re.ws K2 w' c st2
                 (Re.groups st2 ++ [String c EmptyString])%list Hw' Hc K2end).
      * now rewrite G1.
      * rewrite K2run, ReRuns.groups_eat_all; [reflexivity| |reflexivity].
        rewrite Erest in Hnl. now apply chr_in_notnl in Hnl.
    + unfold strip. rewrite El. simpl. now rewrite Hc.
  - (* the label has a first character that is no whitespace *)
    exists (String c v).
    assert (Hcv : all notnl (String c v) = true).
    { apply no_newline_all. rewrite Ew, PyStrFacts.chr_in_app in Hnl.
      apply orb_false_iff in Hnl. tauto. }
    simpl in Hcv. apply andb_true_iff in Hcv. destruct Hcv as [Hc Hv].
    split.
    + rewrite Ew at 1.
      rewrite (ReRuns.greedy_all_then Re.ws K2 w (String c v) st2
                 (Re.groups st2 ++ [String c v])%list Hw Hstart).
      * now rewrite G1.
      * now rewrite K2run, ReRuns.groups_eat_all.
    + unfold strip. rewrite El. f_equal. simpl in Hstart.
      cbn [lstrip]. now rewrite Hstart.
Qed.

Lemma heading_of_shape line n nm :
  chr_in LF line = false -> heading_shape line n nm -> heading line = Some (n, nm).
Proof.
  intros Hnl (digits & label & -> & Hne & Hd & Hl & -> & ->).
  destruct digits as [|d ds]; [congruence|].
  simpl in Hd. apply andb_true_iff in Hd. destruct Hd as [Hd Hds].
  destruct (heading_groups d ds label Hd Hds Hl) as (g2 & E & Es).
  { change ("## Phase " ++ String d ds ++ ":" ++ label)
      with (("## Phase " ++ String d ds) ++ String ":" label) in Hnl.
    rewrite PyStrFacts.chr_in_app in Hnl. apply orb_false_iff in Hnl.
    destruct Hnl as [_ Hnl].
    change (String ":" label) with (":" ++ label) in Hnl.
    rewrite PyStrFacts.chr_in_app in Hnl. apply orb_false_iff in Hnl. tauto. }
  unfold heading.
  change ("## Phase " ++ String d ds ++ ":" ++ label)
    with ("## Phase " ++ String d (ds ++ ":" ++ label)).
  rewrite E. cbn [Re.group Nat.sub nth]. now rewrite Es.
Qed.

Lemma heading_shape_iff line n nm :
  chr_in LF line = false ->
  (heading line = Some (n, nm) <-> heading_shape line n nm).
Proof.
  intros Hnl. split; [|now apply heading_of_shape].
  intros H.
  assert (Hm : Re.re_match phase_pattern line <> None).
  { unfold heading in H. destruct (Re.re_match phase_pattern line); congruence. }
  apply accepts_heading in Hm.
  destruct Hm as (d & ds & w & c & v & t & E & Hd & Hds & Hw & Hc & Hv & Ht).
  assert (S : heading_shape line (int (String d ds)) (strip (w ++ String c (v ++ t)))).
  { exists (String d ds), (w ++ String c (v ++ t)).
    repeat split; try assumption; try discriminate.
    - simpl. now rewrite Hd, Hds.
    - destruct w; discriminate. }
  pose proof (heading_of_shape line _ _ Hnl S) as H'.
  rewrite H in H'. injection H' as -> ->. exact S.
Qed.

Lemma segments_plain_prefix pre : forall rest,
  plain pre ->
  segments (pre ++ rest) = ((pre ++ fst (segments rest))%list, snd (segments rest)).
Proof.
  induction pre as [|x pre IH]; intros rest H.
  - cbn [app]. now destruct (segments rest).
  - inversion H as [|? ? Hx Hp]; subst.
    cbn [app]. rewrite segments_cons, IH by assumption.
    unfold is_heading. rewrite Hx. reflexivity.
Qed.

(** The preamble and the blocks of a list of lines are determined. *)
Lemma segments_unique blocks : forall pre,
  plain pre -> Forall well_formed_block blocks ->
  segments (pre ++ flat_map block_lines blocks) = (pre, blocks).
Proof.
  induction blocks as [|b blocks IH]; intros pre Hp Hb.
  - cbn [flat_map]. rewrite segments_plain_prefix by assumption.
    cbn. now rewrite app_nil_r.
  - inversion Hb as [|? ? [Hh Hbody] Hrest]; subst.
    rewrite segments_plain_prefix by assumption.
    cbn [flat_map block_lines app]. rewrite segments_cons.
    unfold is_heading. destruct (heading (fst b)) eqn:E; [|congruence].
    rewrite (IH (snd b) Hbody Hrest). cbn [fst snd].
    rewrite app_nil_r. now destruct b.
Qed.

(** C1.  A line of a document is a heading exactly when it is
    "## Phase ", digits, ':' and a label of at least one character, and then
    it yields the value of the digits and the stripped label.  Every
    document splits, in one way only, into a preamble without heading
    lines followed by blocks, each a heading line with the non-heading
    lines up to the next heading line or the end of the document.
    [parse_plan] returns one record per block, in the order of the blocks:
    the record has the number and name of the block's heading line and, as
    content, exactly the block's body lines joined by newlines.  So there
    are as many records as heading lines, no line belongs to two
    contents, and the preamble reaches no record. *)
Theorem parse_plan_partitions_document (doc : string) :
  (forall line n nm,
     In line (split_chr LF doc) ->
     (heading line = Some (n, nm) <-> heading_shape line n nm))
  /\ exists (pre : list string) (blocks : list block),
       split_chr LF doc = (pre ++ flat_map block_lines blocks)%list
       /\ plain pre
       /\ Forall well_formed_block blocks
       /\ Forall2 extracted blocks (parse_plan_text doc)
       /\ List.length (parse_plan_text doc)
          = List.length (filter is_heading (split_chr LF doc))
       /\ (forall pre' blocks',
             split_chr LF doc = (pre' ++ flat_map block_lines blocks')%list ->
             plain pre' -> Forall well_formed_block blocks' ->
             pre' = pre /\ blocks' = blocks).
Proof.
  split.
  { intros line n nm Hin. apply heading_shape_iff.
    pose proof (split_chr_no_sep LF doc) as Hn.
    rewrite Forall_forall in Hn. now apply Hn. }
  exists (fst (segments (split_chr LF doc))), (snd (segments (split_chr LF doc))).
  assert (E : parse_plan_text doc = map record_of (snd (segments (split_chr LF doc)))).
  { unfold parse_plan_text. now rewrite parse_lines_segments. }
  repeat split.
  - apply segments_partition.
  - apply segments_plain.
  - apply segments_blocks.
  - rewrite E. apply records_extracted, segments_blocks.
  - rewrite E, length_map. apply segments_count.
  - rewrite H, segments_unique by assumption. reflexivity.
  - rewrite H, segments_unique by assumption. reflexivity.
Qed.

Lemma parse_plan_partitions_document_witness :
  heading "## Phase 2:   Build  " = Some (2, "Build")
  /\ parse_plan_text two_phase_doc
     = [mkPhase 1 "Setup" "install" true;
        mkPhase 2 "Build" (AUTOMATED ++ NL ++ "- [ ] tests pass") false].
Proof.
  destruct (parse_plan_partitions_document two_phase_doc) as (Hshape & _).
  split; [|vm_compute; reflexivity].
  apply (Hshape "## Phase 2:   Build  " 2 "Build").
  - vm_compute. do 3 right. left. reflexivity.
  - exists "2", "   Build  ". repeat split; try discriminate; reflexivity.
Defined.

(* ================================================================== *)
(** ** Completion Classifier *)

Lemma unchecked_shape line :
  matches_unchecked line = true
  <-> exists w1 w2 w3 w4 c rest,
      line = w1 ++ "-" ++ w2 ++ "[" ++ w3 ++ "]" ++ w4 ++ String c rest
      /\ all isspace w1 = true /\ all isspace w2 = true
      /\ all isspace w3 = true /\ all isspace w4 = true
      /\ notnl c = true.
Proof.
  unfold matches_unchecked.
  assert (E : Re.re_match unchecked_pattern line <> None
              <-> Accepts unchecked_pattern 0 line) by apply re_match_accepts.
  remember (Re.re_match unchecked_pattern line) as r eqn:Er. clear Er.
  unfold unchecked_pattern in E.
  cbn [Accepts app Re.lit map list_ascii_of_string] in E.
  split.
  - intros H. assert (Hr : r <> None) by (destruct r; congruence).
    apply E in Hr.
    destruct Hr as (_ & w1 & t1 & -> & Hw1 & c1 & t2 & -> & Hc1
                    & w2 & t3 & -> & Hw2 & c2 & t4 & -> & Hc2
                    & w3 & t5 & -> & Hw3 & c3 & t6 & -> & Hc3
                    & w4 & t7 & -> & Hw4 & c & v & t8 & -> & Hc & _).
    apply Ascii.eqb_eq in Hc1, Hc2, Hc3. subst c1 c2 c3.
    exists w1, w2, w3, w4, c, (v ++ t8). repeat split; assumption.
  - intros (w1 & w2 & w3 & w4 & c & rest & -> & Hw1 & Hw2 & Hw3 & Hw4 & Hc).
    assert (Hr : r <> None); [|destruct r; congruence].
    apply E. split; [reflexivity|].
    exists w1. eexists. split; [reflexivity|]. split; [assumption|].
    exists "-"%char. eexists. split; [reflexivity|]. split; [reflexivity|].
    exists w2. eexists. split; [reflexivity|]. split; [assumption|].
    exists "["%char. eexists. split; [reflexivity|]. split; [reflexivity|].
    exists w3. eexists. split; [reflexivity|]. split; [assumption|].
    exists "]"%char. eexists. split; [reflexivity|]. split; [reflexivity|].
    exists w4. eexists. split; [reflexivity|]. split; [assumption|].
    exists c, EmptyString, rest. repeat split; assumption.
Qed.

(** The whitespace run before a non-space character is determined. *)
Lemma ws_span_unique w : forall w' c c' t t',
  all isspace w = true -> all isspace w' = true ->
  isspace c = false -> isspace c' = false ->
  w ++ String c t = w' ++ String c' t' ->
  w = w' /\ c = c' /\ t = t'.
Proof.
  induction w as [|x w IH]; intros w' c c' t t' Hw Hw' Hc Hc' E.
  - destruct w' as [|y w']; simpl in *.
    + injection E as -> ->. auto.
    + injection E as -> _. apply andb_true_iff in Hw'. destruct Hw'. congruence.
  - destruct w' as [|y w']; simpl in *.
    + injection E as -> _. apply andb_true_iff in Hw. destruct Hw. congruence.
    + injection E as -> E.
      apply andb_true_iff in Hw, Hw'. destruct Hw as [_ Hw], Hw' as [_ Hw'].
      destruct (IH w' c c' t t' Hw Hw' Hc Hc' E) as (-> & -> & ->). auto.
Qed.

Lemma tick_ws w : forall s, all isspace w = true -> tick (w ++ s) = w ++ tick s.
Proof.
  induction w as [|x w IH]; intros s H; simpl; [reflexivity|].
  simpl in H. apply andb_true_iff in H. destruct H as [Hx Hw].
  rewrite (isspace_not x LBRACKET) by (reflexivity || assumption).
  now rewrite IH.
Qed.

Lemma from_close_ws w : forall s,
  all isspace w = true -> from_close (w ++ String RBRACKET s) = String RBRACKET s.
Proof.
  induction w as [|x w IH]; intros s H; simpl.
  - reflexivity.
  - simpl in H. apply andb_true_iff in H. destruct H as [Hx Hw].
    rewrite (isspace_not x RBRACKET) by (reflexivity || assumption).
    now apply IH.
Qed.

(** Ticking the box of an item line. *)
Lemma tick_item w1 w2 w3 r :
  all isspace w1 = true -> all isspace w2 = true -> all isspace w3 = true ->
  tick (w1 ++ "-" ++ w2 ++ "[" ++ w3 ++ "]" ++ r) = w1 ++ "-" ++ w2 ++ "[x]" ++ r.
Proof.
  intros H1 H2 H3. rewrite tick_ws by assumption.
  change ("-" ++ w2 ++ "[" ++ w3 ++ "]" ++ r)
    with (String "-" (w2 ++ "[" ++ w3 ++ "]" ++ r)).
  cbn [tick]. change (Ascii.eqb "-" LBRACKET) with false. cbv iota.
  rewrite tick_ws by assumption.
  change ("[" ++ w3 ++ "]" ++ r) with (String LBRACKET (w3 ++ String RBRACKET r)).
  cbn [tick]. rewrite Ascii.eqb_refl, from_close_ws by assumption.
  reflexivity.
Qed.

(** A ticked box is no unchecked box. *)
Lemma ticked_not_unchecked w1 w2 r :
  all isspace w1 = true -> all isspace w2 = true ->
  matches_unchecked (w1 ++ "-" ++ w2 ++ "[x]" ++ r) = false.
Proof.
  intros H1 H2. destruct (matches_unchecked _) eqn:E; [|reflexivity].
  apply unchecked_shape in E.
  destruct E as (v1 & v2 & v3 & v4 & c & rest & E & Hv1 & Hv2 & Hv3 & Hv4 & Hc).
  apply ws_span_unique in E; try assumption; try reflexivity.
  destruct E as (_ & _ & E).
  apply ws_span_unique in E; try assumption; try reflexivity.
  destruct E as (_ & _ & E).
  destruct v3 as [|y v3]; simpl in E; [discriminate|].
  injection E as <- _. simpl in Hv3. discriminate.
Qed.

Lemma chr_in_from_close c s : chr_in c (from_close s) = true -> chr_in c s = true.
Proof.
  induction s as [|x s IH]; simpl; [trivial|].
  destruct (Ascii.eqb x RBRACKET); simpl; [trivial|].
  intros H. rewrite IH by assumption. apply orb_true_r.
Qed.

Lemma tick_no_newline s : chr_in LF s = false -> chr_in LF (tick s) = false.
Proof.
  induction s as [|x s IH]; simpl; [trivial|].
  intros H. apply orb_false_iff in H. destruct H as [Hx Hs].
  destruct (Ascii.eqb x LBRACKET); simpl; rewrite Hx; simpl.
  - destruct (chr_in LF (from_close s)) eqn:E; [|reflexivity].
    apply chr_in_from_close in E. congruence.
  - now apply IH.
Qed.

(** Ticking the box neither makes nor removes a section header. *)
Lemma marker_after_tick marker p w3 r :
  chr_in LBRACKET marker = false -> chr_in RBRACKET marker = false ->
  str_in marker "x" = false ->
  str_in marker (p ++ "[" ++ w3 ++ "]" ++ r) = false ->
  str_in marker (p ++ "[x]" ++ r) = false.
Proof.
  intros Hl Hr Hx H.
  change (p ++ "[" ++ w3 ++ "]" ++ r)
    with (p ++ String LBRACKET (w3 ++ String RBRACKET r)) in H.
  change (p ++ "[x]" ++ r) with (p ++ String LBRACKET ("x" ++ String RBRACKET r)).
  rewrite !PyStrFacts.str_in_app_chr in * by assumption.
  apply orb_false_iff in H. destruct H as [Hp H].
  apply orb_false_iff in H. destruct H as [_ Hr'].
  now rewrite Hp, Hx, Hr'.
Qed.

Lemma tick_unchecked_item line :
  unchecked_item line = true ->
  is_header (tick line) = false /\ matches_unchecked (tick line) = false.
Proof.
  unfold unchecked_item, is_header. intros H.
  apply andb_true_iff in H. destruct H as [Hh Hm].
  apply negb_true_iff, orb_false_iff in Hh. destruct Hh as [Ha Hmn].
  apply unchecked_shape in Hm.
  destruct Hm as (w1 & w2 & w3 & w4 & c & rest & -> & H1 & H2 & H3 & H4 & Hc).
  rewrite tick_item by assumption. split.
  - rewrite <- (append_assoc w1 "-"), <- (append_assoc _ w2) in *.
    rewrite (marker_after_tick AUTOMATED _ w3 _) by (reflexivity || assumption).
    rewrite (marker_after_tick MANUAL _ w3 _) by (reflexivity || assumption).
    reflexivity.
  - now apply ticked_not_unchecked.
Qed.

Lemma scan_cons l rest b :
  scan_lines (l :: rest) b = (b && unchecked_item l) || scan_lines rest (toggle b l).
Proof.
  unfold unchecked_item, is_header, matches_unchecked, toggle. cbn [scan_lines].
  destruct (str_in AUTOMATED l); cbn [orb negb andb].
  - now rewrite andb_false_r.
  - destruct (str_in MANUAL l); cbn [orb negb andb].
    + now rewrite andb_false_r.
    + destruct b; cbn [andb orb]; [|reflexivity].
      destruct (Re.re_match unchecked_pattern l); reflexivity.
Qed.

Lemma scan_app l1 : forall l2 b,
  scan_lines (l1 ++ l2) b = scan_lines l1 b || scan_lines l2 (fold_left toggle l1 b).
Proof.
  induction l1 as [|x l1 IH]; intros l2 b.
  - reflexivity.
  - change ((x :: l1) ++ l2)%list with (x :: (l1 ++ l2))%list.
    rewrite !scan_cons, IH. cbn [fold_left]. now rewrite orb_assoc.
Qed.

Lemma toggle_plain b l : is_header l = false -> toggle b l = b.
Proof.
  unfold is_header, toggle. intros H. apply orb_false_iff in H.
  destruct H as [-> ->]. reflexivity.
Qed.

Lemma unchecked_item_plain l : unchecked_item l = true -> is_header l = false.
Proof.
  unfold unchecked_item. intros H. apply andb_true_iff in H.
  destruct H as [H _]. now apply negb_true_iff.
Qed.

(** The loop breaks exactly when some line is an unchecked item reached
    with the section flag set. *)
Lemma scan_found lines : forall b,
  scan_lines lines b = true
  <-> exists before line after,
      lines = (before ++ line :: after)%list
      /\ fold_left toggle before b = true
      /\ unchecked_item line = true.
Proof.
  induction lines as [|l rest IH]; intros b.
  - split; [discriminate|].
    intros (before & line & after & E & _). destruct before; discriminate.
  - rewrite scan_cons. split.
    + intros H. apply orb_true_iff in H. destruct H as [H|H].
      * apply andb_true_iff in H. destruct H as [-> Hl].
        exists [], l, rest. auto.
      * apply IH in H. destruct H as (before & line & after & -> & Hs & Hl).
        exists (l :: before), line, after. auto.
    + intros (before & line & after & E & Hs & Hl).
      destruct before as [|x before]; cbn [app fold_left] in E, Hs.
      * injection E as -> ->. subst b. now rewrite Hl.
      * injection E as -> ->. apply orb_true_iff. right.
        apply IH. exists before, line, after. auto.
Qed.

Lemma completed_scan doc :
  _is_phase_completed doc = negb (scan_lines (split_chr LF doc) false).
Proof. reflexivity. Qed.

Lemma completed_join lines :
  lines <> [] ->
  Forall (fun l => chr_in LF l = false) lines ->
  _is_phase_completed (join NL lines) = negb (scan_lines lines false).
Proof.
  intros Hne H. now rewrite completed_scan, PyStrFacts.split_join.
Qed.

Lemma Forall_middle {A} (P : A -> Prop) l1 x y l2 :
  Forall P (l1 ++ x :: l2) -> P y -> Forall P (l1 ++ y :: l2).
Proof.
  intros H Hy. apply Forall_app in H. destruct H as [H1 H2].
  inversion H2; subst. apply Forall_app. split; [assumption|].
  constructor; assumption.
Qed.

(** The scan of a document whose unchecked item [line] has been ticked. *)
Lemma scan_ticked before line after :
  section_active before = true -> unchecked_item line = true ->
  scan_lines (before ++ tick line :: after) false
  = scan_lines before false || scan_lines after true.
Proof.
  intros Hs Hl. rewrite scan_app, scan_cons.
  destruct (tick_unchecked_item line Hl) as [Hh Hm].
  unfold section_active in Hs. rewrite Hs, toggle_plain by assumption.
  unfold unchecked_item. rewrite Hh, Hm. reflexivity.
Qed.

Lemma only_item_iff before line after :
  section_active before = true -> unchecked_item line = true ->
  (scan_lines before false || scan_lines after true = false
   <-> forall b2 l2 a2,
       (before ++ line :: after = b2 ++ l2 :: a2)%list ->
       section_active b2 = true -> unchecked_item l2 = true ->
       List.length b2 = List.length before).
Proof.
  intros Hs Hl. pose proof (unchecked_item_plain line Hl) as Hp. split.
  - intros H b2 l2 a2 E Hs2 Hl2.
    apply orb_false_iff in H. destruct H as [Hb Ha].
    apply app_eq_app in E. destruct E as (l & [[E1 E2]|[E1 E2]]).
    + destruct l as [|x l]; [now rewrite E1, app_nil_r|].
      injection E2 as <- ->. exfalso.
      assert (scan_lines before false = true); [|congruence].
      apply scan_found. exists b2, l2, l. auto.
    + destruct l as [|x l]; [now rewrite E1, app_nil_r|].
      injection E2 as <- ->. exfalso.
      assert (scan_lines (l ++ l2 :: a2) true = true); [|congruence].
      apply scan_found. exists l, l2, a2. repeat split; [|assumption].
      unfold section_active in Hs, Hs2. subst b2.
      rewrite fold_left_app in Hs2. cbn [fold_left] in Hs2.
      now rewrite Hs, toggle_plain in Hs2.
  - intros H. apply orb_false_iff. split.
    + destruct (scan_lines before false) eqn:E; [|reflexivity].
      apply scan_found in E. destruct E as (b & l & a & -> & Hb & Hi).
      specialize (H b l (a ++ line :: after)%list).
      rewrite <- app_assoc in H. specialize (H eq_refl Hb Hi).
      rewrite length_app in H. simpl in H. lia.
    + destruct (scan_lines after true) eqn:E; [|reflexivity].
      apply scan_found in E. destruct E as (b & l & a & -> & Hb & Hi).
      specialize (H (before ++ line :: b)%list l a).
      rewrite <- app_assoc in H. specialize (H eq_refl).
      unfold section_active in H, Hs.
      rewrite fold_left_app in H. cbn [fold_left] in H.
      rewrite Hs, toggle_plain in H by assumption.
      specialize (H Hb Hi). rewrite length_app in H. simpl in H. lia.
Qed.

Lemma no_automated_inactive lines :
  Forall (fun l => str_in AUTOMATED l = false) lines ->
  scan_lines lines false = false.
Proof.
  intros H. induction H as [|l rest Hl _ IH]; [reflexivity|].
  rewrite scan_cons. cbn [andb orb]. unfold toggle. rewrite Hl.
  now destruct (str_in MANUAL l).
Qed.

(** C2, counterexample.  A phase with two unchecked items in its automated
    section: ticking the first one leaves the phase incomplete. *)
Lemma replacement_as_stated_fails :
  split_chr LF two_items = ([AUTOMATED] ++ "- [ ] lint" :: ["- [ ] tests pass"])%list
  /\ section_active [AUTOMATED] = true
  /\ unchecked_item "- [ ] lint" = true
  /\ tick "- [ ] lint" = "- [x] lint"
  /\ _is_phase_completed
       (join NL ([AUTOMATED] ++ tick "- [ ] lint" :: ["- [ ] tests pass"])) = false
  /\ ~ replacement_as_stated.
Proof.
  assert (H : _is_phase_completed
       (join NL ([AUTOMATED] ++ tick "- [ ] lint" :: ["- [ ] tests pass"])) = false)
    by (vm_compute; reflexivity).
  repeat split; try (vm_compute; reflexivity).
  intros C.
  rewrite (C two_items [AUTOMATED] "- [ ] lint" ["- [ ] tests pass"]) in H;
    [discriminate| vm_compute; reflexivity ..].
Qed.

(** C2 (amended).  A line is an unchecked item when it holds neither
    section marker and matches the unchecked pattern; the section is
    active after the lines [before] when the last marker line among them
    holds the automated marker.
    - [_is_phase_completed] returns false exactly when some line of the
      content is an unchecked item with the section active before it.
    - A content with such an item is incomplete, and ticking that item's
      box, all else equal, makes it complete exactly when no other line is
      an unchecked item with the section active before it.
    - A content none of whose lines holds the automated marker is
      complete. *)
Theorem completion_classifier_policy :
  (forall doc,
     _is_phase_completed doc = false <-> found_unchecked (split_chr LF doc))
  /\ (forall doc before line after,
        split_chr LF doc = (before ++ line :: after)%list ->
        section_active before = true ->
        unchecked_item line = true ->
        _is_phase_completed doc = false
        /\ (_is_phase_completed (join NL (before ++ tick line :: after)) = true
            <-> forall b2 l2 a2,
                (before ++ line :: after = b2 ++ l2 :: a2)%list ->
                section_active b2 = true -> unchecked_item l2 = true ->
                List.length b2 = List.length before))
  /\ (forall doc,
        Forall (fun l => str_in AUTOMATED l = false) (split_chr LF doc) ->
        _is_phase_completed doc = true).
Proof.
  split; [|split].
  - intros doc. rewrite completed_scan, negb_false_iff. apply scan_found.
  - intros doc before line after E Hs Hl. split.
    + rewrite completed_scan, negb_false_iff, E. apply scan_found.
      exists before, line, after. auto.
    + rewrite completed_join.
      * rewrite negb_true_iff, scan_ticked by assumption.
        now apply only_item_iff.
      * destruct before; discriminate.
      * pose proof (PyStrFacts.split_chr_no_sep LF doc) as Hn. rewrite E in Hn.
        apply (Forall_middle _ _ line); [assumption|].
        apply tick_no_newline.
        apply Forall_app in Hn. destruct Hn as [_ Hn]. now inversion Hn.
  - intros doc H. rewrite completed_scan, negb_true_iff.
    now apply no_automated_inactive.
Qed.

Lemma completion_classifier_policy_witness :
  _is_phase_completed one_item = false
  /\ _is_phase_completed (join NL ([AUTOMATED] ++ tick "- [ ] tests pass" :: [])) = true
  /\ _is_phase_completed "no verification section" = true.
Proof.
  destruct completion_classifier_policy as (_ & Hitem & Hnone).
  destruct (Hitem one_item [AUTOMATED] "- [ ] tests pass" [])
    as [Hinc Hrep]; [vm_compute; reflexivity ..|].
  split; [exact Hinc|]. split.
  - apply Hrep. intros b2 l2 a2 E _ Hl.
    destruct b2 as [|x [|y b2]].
    + injection E as <- _. vm_compute in Hl. discriminate.
    + reflexivity.
    + injection E as _ E. destruct b2; discriminate.
  - apply Hnone. vm_compute. repeat constructor.
Defined.











(* ================================================================== *)
(** ** Phase Driver *)

(** C5.  For a phase whose [is_completed] flag is true, [implement_phase]
    returns True after two log records and nothing else: it makes no call
    to the agent collaborator and does not look for or read the prompt
    template, whatever the mode and the outside world. *)
Theorem completed_phase_is_skipped
    (self : PlanAutomator) (w : World) (plan_path : string)
    (n : Z) (nm body : string) (tr : Trace) :
  let phase := mkPhase n nm body true in
  let tr' := (tr ++ [EvLog INFO ("Implementing Phase " ++ str n ++ ": " ++ nm);
                     EvLog INFO ("Phase " ++ str n ++ " already completed, skipping...")])%list in
  implement_phase self w plan_path phase tr = (Ok true, tr')
  /\ agent_calls tr' = agent_calls tr
  /\ file_accesses tr' = file_accesses tr.
Proof.
  cbv zeta. split; [|split].
  - unfold implement_phase, bind, log, emit, ret. cbn. now rewrite <- app_assoc.
  - unfold agent_calls. rewrite filter_app. cbn. apply app_nil_r.
  - unfold file_accesses. rewrite filter_app. cbn. apply app_nil_r.
Qed.

(** C8.  In dry-run mode, [implement_phase] on a phase not yet completed
    returns True after the record that reports what would have been done;
    it makes no call to the agent collaborator and does not look for the
    prompt template, so nothing is raised when the template is missing:
    the world [w] is arbitrary. *)
Theorem dry_run_short_circuits
    (w : World) (plan_path : string) (v : bool)
    (n : Z) (nm body : string) (tr : Trace) :
  let self := mkAutomator v true in
  let phase := mkPhase n nm body false in
  let tr' := (tr ++ [EvLog INFO ("Implementing Phase " ++ str n ++ ": " ++ nm);
                     EvLog INFO ("[DRY RUN] Would implement phase " ++ str n)])%list in
  implement_phase self w plan_path phase tr = (Ok true, tr')
  /\ agent_calls tr' = agent_calls tr
  /\ file_accesses tr' = file_accesses tr.
Proof.
  cbv zeta. split; [|split].
  - unfold implement_phase, bind, log, emit, ret. cbn. now rewrite <- app_assoc.
  - unfold agent_calls. rewrite filter_app. cbn. apply app_nil_r.
  - unfold file_accesses. rewrite filter_app. cbn. apply app_nil_r.
Qed.

Lemma log_total self lvl msg tr : exists tr', log self lvl msg tr = (Ok tt, tr').
Proof. unfold log. destruct (enabled self lvl); eexists; reflexivity. Qed.

Lemma handle_text_flag self text success tr :
  exists tr', handle_text self text success tr = (Ok (success || satisfies text), tr').
Proof.
  unfold handle_text, satisfies, yields_success, yields_manual_pending,
    success_indicator, manual_verification_request, bind.
  destruct (log_total self DEBUG ("Text block: " ++ take 100 text ++ "...") tr) as [t1 ->].
  destruct (str_in "Phase" text && str_in "Complete" text) eqn:E1.
  - destruct (log_total self DEBUG "Found success indicator" t1) as [t2 ->].
    unfold ret at 1.
    destruct (str_in "Ready for Manual Verification" text) eqn:E2.
    + unfold log at 1 2. cbn [enabled]. unfold emit, ret.
      destruct (verbose self); unfold print, emit; eexists;
        rewrite orb_true_r; reflexivity.
    + unfold ret at 1. destruct (verbose self); unfold print, emit, ret; eexists;
        rewrite orb_true_r; reflexivity.
  - unfold ret at 1.
    destruct (str_in "Ready for Manual Verification" text) eqn:E2.
    + unfold log at 1 2. cbn [enabled]. unfold emit, ret.
      destruct (verbose self); unfold print, emit; eexists;
        rewrite orb_true_r; reflexivity.
    + unfold ret at 1. destruct (verbose self); unfold print, emit, ret; eexists;
        rewrite orb_false_r; reflexivity.
Qed.

Lemma handle_blocks_flag self blocks : forall success tr,
  exists tr', handle_blocks self blocks success tr
              = (Ok (success || existsb satisfies (block_texts blocks)), tr').
Proof.
  induction blocks as [|b rest IH]; intros success tr.
  - exists tr. cbn. now rewrite orb_false_r.
  - destruct b as [text|]; cbn [handle_blocks block_texts flat_map].
    + unfold bind. destruct (handle_text_flag self text success tr) as [t1 ->].
      destruct (IH (success || satisfies text) t1) as [t2 ->].
      exists t2. cbn [app existsb]. now rewrite orb_assoc.
    + apply IH.
Qed.

Lemma handle_messages_flag self messages : forall success tr,
  exists tr', handle_messages self messages success tr
              = (Ok (success || existsb satisfies (chunks messages)), tr').
Proof.
  induction messages as [|m rest IH]; intros success tr.
  - exists tr. cbn. now rewrite orb_false_r.
  - destruct m as [blocks|ty rp]; cbn [handle_messages chunks flat_map].
    + unfold bind.
      destruct (log_total self DEBUG "Received message type: AssistantMessage" tr) as [t1 ->].
      destruct (handle_blocks_flag self blocks success t1) as [t2 ->].
      destruct (IH (success || existsb satisfies (block_texts blocks)) t2) as [t3 ->].
      exists t3. now rewrite existsb_app, orb_assoc.
    + unfold bind.
      destruct (log_total self DEBUG ("Received message type: " ++ ty) tr) as [t1 ->].
      destruct (log_total self DEBUG ("Non-assistant message: " ++ rp) t1) as [t2 ->].
      apply IH.
Qed.

(** C3.  One text chunk sets the success flag when it holds both "Phase"
    and "Complete" (SUCCESS) or holds "Ready for Manual Verification"
    (MANUAL_VERIFICATION_PENDING), and leaves the flag as it was
    otherwise.  For a phase that is not completed, in live mode and with
    the prompt template found, the verdict of [implement_phase] is True
    exactly when some chunk of the agent's stream yields one of the two
    signals, and False when every chunk yields neither. *)
Theorem verdict_from_stream_signals
    (self : PlanAutomator) (w : World) (plan_path : string) (phase : Phase)
    (tr tr1 : Trace) (command_prompt : string) :
  is_completed phase = false ->
  dry_run self = false ->
  load_slash_command w "implement_plan"
    (tr ++ [EvLog INFO ("Implementing Phase " ++ str (number phase) ++ ": "
                        ++ name phase)])%list
  = (Ok command_prompt, tr1) ->
  let stream := agent w tr1 (phase_prompt command_prompt plan_path phase) in
  (forall text success t,
     fst (handle_text self text success t)
     = Ok (success
           || (str_in "Phase" text && str_in "Complete" text)
           || str_in "Ready for Manual Verification" text))
  /\ fst (implement_phase self w plan_path phase tr)
     = Ok (existsb satisfies (chunks stream))
  /\ ((exists text, In text (chunks stream) /\ satisfies text = true)
      -> fst (implement_phase self w plan_path phase tr) = Ok true)
  /\ ((forall text, In text (chunks stream) ->
         yields_success text = false /\ yields_manual_pending text = false)
      -> fst (implement_phase self w plan_path phase tr) = Ok false).
Proof.
  intros Hc Hd Hl stream.
  assert (V : fst (implement_phase self w plan_path phase tr)
              = Ok (existsb satisfies (chunks stream))).
  { unfold implement_phase. rewrite Hc, Hd.
    unfold bind at 1. unfold log at 1. cbn [enabled]. unfold emit at 1.
    unfold bind at 1. rewrite Hl.
    unfold bind at 1. unfold query at 1.
    fold (phase_prompt command_prompt plan_path phase). fold stream.
    destruct (handle_messages_flag self stream false
                (tr1 ++ [EvQuery (phase_prompt command_prompt plan_path phase)
                           "bypassPermissions"])%list) as [t ->].
    reflexivity. }
  split; [|split; [|split]].
  - intros text success t.
    destruct (handle_text_flag self text success t) as [t' ->].
    unfold satisfies, yields_success, yields_manual_pending.
    now rewrite orb_assoc.
  - exact V.
  - intros (text & Hin & Hs). rewrite V. f_equal.
    apply existsb_exists. eauto.
  - intros H. rewrite V. f_equal.
    destruct (existsb satisfies (chunks stream)) eqn:E; [|reflexivity].
    apply existsb_exists in E. destruct E as (text & Hin & Hs).
    destruct (H text Hin) as [H1 H2]. unfold satisfies in Hs.
    rewrite H1, H2 in Hs. discriminate.
Qed.

Lemma verdict_from_stream_signals_witness :
  fst (implement_phase (mkAutomator false false) live_world "plan.md"
         (mkPhase 2 "Build" "work" false) [])
  = Ok true.
Proof.
  refine (proj1 (proj2 (proj2
    (verdict_from_stream_signals (mkAutomator false false) live_world "plan.md"
       (mkPhase 2 "Build" "work" false) []
       [EvLog INFO "Implementing Phase 2: Build";
        EvExists "/home/dev/.claude/commands/implement_plan.md";
        EvExists ".claude/commands/implement_plan.md";
        EvRead ".claude/commands/implement_plan.md"]
       "Implement the phase." eq_refl eq_refl _))) _).
  - vm_compute. reflexivity.
  - exists "Phase 2 is now Complete". split; [|vm_compute; reflexivity].
    vm_compute. left. reflexivity.
Defined.

(* ================================================================== *)
(** ** Run Controller *)

Section Quiet.

Lemma quiet_ret {A} (a : A) : quiet (ret a).
Proof. intros tr. reflexivity. Qed.

Lemma quiet_raise {A} e : quiet (@raise A e).
Proof. intros tr. reflexivity. Qed.

Lemma quiet_emit e : is_driver_entry e = false -> quiet (emit e).
Proof.
  intros H tr. unfold emit, driver_entries. cbn [snd].
  rewrite filter_app. cbn [filter]. rewrite H. apply app_nil_r.
Qed.

Lemma quiet_bind {A B} (m : M A) (k : A -> M B) :
  quiet m -> (forall a, quiet (k a)) -> quiet (bind m k).
Proof.
  intros Hm Hk tr. unfold bind. specialize (Hm tr).
  destruct (m tr) as [[a|e] t]; cbn [snd] in *.
  - now rewrite Hk.
  - assumption.
Qed.

Lemma quiet_log self lvl msg :
  is_driver_entry (EvLog lvl msg) = false -> quiet (log self lvl msg).
Proof.
  intros H. unfold log. destruct (enabled self lvl).
  - now apply quiet_emit.
  - apply quiet_ret.
Qed.

Lemma quiet_path_exists w path : quiet (path_exists w path).
Proof.
  intros tr. unfold path_exists, driver_entries. cbn [snd].
  rewrite filter_app. apply app_nil_r.
Qed.

Lemma quiet_read_text w path : quiet (read_text w path).
Proof.
  intros tr. unfold read_text, driver_entries.
  destruct (file w tr path); cbn [snd]; rewrite filter_app; apply app_nil_r.
Qed.

Lemma quiet_query w prompt mode : quiet (query w prompt mode).
Proof.
  intros tr. unfold query, driver_entries. cbn [snd].
  rewrite filter_app. apply app_nil_r.
Qed.

Lemma quiet_parse_plan w plan_path : quiet (parse_plan w plan_path).
Proof.
  unfold parse_plan. apply quiet_bind; [apply quiet_path_exists|]. intros found.
  destruct (negb found); [apply quiet_raise|].
  apply quiet_bind; [apply quiet_read_text|]. intros. apply quiet_ret.
Qed.

Lemma quiet_load_slash_command w command_name : quiet (load_slash_command w command_name).
Proof.
  unfold load_slash_command.
  apply quiet_bind; [apply quiet_path_exists|]. intros in_home.
  apply quiet_bind; [apply quiet_path_exists|]. intros found.
  destruct (negb found); [apply quiet_raise|].
  apply quiet_bind; [apply quiet_read_text|]. intros. apply quiet_ret.
Qed.

Lemma quiet_handle_text self text success : quiet (handle_text self text success).
Proof.
  unfold handle_text.
  apply quiet_bind; [now apply quiet_log|]. intros _.
  apply quiet_bind.
  { destruct (success_indicator text); [|apply quiet_ret].
    apply quiet_bind; [now apply quiet_log|]. intros. apply quiet_ret. }
  intros s1. apply quiet_bind.
  { destruct (manual_verification_request text); [|apply quiet_ret].
    apply quiet_bind; [now apply quiet_log|]. intros _.
    apply quiet_bind; [now apply quiet_log|]. intros. apply quiet_ret. }
  intros s2. apply quiet_bind; [|intros; apply quiet_ret].
  destruct (verbose self); [now apply quiet_emit|apply quiet_ret].
Qed.

Lemma quiet_handle_blocks self blocks : forall success,
  quiet (handle_blocks self blocks success).
Proof.
  induction blocks as [|b rest IH]; intros success; cbn [handle_blocks].
  - apply quiet_ret.
  - destruct b; [|apply IH].
    apply quiet_bind; [apply quiet_handle_text|]. intros. apply IH.
Qed.

Lemma quiet_handle_messages self messages : forall success,
  quiet (handle_messages self messages success).
Proof.
  induction messages as [|m rest IH]; intros success; cbn [handle_messages].
  - apply quiet_ret.
  - destruct m.
    + apply quiet_bind; [now apply quiet_log|]. intros _.
      apply quiet_bind; [apply quiet_handle_blocks|]. intros. apply IH.
    + apply quiet_bind; [now apply quiet_log|]. intros _.
      apply quiet_bind; [now apply quiet_log|]. intros. apply IH.
Qed.

End Quiet.

Lemma enters_bind_quiet {A B} e (m : M A) (k : A -> M B) :
  enters e m -> (forall a, quiet (k a)) -> enters e (bind m k).
Proof.
  intros Hm Hk tr. unfold bind. specialize (Hm tr).
  destruct (m tr) as [[a|x] t]; cbn [snd] in *.
  - now rewrite Hk.
  - assumption.
Qed.

Lemma quiet_bind_enters {A B} e (m : M A) (k : A -> M B) :
  quiet m -> (forall a, enters e (k a)) ->
  forall tr, (exists a t, m tr = (Ok a, t)) ->
             driver_entries (snd (bind m k tr)) = (driver_entries tr ++ [e])%list.
Proof.
  intros Hm Hk tr (a & t & E). unfold bind. specialize (Hm tr).
  rewrite E in *. cbn [snd] in Hm. now rewrite Hk, Hm.
Qed.

Lemma prefix_append a b : String.prefix a (a ++ b) = true.
Proof.
  induction a as [|x a IH]; simpl; [now destruct b|].
  destruct (ascii_dec x x); [assumption|congruence].
Qed.

Lemma driver_entry_recognised phase : is_driver_entry (driver_entry phase) = true.
Proof. unfold is_driver_entry, driver_entry. apply prefix_append. Qed.

Lemma implement_phase_enters self w plan_path phase :
  enters (driver_entry phase) (implement_phase self w plan_path phase).
Proof.
  unfold implement_phase. apply enters_bind_quiet.
  - intros tr. unfold log, emit, driver_entries. cbn [enabled snd].
    rewrite filter_app. fold (driver_entry phase). cbn [filter].
    now rewrite driver_entry_recognised.
  - intros _. destruct (is_completed phase).
    + apply quiet_bind; [now apply quiet_log|]. intros. apply quiet_ret.
    + destruct (dry_run self).
      * apply quiet_bind; [now apply quiet_log|]. intros. apply quiet_ret.
      * apply quiet_bind; [apply quiet_load_slash_command|]. intros cp.
        apply quiet_bind; [apply quiet_query|]. intros.
        apply quiet_handle_messages.
Qed.

Lemma log_then_enters {B} self lvl msg e (k : M B) :
  is_driver_entry (EvLog lvl msg) = false ->
  enters e k -> enters e (bind (log self lvl msg) (fun _ => k)).
Proof.
  intros Hq Hk tr.
  apply (quiet_bind_enters e (log self lvl msg) (fun _ => k)).
  - now apply quiet_log.
  - intros _. exact Hk.
  - destruct (log_total self lvl msg tr) as [t E]. eauto.
Qed.

Lemma loop_body_enters self w plan_path phases phase :
  enters (driver_entry phase) (loop_body self w plan_path phases phase).
Proof.
  unfold loop_body.
  apply log_then_enters; [reflexivity|].
  apply log_then_enters; [reflexivity|].
  apply log_then_enters; [reflexivity|].
  apply enters_bind_quiet; [apply implement_phase_enters|].
  intros success. destruct (negb success).
  - apply quiet_bind; [now apply quiet_log|]. intros. apply quiet_ret.
  - apply quiet_bind; [now apply quiet_log|]. intros _.
    apply quiet_bind; [|intros; apply quiet_ret].
    destruct (number phase <? number (last phases phase)); [|apply quiet_ret].
    apply quiet_bind; [now apply quiet_log|]. intros. now apply quiet_emit.
Qed.

(** The loop enters the driver for an initial segment of its list, in
    list order. *)
Lemma for_phases_entries self w plan_path phases todo : forall tr,
  exists k,
    driver_entries (snd (for_phases self w plan_path phases todo tr))
    = (driver_entries tr ++ map driver_entry (firstn k todo))%list.
Proof.
  induction todo as [|phase rest IH]; intros tr.
  - exists 0%nat. cbn. now rewrite app_nil_r.
  - cbn [for_phases]. unfold bind.
    pose proof (loop_body_enters self w plan_path phases phase tr) as He.
    destruct (loop_body self w plan_path phases phase tr) as [[[|]|x] t];
      cbn [snd] in He.
    + destruct (IH t) as [k Hk]. exists (S k).
      rewrite Hk, He. cbn [firstn map]. now rewrite <- app_assoc.
    + exists 1%nat. cbn [ret snd firstn map]. exact He.
    + exists 1%nat. cbn [snd firstn map]. exact He.
Qed.

Lemma run_through_entries self w plan_path phases todo : forall tr tr1,
  run_through self w plan_path phases todo tr = Some tr1 ->
  driver_entries tr1 = (driver_entries tr ++ map driver_entry todo)%list.
Proof.
  induction todo as [|phase rest IH]; intros tr tr1 H; cbn [run_through] in H.
  - injection H as <-. cbn. now rewrite app_nil_r.
  - pose proof (loop_body_enters self w plan_path phases phase tr) as He.
    destruct (loop_body self w plan_path phases phase tr) as [[[|]|x] t];
      try discriminate.
    cbn [snd] in He. rewrite (IH _ _ H), He. cbn [map].
    now rewrite <- app_assoc.
Qed.

Lemma run_through_for self w plan_path phases pre : forall rest tr tr1,
  run_through self w plan_path phases pre tr = Some tr1 ->
  for_phases self w plan_path phases (pre ++ rest) tr
  = for_phases self w plan_path phases rest tr1.
Proof.
  induction pre as [|phase pre IH]; intros rest tr tr1 H; cbn [run_through] in H.
  - now injection H as <-.
  - cbn [app for_phases]. unfold bind at 1.
    destruct (loop_body self w plan_path phases phase tr) as [[[|]|x] t];
      try discriminate.
    now apply IH.
Qed.

Lemma run_through_all self w plan_path phases tr tr1 :
  run_through self w plan_path phases phases tr = Some tr1 ->
  for_phases self w plan_path phases phases tr = (Ok tt, tr1).
Proof.
  intros H. rewrite <- (app_nil_r phases) at 2.
  now rewrite (run_through_for _ _ _ _ _ _ _ _ H).
Qed.

Lemma filter_phases_selected s e phases :
  filter_phases s e phases = filter (selected s e) phases.
Proof.
  unfold filter_phases, selected.
  destruct (truthy s), (truthy e).
  - induction phases as [|p l IH]; [reflexivity|]. cbn [filter].
    destruct (bound_value s <=? number p); cbn [andb filter]; [|assumption].
    destruct (number p <=? bound_value e); now rewrite IH.
  - induction phases as [|p l IH]; [reflexivity|]. cbn [filter].
    rewrite andb_true_r. destruct (bound_value s <=? number p); now rewrite IH.
  - induction phases as [|p l IH]; [reflexivity|]. cbn [filter andb].
    destruct (number p <=? bound_value e); now rewrite IH.
  - induction phases as [|p l IH]; [reflexivity|]. cbn [filter andb].
    f_equal. exact IH.
Qed.

Lemma loop_body_failure self w plan_path phases phase tr tr2 :
  implement_phase self w plan_path phase (tr ++ banner phases phase)%list = (Ok false, tr2) ->
  loop_body self w plan_path phases phase tr = (Ok false, (tr2 ++ [failure_record phase])%list).
Proof.
  intros H. unfold loop_body, bind, log, emit. cbn [enabled].
  unfold banner in H. rewrite <- !app_assoc. cbn [app].
  rewrite H. reflexivity.
Qed.

(** C4.  Let the filtered list be [pre ++ p :: post].  If the loop has
    passed through [pre] with every verdict a success and the Phase Driver
    returns False for [p], the run ends there: its whole trace is the trace
    up to that verdict followed by the failure record and the two closing
    records.  The Phase Driver is entered for the phases of [pre] and for
    [p] and for none of [post], and the agent collaborator is not called
    after the failing verdict. *)
Theorem run_stops_at_first_failure
    (self : PlanAutomator) (w : World) (plan_path : string)
    (start_phase end_phase : option Z)
    (parsed pre post : list Phase) (p : Phase) (tr tr0 tr1 tr2 : Trace) :
  parse_plan w plan_path tr = (Ok parsed, tr0) ->
  filter_phases start_phase end_phase parsed = (pre ++ p :: post)%list ->
  run_through self w plan_path (pre ++ p :: post)%list pre
    (tr0 ++ [found_record parsed])%list
  = Some tr1 ->
  implement_phase self w plan_path p (tr1 ++ banner (pre ++ p :: post) p)%list
  = (Ok false, tr2) ->
  let final := (tr2 ++ failure_record p :: closing)%list in
  run_full_implementation self w plan_path start_phase end_phase tr = (Ok tt, final)
  /\ driver_entries final = (driver_entries tr ++ map driver_entry (pre ++ [p]))%list
  /\ agent_calls final = agent_calls tr2.
Proof.
  intros Hparse Hfilter Hpre Hfail final.
  assert (Hrun : run_full_implementation self w plan_path start_phase end_phase tr
                 = (Ok tt, final)).
  { unfold run_full_implementation. unfold bind at 1. rewrite Hparse.
    destruct parsed as [|p0 parsed'].
    { rewrite filter_phases_selected in Hfilter. destruct pre; discriminate. }
    unfold bind at 1. unfold log at 1. cbn [enabled]. unfold emit at 1.
    fold (found_record (p0 :: parsed')). rewrite Hfilter.
    unfold bind at 1.
    rewrite (run_through_for _ _ _ _ _ _ _ _ Hpre).
    cbn [for_phases]. unfold bind at 1.
    rewrite (loop_body_failure _ _ _ _ _ _ _ Hfail).
    unfold ret at 1, bind, log, emit. cbn [enabled].
    unfold final, closing. rewrite <- !app_assoc. reflexivity. }
  split; [exact Hrun|]. split.
  - pose proof (implement_phase_enters self w plan_path p
                  (tr1 ++ banner (pre ++ p :: post) p)%list) as He.
    rewrite Hfail in He. cbn [snd] in He.
    pose proof (run_through_entries _ _ _ _ _ _ _ Hpre) as Hp.
    pose proof (quiet_parse_plan w plan_path tr) as Hq.
    rewrite Hparse in Hq. cbn [snd] in Hq.
    unfold final, driver_entries in *. rewrite !filter_app in *.
    cbn [filter is_driver_entry String.prefix] in *.
    rewrite !app_nil_r in *. rewrite He, Hp, Hq.
    rewrite map_app. cbn [map]. now rewrite <- !app_assoc.
  - unfold final, agent_calls. rewrite filter_app. cbn. apply app_nil_r.
Qed.

Lemma run_stops_at_first_failure_witness :
  driver_entries (snd (run_full_implementation live world_fail2 "plan.md" None None []))
  = [EvLog INFO "Implementing Phase 1: Setup"; EvLog INFO "Implementing Phase 2: Build"].
Proof.
  pose (three := parse_plan_text plan123).
  edestruct (run_stops_at_first_failure live world_fail2 "plan.md" None None
               three (firstn 1 three) (skipn 2 three)
               (nth 1 three (mkPhase 0 "" "" true)) [])
    as (Hrun & Hent & _).
  - vm_compute. reflexivity.
  - vm_compute. reflexivity.
  - vm_compute. reflexivity.
  - vm_compute. reflexivity.
  - rewrite Hrun. cbn [snd]. rewrite Hent. vm_compute. reflexivity.
Defined.




(** Where both tests agree: a bound that is absent or not 0, on a phase
    whose number is not negative. *)
Lemma selected_in_window s e p :
  e <> Some 0 -> 0 <= number p -> selected s e p = in_window s e p.
Proof.
  intros He Hp. unfold selected, in_window, truthy, bound_value.
  f_equal.
  - destruct s as [a|]; [|reflexivity].
    destruct (Z.eqb_spec a 0) as [->|_]; cbn [negb]; [|reflexivity].
    symmetry. now apply Z.leb_le.
  - destruct e as [b|]; [|reflexivity].
    destruct (Z.eqb_spec b 0) as [->|_]; cbn [negb]; [congruence|reflexivity].
Qed.

(** C6, at the failing input.  On the three-phase plan with
    [--end-phase 0], the window of the claim holds no phase, yet the code
    keeps all three and the run enters the driver for each of them.  With
    [--start-phase 2 --end-phase 2] the code keeps phase 2 alone. *)
Theorem end_phase_zero_keeps_every_phase :
  let parsed := parse_plan_text plan123 in
  map number parsed = [1; 2; 3]
  /\ filter (in_window None (Some 0)) parsed = []
  /\ filter_phases None (Some 0) parsed = parsed
  /\ driver_entries
       (snd (run_full_implementation dry world123 "plan.md" None (Some 0) []))
     = [EvLog INFO "Implementing Phase 1: Setup";
        EvLog INFO "Implementing Phase 2: Build";
        EvLog INFO "Implementing Phase 3: Ship"]
  /\ map number (filter_phases (Some 2) (Some 2) parsed) = [2].
Proof. cbv zeta. repeat split; vm_compute; reflexivity. Qed.

Lemma run_after_parse self w plan_path s e tr parsed tr0 :
  parse_plan w plan_path tr = (Ok parsed, tr0) ->
  parsed <> [] ->
  run_full_implementation self w plan_path s e tr
  = bind (for_phases self w plan_path (filter_phases s e parsed) (filter_phases s e parsed))
      (fun _ => bind (log self INFO (NL ++ rule))
                  (fun _ => log self INFO "Implementation complete!"))
      (tr0 ++ [found_record parsed])%list.
Proof.
  intros Hp Hne. unfold run_full_implementation. unfold bind at 1. rewrite Hp.
  destruct parsed as [|p0 l]; [congruence|].
  unfold bind at 1. unfold log at 1. cbn [enabled]. unfold emit at 1.
  reflexivity.
Qed.

Lemma implement_phase_skipped_value self w plan_path phase tr :
  skipped self phase = true ->
  fst (implement_phase self w plan_path phase tr) = Ok true.
Proof.
  unfold skipped, implement_phase, bind, log, emit, ret. cbn [enabled].
  intros H. destruct (is_completed phase); [reflexivity|].
  cbn [orb] in H. now rewrite H.
Qed.

Lemma loop_body_skipped_value self w plan_path phases phase tr :
  skipped self phase = true ->
  fst (loop_body self w plan_path phases phase tr) = Ok true.
Proof.
  intros H. unfold loop_body, bind at 1 2 3, log at 1 2 3, emit. cbn [enabled].
  unfold bind at 1.
  pose proof (implement_phase_skipped_value self w plan_path phase
                (((tr ++ [EvLog INFO (NL ++ rule)]) ++
                  [EvLog INFO ("Starting Phase " ++ str (number phase) ++ "/"
                               ++ str (Z.of_nat (List.length phases)) ++ ": "
                               ++ name phase)]) ++ [EvLog INFO (rule ++ NL)])%list H) as Hv.
  destruct (implement_phase self w plan_path phase _) as [[success|x] t];
    cbn [fst] in Hv; [|discriminate].
  injection Hv as ->. cbn [negb].
  unfold bind, log, emit, ret, sleep. cbn [enabled].
  now destruct (number phase <? number (last phases phase)).
Qed.

Lemma run_through_skipped self w plan_path phases todo : forall tr,
  Forall (fun p => skipped self p = true) todo ->
  exists tr1, run_through self w plan_path phases todo tr = Some tr1.
Proof.
  induction todo as [|phase rest IH]; intros tr H.
  - exists tr. reflexivity.
  - inversion H as [|? ? Hp Hr]; subst. cbn [run_through].
    pose proof (loop_body_skipped_value self w plan_path phases phase tr Hp) as Hv.
    destruct (loop_body self w plan_path phases phase tr) as [[go|x] t];
      cbn [fst] in Hv; [|discriminate].
    injection Hv as ->. now apply IH.
Qed.

Lemma for_phases_enters_first self w plan_path phases todo tr :
  todo <> [] ->
  exists k, (0 < k)%nat
    /\ driver_entries (snd (for_phases self w plan_path phases todo tr))
       = (driver_entries tr ++ map driver_entry (firstn k todo))%list.
Proof.
  destruct todo as [|phase rest]; [congruence|]. intros _.
  cbn [for_phases]. unfold bind.
  pose proof (loop_body_enters self w plan_path phases phase tr) as He.
  destruct (loop_body self w plan_path phases phase tr) as [[[|]|x] t];
    cbn [snd] in He.
  - destruct (for_phases_entries self w plan_path phases rest t) as [k Hk].
    exists (S k). split; [lia|].
    rewrite Hk, He. cbn [firstn map]. now rewrite <- app_assoc.
  - exists 1%nat. split; [lia|]. cbn [ret snd firstn map]. exact He.
  - exists 1%nat. split; [lia|]. cbn [snd firstn map]. exact He.
Qed.

Lemma filter_phases_zero_or_absent s e phases :
  s = None \/ s = Some 0 -> e = None \/ e = Some 0 ->
  filter_phases s e phases = phases.
Proof. intros [->| ->] [->| ->]; reflexivity. Qed.

Lemma closing_records_quiet self t :
  driver_entries
    (snd (bind (log self INFO (NL ++ rule))
            (fun _ => log self INFO "Implementation complete!") t))
  = driver_entries t.
Proof.
  apply (quiet_bind (log self INFO (NL ++ rule))
           (fun _ => log self INFO "Implementation complete!")).
  - now apply quiet_log.
  - intros _. now apply quiet_log.
Qed.

(** The driver entries of a run whose bounds are each absent or 0: the
    loop goes over every parsed phase. *)
Lemma unbounded_run_entries self w plan_path s e parsed tr tr0 :
  s = None \/ s = Some 0 -> e = None \/ e = Some 0 ->
  parse_plan w plan_path tr = (Ok parsed, tr0) ->
  parsed <> [] ->
  driver_entries (snd (run_full_implementation self w plan_path s e tr))
  = driver_entries
      (snd (for_phases self w plan_path parsed parsed (tr0 ++ [found_record parsed])%list))
  /\ driver_entries (tr0 ++ [found_record parsed])%list = driver_entries tr.
Proof.
  intros Hs He Hparse Hne.
  rewrite (run_after_parse self w plan_path s e tr parsed tr0 Hparse Hne).
  rewrite (filter_phases_zero_or_absent s e parsed Hs He).
  split.
  - unfold bind at 1.
    destruct (for_phases self w plan_path parsed parsed
                (tr0 ++ [found_record parsed])%list) as [[u|x] t]; cbn [snd].
    + apply closing_records_quiet.
    + reflexivity.
  - pose proof (quiet_parse_plan w plan_path tr) as Hq.
    rewrite Hparse in Hq. cbn [snd] in Hq.
    unfold driver_entries in *. rewrite filter_app, Hq. cbn. apply app_nil_r.
Qed.

(** C10.  Presence of a bound is tested by truthiness, so the bound 0 is
    treated as absent: with [end_phase = 0] the end filter is skipped, no
    phase is filtered out by it and the run is the run without an end
    bound, whereas a numeric bound 0 would keep no phase of a plan whose
    numbers are all positive; with [start_phase = 0] the start filter is
    skipped in the same way.  So in a run whose bounds are each 0 or
    absent the loop goes over every parsed phase: the Phase Driver is
    entered for the first parsed phase at least and for the parsed phases
    in order up to the first that fails or raises; it is entered for every
    parsed phase when no verdict is a failure, as is the case when every
    phase is completed or the automator is in dry-run mode. *)
Theorem zero_bound_is_absent :
  (forall s phases, filter_phases s (Some 0) phases = filter_phases s None phases)
  /\ (forall e phases, filter_phases (Some 0) e phases = filter_phases None e phases)
  /\ (forall phases, filter_phases None (Some 0) phases = phases)
  /\ (forall phases,
        Forall (fun p => 0 < number p) phases ->
        filter (in_window None (Some 0)) phases = [])
  /\ (forall self w plan_path s tr,
        run_full_implementation self w plan_path s (Some 0) tr
        = run_full_implementation self w plan_path s None tr)
  /\ (forall self w plan_path e tr,
        run_full_implementation self w plan_path (Some 0) e tr
        = run_full_implementation self w plan_path None e tr)
  /\ (forall self w plan_path s e parsed tr tr0,
        s = None \/ s = Some 0 ->
        e = None \/ e = Some 0 ->
        parse_plan w plan_path tr = (Ok parsed, tr0) ->
        parsed <> [] ->
        let final := snd (run_full_implementation self w plan_path s e tr) in
        (exists k, (0 < k)%nat
           /\ driver_entries final
              = (driver_entries tr ++ map driver_entry (firstn k parsed))%list)
        /\ (forall tr1,
              run_through self w plan_path parsed parsed
                (tr0 ++ [found_record parsed])%list = Some tr1 ->
              driver_entries final
              = (driver_entries tr ++ map driver_entry parsed)%list)
        /\ (Forall (fun p => skipped self p = true) parsed ->
            driver_entries final
            = (driver_entries tr ++ map driver_entry parsed)%list)).
Proof.
  split; [reflexivity|]. split; [reflexivity|]. split; [reflexivity|].
  split; [|split; [reflexivity|split; [reflexivity|]]].
  - intros phases H. induction H as [|p l Hp _ IH]; [reflexivity|].
    cbn [filter]. unfold in_window at 1. cbn [andb].
    destruct (Z.leb_spec (number p) 0); [lia|assumption].
  - intros self w plan_path s e parsed tr tr0 Hs He Hparse Hne. cbv zeta.
    destruct (unbounded_run_entries self w plan_path s e parsed tr tr0
                Hs He Hparse Hne) as [Hrun Hfound].
    rewrite Hrun.
    assert (Hall : forall tr1,
              run_through self w plan_path parsed parsed
                (tr0 ++ [found_record parsed])%list = Some tr1 ->
              driver_entries
                (snd (for_phases self w plan_path parsed parsed
                        (tr0 ++ [found_record parsed])%list))
              = (driver_entries tr ++ map driver_entry parsed)%list).
    { intros tr1 H. rewrite (run_through_all _ _ _ _ _ _ H). cbn [snd].
      now rewrite (run_through_entries _ _ _ _ _ _ _ H), Hfound. }
    split; [|split].
    + destruct (for_phases_enters_first self w plan_path parsed parsed
                  (tr0 ++ [found_record parsed])%list Hne) as (k & Hk & E).
      exists k. split; [assumption|]. now rewrite E, Hfound.
    + exact Hall.
    + intros Hsk.
      destruct (run_through_skipped self w plan_path parsed parsed
                  (tr0 ++ [found_record parsed])%list Hsk) as [tr1 H].
      now apply (Hall tr1).
Qed.

Lemma zero_bound_is_absent_witness :
  filter (in_window None (Some 0)) (parse_plan_text plan123) = []
  /\ filter_phases None (Some 0) (parse_plan_text plan123) = parse_plan_text plan123
  /\ driver_entries
       (snd (run_full_implementation live world_ok123 "plan.md" None (Some 0) []))
     = map driver_entry (parse_plan_text plan123)
  /\ driver_entries
       (snd (run_full_implementation dry world123 "plan.md" (Some 0) (Some 0) []))
     = map driver_entry (parse_plan_text plan123).
Proof.
  destruct zero_bound_is_absent as (_ & _ & Hall & Hnone & _ & _ & Hrun).
  split; [|split; [apply Hall|split]].
  - apply Hnone. vm_compute. repeat constructor.
  - destruct (Hrun live world_ok123 "plan.md" None (Some 0)
                (parse_plan_text plan123) []
                [EvExists "plan.md"; EvRead "plan.md"])
      as (_ & Hok & _);
      [now left | now right | reflexivity | vm_compute; discriminate |].
    eapply Hok. vm_compute. reflexivity.
  - destruct (Hrun dry world123 "plan.md" (Some 0) (Some 0)
                (parse_plan_text plan123) []
                [EvExists "plan.md"; EvRead "plan.md"])
      as (_ & _ & Hdry);
      [now right | now right | reflexivity | vm_compute; discriminate |].
    apply Hdry. vm_compute. repeat constructor.
Defined.

(* ================================================================== *)
(** ** Further properties: silence of computations *)

Section Silent.

Variable kind : Event -> bool.

Lemma silent_ret {A} (a : A) : silent kind (ret a).
Proof. intros tr. reflexivity. Qed.

Lemma silent_raise {A} e : silent kind (@raise A e).
Proof. intros tr. reflexivity. Qed.

Lemma silent_emit e : kind e = false -> silent kind (emit e).
Proof.
  intros H tr. unfold emit. cbn [snd].
  rewrite filter_app. cbn [filter]. rewrite H. apply app_nil_r.
Qed.

Lemma silent_bind {A B} (m : M A) (k : A -> M B) :
  silent kind m -> (forall a, silent kind (k a)) -> silent kind (bind m k).
Proof.
  intros Hm Hk tr. unfold bind. specialize (Hm tr).
  destruct (m tr) as [[a|e] t]; cbn [snd] in *.
  - now rewrite Hk.
  - assumption.
Qed.

Lemma silent_log self lvl msg :
  (enabled self lvl = true -> kind (EvLog lvl msg) = false) ->
  silent kind (log self lvl msg).
Proof.
  intros H. unfold log. destruct (enabled self lvl).
  - apply silent_emit. now apply H.
  - apply silent_ret.
Qed.

Lemma silent_path_exists w path :
  kind (EvExists path) = false -> silent kind (path_exists w path).
Proof.
  intros H tr. unfold path_exists. cbn [snd].
  rewrite filter_app. cbn [filter]. rewrite H. apply app_nil_r.
Qed.

Lemma silent_read_text w path :
  kind (EvRead path) = false -> silent kind (read_text w path).
Proof.
  intros H tr. unfold read_text.
  destruct (file w tr path); cbn [snd]; rewrite filter_app; cbn [filter];
    rewrite H; apply app_nil_r.
Qed.

Lemma silent_query w prompt mode :
  kind (EvQuery prompt mode) = false -> silent kind (query w prompt mode).
Proof.
  intros H tr. unfold query. cbn [snd].
  rewrite filter_app. cbn [filter]. rewrite H. apply app_nil_r.
Qed.

End Silent.

(* ================================================================== *)
(** ** Further properties: [strip], [split] and the front matter *)

Lemma lstrip_fixed s : ReSpec.starts_not isspace s -> lstrip s = s.
Proof.
  destruct s as [|c t]; simpl; [reflexivity|]. now intros ->.
Qed.

Lemma rstrip_starts s : ReSpec.starts_not isspace s -> ReSpec.starts_not isspace (rstrip s).
Proof.
  destruct s as [|c t]; simpl; [trivial|]. intros H.
  destruct (rstrip t); [rewrite H|]; simpl; assumption.
Qed.

Lemma rstrip_cons c t :
  rstrip (String c t)
  = match rstrip t with
    | EmptyString => if isspace c then EmptyString else String c EmptyString
    | r => String c r
    end.
Proof. reflexivity. Qed.

Lemma rstrip_idempotent s : rstrip (rstrip s) = rstrip s.
Proof.
  induction s as [|c t IH]; [reflexivity|].
  rewrite rstrip_cons. destruct (rstrip t) as [|d r] eqn:E.
  - destruct (isspace c) eqn:Ec; [reflexivity|].
    rewrite rstrip_cons. cbn [rstrip]. now rewrite Ec.
  - rewrite rstrip_cons, IH. reflexivity.
Qed.

(** [strip] leaves no whitespace at either end. *)
Lemma strip_clean s : lstrip (strip s) = strip s /\ rstrip (strip s) = strip s.
Proof.
  unfold strip. split.
  - apply lstrip_fixed, rstrip_starts, lstrip_starts.
  - apply rstrip_idempotent.
Qed.

Lemma split_go_rest sep s : forall cur,
  split_max_go sep s 0 cur 0 = [cur ++ s].
Proof.
  induction s as [|c t IH]; intros cur; cbn [split_max_go].
  - now rewrite app_nil_r_string.
  - rewrite IH, append_assoc. reflexivity.
Qed.

Lemma split_go_skip sep x : forall s cur m,
  split_max_go sep (x ++ s) (String.length x) cur m = split_max_go sep s 0 cur m.
Proof.
  induction x as [|c x IH]; intros s cur m; [reflexivity|].
  cbn [append String.length split_max_go]. apply IH.
Qed.

(** Without an occurrence of the separator nothing is split. *)
Lemma split_go_none sep s : forall cur m,
  str_in sep s = false -> split_max_go sep s 0 cur m = [cur ++ s].
Proof.
  induction s as [|c t IH]; intros cur m H; cbn [split_max_go].
  - now rewrite app_nil_r_string.
  - cbn [str_in] in H. apply orb_false_iff in H. destruct H as [Hp Ht].
    rewrite Hp. destruct m; rewrite IH, append_assoc by assumption; reflexivity.
Qed.

Lemma prefix3_inside c meta body :
  String.prefix "---" (String c (meta ++ "---" ++ body))
  = String.prefix "---" (String c (meta ++ "--")).
Proof.
  destruct meta as [|x [|y meta]]; cbn [append String.prefix];
    repeat (match goal with |- context [ascii_dec ?a ?b] => destruct (ascii_dec a b) end;
            try reflexivity).
  now destruct meta.
Qed.

Lemma split_go_found sep c t cur m :
  String.prefix sep (String c t) = true ->
  split_max_go sep (String c t) 0 cur (S m)
  = cur :: split_max_go sep t (String.length sep - 1) EmptyString m.
Proof. intros H. cbn [split_max_go]. now rewrite H. Qed.

Lemma split_go_step sep c t cur m :
  String.prefix sep (String c t) = false ->
  split_max_go sep (String c t) 0 cur m
  = split_max_go sep t 0 (cur ++ String c EmptyString) m.
Proof. intros H. cbn [split_max_go]. rewrite H. now destruct m. Qed.

(** From an occurrence of "---" on: one piece ends, the scan goes on after
    the separator. *)
Lemma split_go_at_separator body cur m :
  split_max_go "---" ("---" ++ body) 0 cur (S m)
  = cur :: split_max_go "---" body 0 EmptyString m.
Proof.
  change ("---" ++ body) with (String "-" ("--" ++ body)).
  rewrite split_go_found by apply (prefix_append "---" body).
  reflexivity.
Qed.

(** The scan up to the first separator, when none begins earlier. *)
Lemma split_go_scan meta body m : forall cur,
  str_in "---" (meta ++ "--") = false ->
  split_max_go "---" (meta ++ "---" ++ body) 0 cur (S m)
  = (cur ++ meta) :: split_max_go "---" body 0 EmptyString m.
Proof.
  induction meta as [|c meta IH]; intros cur H.
  - change (EmptyString ++ "---" ++ body) with ("---" ++ body).
    now rewrite split_go_at_separator, app_nil_r_string.
  - change (String c meta ++ "--") with (String c (meta ++ "--")) in H.
    cbn [str_in] in H. apply orb_false_iff in H. destruct H as [Hp Ht].
    change (String c meta ++ "---" ++ body) with (String c (meta ++ "---" ++ body)).
    rewrite split_go_step by (now rewrite prefix3_inside).
    rewrite IH by assumption. now rewrite append_assoc.
Qed.

Lemma split_front_matter meta body :
  str_in "---" (meta ++ "--") = false ->
  split_max "---" 2 ("---" ++ meta ++ "---" ++ body) = [EmptyString; meta; body].
Proof.
  intros H. unfold split_max.
  rewrite split_go_at_separator, split_go_scan by assumption.
  now rewrite split_go_rest.
Qed.

Lemma strip_frontmatter_closed meta body :
  str_in "---" (meta ++ "--") = false ->
  strip_frontmatter ("---" ++ meta ++ "---" ++ body) = strip body.
Proof.
  intros H. unfold strip_frontmatter, startswith.
  rewrite split_front_matter by assumption.
  now rewrite (prefix_append "---" (meta ++ "---" ++ body)).
Qed.

Lemma strip_frontmatter_open rest :
  str_in "---" rest = false -> strip_frontmatter ("---" ++ rest) = "---" ++ rest.
Proof.
  intros H. unfold strip_frontmatter, split_max, startswith.
  rewrite (prefix_append "---" rest).
  rewrite split_go_at_separator, split_go_none by assumption.
  reflexivity.
Qed.

(** [load_slash_command] on a file system that stays as it is. *)
Lemma load_slash_command_static w files command_name tr :
  static_files w files ->
  load_slash_command w command_name tr
  = match files (home_command_path w command_name) with
    | Some text =>
        (Ok (strip_frontmatter text),
         (tr ++ [EvExists (home_command_path w command_name);
                 EvExists (home_command_path w command_name);
                 EvRead (home_command_path w command_name)])%list)
    | None =>
        match files (local_command_path command_name) with
        | Some text =>
            (Ok (strip_frontmatter text),
             (tr ++ [EvExists (home_command_path w command_name);
                     EvExists (local_command_path command_name);
                     EvRead (local_command_path command_name)])%list)
        | None =>
            (Raise (FileNotFoundError ("Slash command not found: " ++ command_name)),
             (tr ++ [EvExists (home_command_path w command_name);
                     EvExists (local_command_path command_name)])%list)
        end
    end.
Proof.
  intros Hs. unfold load_slash_command, bind, path_exists, read_text, raise, ret.
  fold (home_command_path w command_name). fold (local_command_path command_name).
  rewrite !Hs.
  destruct (files (home_command_path w command_name)) as [text|] eqn:Eh; cbn [negb].
  - rewrite Eh. cbn [negb]. rewrite Hs, Eh.
    rewrite <- !app_assoc. reflexivity.
  - destruct (files (local_command_path command_name)) as [text|] eqn:El; cbn [negb].
    + rewrite Hs, El. rewrite <- !app_assoc. reflexivity.
    + rewrite <- !app_assoc. reflexivity.
Qed.

(** X1.  When the template file opens with "---", holds front matter
    [meta] and then a closing "---" (the first "---" after the opening
    one), [load_slash_command] returns what follows the closing marker,
    stripped: the result has no whitespace at either end. *)
Theorem front_matter_is_removed
    (w : World) (files : string -> option string) (command_name : string)
    (meta body : string) (tr : Trace) :
  static_files w files ->
  chosen_template w files command_name = Some ("---" ++ meta ++ "---" ++ body) ->
  str_in "---" (meta ++ "--") = false ->
  fst (load_slash_command w command_name tr) = Ok (strip body)
  /\ lstrip (strip body) = strip body
  /\ rstrip (strip body) = strip body.
Proof.
  intros Hs Hc Hm. split; [|apply strip_clean].
  rewrite (load_slash_command_static w files command_name tr Hs).
  unfold chosen_template in Hc.
  destruct (files (home_command_path w command_name)) as [text|].
  - injection Hc as ->. cbn [fst]. f_equal. now apply strip_frontmatter_closed.
  - rewrite Hc. cbn [fst]. f_equal. now apply strip_frontmatter_closed.
Qed.

Lemma front_matter_is_removed_witness :
  fst (load_slash_command (plain_world both_templates) "implement_plan" [])
  = Ok "Implement the plan.".
Proof.
  refine (eq_trans (proj1 (front_matter_is_removed (plain_world both_templates)
            both_templates "implement_plan"
            (NL ++ "allowed-tools: Bash" ++ NL) (NL ++ "Implement the plan." ++ NL)
            [] _ _ _)) _).
  - intros tr path. reflexivity.
  - vm_compute. reflexivity.
  - vm_compute. reflexivity.
  - vm_compute. reflexivity.
Defined.

(** X2.  [load_slash_command] returns the template text as it is,
    surrounding whitespace included, when the text does not open with
    "---", and also when it opens with "---" but no second "---"
    follows. *)
Theorem text_without_closed_front_matter_is_kept
    (w : World) (files : string -> option string) (command_name : string)
    (text : string) (tr : Trace) :
  static_files w files ->
  chosen_template w files command_name = Some text ->
  startswith "---" text = false
  \/ (exists rest, text = "---" ++ rest /\ str_in "---" rest = false) ->
  fst (load_slash_command w command_name tr) = Ok text.
Proof.
  intros Hs Hc Ht.
  assert (E : strip_frontmatter text = text).
  { destruct Ht as [Ht|(rest & -> & Hr)].
    - unfold strip_frontmatter. now rewrite Ht.
    - now apply strip_frontmatter_open. }
  rewrite (load_slash_command_static w files command_name tr Hs).
  unfold chosen_template in Hc.
  destruct (files (home_command_path w command_name)) as [t|].
  - injection Hc as ->. cbn [fst]. f_equal. exact E.
  - rewrite Hc. cbn [fst]. f_equal. exact E.
Qed.

Lemma text_without_closed_front_matter_is_kept_witness :
  fst (load_slash_command (plain_world template_files) "implement_plan" [])
  = Ok "Implement the phase.".
Proof.
  apply (text_without_closed_front_matter_is_kept (plain_world template_files)
           template_files "implement_plan" "Implement the phase." []).
  - intros tr path. reflexivity.
  - vm_compute. reflexivity.
  - left. vm_compute. reflexivity.
Defined.

(** X3.  On a file system that stays as it is, [load_slash_command] looks
    under the home directory first and reads that file when it is there,
    without looking at the working directory; otherwise it falls back to
    the file under the working directory; and when neither is there it
    raises FileNotFoundError "Slash command not found: <name>" after the
    two look-ups, reading nothing. *)
Theorem slash_command_lookup_order
    (w : World) (files : string -> option string) (command_name : string)
    (tr : Trace) :
  static_files w files ->
  let hp := home_command_path w command_name in
  let lp := local_command_path command_name in
  (forall text, files hp = Some text ->
     load_slash_command w command_name tr
     = (Ok (strip_frontmatter text), (tr ++ [EvExists hp; EvExists hp; EvRead hp])%list))
  /\ (forall text, files hp = None -> files lp = Some text ->
        load_slash_command w command_name tr
        = (Ok (strip_frontmatter text), (tr ++ [EvExists hp; EvExists lp; EvRead lp])%list))
  /\ (files hp = None -> files lp = None ->
        load_slash_command w command_name tr
        = (Raise (FileNotFoundError ("Slash command not found: " ++ command_name)),
           (tr ++ [EvExists hp; EvExists lp])%list)).
Proof.
  intros Hs hp lp.
  pose proof (load_slash_command_static w files command_name tr Hs) as E.
  fold hp lp in E. repeat split.
  - intros text H. now rewrite H in E.
  - intros text H1 H2. now rewrite H1, H2 in E.
  - intros H1 H2. now rewrite H1, H2 in E.
Qed.

Lemma slash_command_lookup_order_witness :
  fst (load_slash_command (plain_world both_templates) "implement_plan" [])
  = Ok "Implement the plan."
  /\ fst (load_slash_command (plain_world no_files) "implement_plan" [])
     = Raise (FileNotFoundError "Slash command not found: implement_plan").
Proof.
  destruct (slash_command_lookup_order (plain_world both_templates) both_templates
              "implement_plan" []) as (Hhome & _ & _); [intros tr path; reflexivity|].
  destruct (slash_command_lookup_order (plain_world no_files) no_files
              "implement_plan" []) as (_ & _ & Hnone); [intros tr path; reflexivity|].
  split.
  - erewrite Hhome by (vm_compute; reflexivity). vm_compute. reflexivity.
  - rewrite Hnone by reflexivity. reflexivity.
Defined.

(* ================================================================== *)
(** ** Further properties: the Phase Extractor *)

Lemma parse_plan_text_blocks doc :
  parse_plan_text doc = map record_of (snd (segments (split_chr LF doc))).
Proof. unfold parse_plan_text. now rewrite parse_lines_segments. Qed.

Lemma no_heading_filter lines :
  filter is_heading lines = [] <-> plain lines.
Proof.
  unfold plain. induction lines as [|l rest IH]; cbn [filter].
  - split; [constructor|reflexivity].
  - unfold is_heading at 1. destruct (heading l) eqn:E.
    + split; [discriminate|]. intros H. inversion H; congruence.
    + rewrite IH. split.
      * intros H. constructor; assumption.
      * intros H. now inversion H.
Qed.

Lemma parse_nothing_iff doc :
  parse_plan_text doc = [] <-> plain (split_chr LF doc).
Proof.
  rewrite parse_plan_text_blocks, <- no_heading_filter.
  pose proof (segments_count (split_chr LF doc)) as Hc.
  destruct (snd (segments (split_chr LF doc))) as [|b bs];
    destruct (filter is_heading (split_chr LF doc)) as [|x xs];
    cbn [map] in *; try discriminate; split; congruence.
Qed.

(** X4.  When the plan file is not there, [run_full_implementation] raises
    FileNotFoundError "Plan file not found: <path>" right after the
    look-up: the file is not read and nothing is logged, whatever the
    bounds and the mode. *)
Theorem missing_plan_file_raises
    (self : PlanAutomator) (w : World) (plan_path : string)
    (start_phase end_phase : option Z) (tr : Trace) :
  file w tr plan_path = None ->
  run_full_implementation self w plan_path start_phase end_phase tr
  = (Raise (FileNotFoundError ("Plan file not found: " ++ plan_path)),
     (tr ++ [EvExists plan_path])%list).
Proof.
  intros H. unfold run_full_implementation, parse_plan, bind, path_exists, raise.
  rewrite H. reflexivity.
Qed.

Lemma missing_plan_file_raises_witness :
  run_full_implementation live (plain_world no_files) "plan.md" (Some 1) None []
  = (Raise (FileNotFoundError "Plan file not found: plan.md"), [EvExists "plan.md"]).
Proof.
  apply (missing_plan_file_raises live (plain_world no_files) "plan.md" (Some 1) None []).
  reflexivity.
Defined.

(** X5.  When the plan file holds no heading line, the run reads the file,
    logs the error "No phases found in plan" and returns: no phase is
    entered, the agent is not called, and the closing records are not
    logged. *)
Theorem plan_without_phases_is_reported
    (self : PlanAutomator) (w : World) (plan_path : string)
    (start_phase end_phase : option Z) (tr : Trace) (seen doc : string) :
  file w tr plan_path = Some seen ->
  file w (tr ++ [EvExists plan_path])%list plan_path = Some doc ->
  plain (split_chr LF doc) ->
  run_full_implementation self w plan_path start_phase end_phase tr
  = (Ok tt, (tr ++ [EvExists plan_path; EvRead plan_path;
                    EvLog ERROR "No phases found in plan"])%list).
Proof.
  intros H1 H2 Hp. apply parse_nothing_iff in Hp.
  unfold run_full_implementation, parse_plan.
  unfold bind at 1. unfold bind at 1. unfold path_exists. rewrite H1. cbn [negb].
  unfold bind at 1. unfold read_text. rewrite H2. unfold ret at 1. rewrite Hp.
  unfold log, emit. cbn [enabled]. rewrite <- !app_assoc. reflexivity.
Qed.

Lemma plan_without_phases_is_reported_witness :
  run_full_implementation live (plain_world notes_files) "plan.md" None None []
  = (Ok tt, [EvExists "plan.md"; EvRead "plan.md";
             EvLog ERROR "No phases found in plan"]).
Proof.
  apply (plan_without_phases_is_reported live (plain_world notes_files) "plan.md"
           None None [] notes_only notes_only); try reflexivity.
  vm_compute. repeat constructor.
Defined.

Lemma digit_val_nonneg c : isdigit c = true -> 0 <= digit_val c.
Proof.
  unfold isdigit, digit_val. intros H. apply andb_true_iff in H.
  destruct H as [H _]. apply N.leb_le in H. lia.
Qed.

Lemma int_go_nonneg s : forall acc,
  all isdigit s = true -> 0 <= acc -> 0 <= int_go s acc.
Proof.
  induction s as [|c s IH]; intros acc H Ha; cbn [int_go]; [assumption|].
  cbn [all] in H. apply andb_true_iff in H. destruct H as [Hc Hs].
  apply IH; [assumption|]. pose proof (digit_val_nonneg c Hc). lia.
Qed.

Lemma parsed_phase_fields (doc : string) (ph : Phase) :
  In ph (parse_plan_text doc) ->
  0 <= number ph
  /\ lstrip (name ph) = name ph
  /\ rstrip (name ph) = name ph.
Proof.
  rewrite parse_plan_text_blocks. intros Hin.
  apply in_map_iff in Hin. destruct Hin as (b & <- & Hb).
  pose proof (segments_blocks (split_chr LF doc)) as Hwf.
  rewrite Forall_forall in Hwf. destruct (Hwf b Hb) as [Hh _].
  assert (Hline : chr_in LF (fst b) = false).
  { pose proof (split_chr_no_sep LF doc) as Hn. rewrite Forall_forall in Hn.
    apply Hn. rewrite (segments_partition (split_chr LF doc)).
    apply in_or_app. right. apply in_flat_map. exists b. split; [assumption|].
    now left. }
  unfold record_of. destruct (heading (fst b)) as [[n nm]|] eqn:E; [|congruence].
  cbn [number name].
  apply (heading_shape_iff _ _ _ Hline) in E.
  destruct E as (digits & label & _ & _ & Hd & _ & -> & ->).
  split; [|apply strip_clean].
  unfold int. now apply int_go_nonneg.
Qed.

(** X6.  Every record [parse_plan] returns has a number that is not
    negative and a name with no whitespace at either end (the name may be
    empty: the label of its heading may be whitespace only). *)
Theorem parsed_phases_are_normalised (doc : string) (ph : Phase) :
  In ph (parse_plan_text doc) ->
  0 <= number ph
  /\ lstrip (name ph) = name ph
  /\ rstrip (name ph) = name ph.
Proof. apply parsed_phase_fields. Qed.

Lemma parsed_phases_are_normalised_witness :
  0 <= 2 /\ lstrip "Build" = "Build" /\ rstrip "Build" = "Build".
Proof.
  apply (parsed_phases_are_normalised two_phase_doc
           (mkPhase 2 "Build" (AUTOMATED ++ NL ++ "- [ ] tests pass") false)).
  vm_compute. right. left. reflexivity.
Defined.

Lemma split_chr_app sep a : forall b,
  split_chr sep (a ++ String sep b) = (split_chr sep a ++ split_chr sep b)%list.
Proof.
  induction a as [|c a IH]; intros b.
  - cbn [append split_chr]. now rewrite Ascii.eqb_refl.
  - cbn [append split_chr]. rewrite IH.
    destruct (Ascii.eqb c sep); [reflexivity|].
    pose proof (split_chr_not_nil sep a) as Hn.
    destruct (split_chr sep a) as [|l ls]; [congruence|reflexivity].
Qed.

Lemma segments_app l1 : forall l2,
  fst (segments l2) = [] ->
  segments (l1 ++ l2)
  = (fst (segments l1), (snd (segments l1) ++ snd (segments l2))%list).
Proof.
  induction l1 as [|x l1 IH]; intros l2 H.
  - cbn [app segments fst snd]. rewrite <- H. now destruct (segments l2).
  - cbn [app]. rewrite !segments_cons, IH by assumption.
    destruct (is_heading x); reflexivity.
Qed.

Lemma segments_heading_first lines :
  is_heading (hd EmptyString lines) = true -> fst (segments lines) = [].
Proof.
  destruct lines as [|l rest]; [reflexivity|].
  cbn [hd]. intros H. rewrite segments_cons, H. reflexivity.
Qed.

(** X7.  Parsing is compositional at heading boundaries: when the first
    line of [doc2] is a phase heading, the plan made of [doc1], a newline
    and [doc2] parses to the phases of [doc1] followed by the phases of
    [doc2], each with the content and completion state it has on its
    own. *)
Theorem parse_plan_of_joined_documents (doc1 doc2 : string) :
  is_heading (hd EmptyString (split_chr LF doc2)) = true ->
  parse_plan_text (doc1 ++ NL ++ doc2)
  = (parse_plan_text doc1 ++ parse_plan_text doc2)%list.
Proof.
  intros H. rewrite !parse_plan_text_blocks.
  change (doc1 ++ NL ++ doc2) with (doc1 ++ String LF doc2).
  rewrite split_chr_app, segments_app by now apply segments_heading_first.
  cbn [snd]. apply map_app.
Qed.

Lemma parse_plan_of_joined_documents_witness :
  parse_plan_text (two_phase_doc ++ NL ++ "## Phase 3: Ship")
  = (parse_plan_text two_phase_doc ++ [mkPhase 3 "Ship" "" true])%list.
Proof.
  apply (parse_plan_of_joined_documents two_phase_doc "## Phase 3: Ship").
  vm_compute. reflexivity.
Defined.

(* ================================================================== *)
(** ** Further properties: the Completion Classifier *)

Lemma toggle_no_automated lines :
  Forall (fun l => str_in AUTOMATED l = false) lines ->
  fold_left toggle lines false = false.
Proof.
  induction 1 as [|l rest Hl _ IH]; [reflexivity|].
  cbn [fold_left]. unfold toggle at 2. rewrite Hl.
  now destruct (str_in MANUAL l).
Qed.

Lemma completed_app doc1 doc2 :
  _is_phase_completed (doc1 ++ NL ++ doc2)
  = negb (scan_lines (split_chr LF doc1) false
          || scan_lines (split_chr LF doc2)
               (fold_left toggle (split_chr LF doc1) false)).
Proof.
  rewrite completed_scan.
  change (doc1 ++ NL ++ doc2) with (doc1 ++ String LF doc2).
  now rewrite split_chr_app, scan_app.
Qed.

(** X8.  What precedes the first automated-verification header does not
    count: when no line of [doc1] holds the automated marker, the content
    made of [doc1], a newline and [doc2] is classified as [doc2] alone,
    whatever unchecked items [doc1] lists. *)
Theorem lines_before_automated_header_are_ignored (doc1 doc2 : string) :
  Forall (fun l => str_in AUTOMATED l = false) (split_chr LF doc1) ->
  _is_phase_completed (doc1 ++ NL ++ doc2) = _is_phase_completed doc2.
Proof.
  intros H. rewrite completed_app, completed_scan.
  now rewrite no_automated_inactive, toggle_no_automated.
Qed.

Lemma lines_before_automated_header_are_ignored_witness :
  _is_phase_completed (("### Tasks" ++ NL ++ "- [ ] write code") ++ NL
                       ++ (AUTOMATED ++ NL ++ "- [x] tests pass"))
  = _is_phase_completed (AUTOMATED ++ NL ++ "- [x] tests pass").
Proof.
  apply (lines_before_automated_header_are_ignored
           ("### Tasks" ++ NL ++ "- [ ] write code")
           (AUTOMATED ++ NL ++ "- [x] tests pass")).
  vm_compute. repeat constructor.
Defined.

(** X9.  Items under a manual-verification header never block completion:
    when [header] is a line that holds the manual marker and not the
    automated one, and no line of [doc2] holds the automated marker, the
    content [doc1], [header], [doc2] is classified as [doc1] alone. *)
Theorem manual_section_is_ignored (doc1 header doc2 : string) :
  str_in MANUAL header = true ->
  str_in AUTOMATED header = false ->
  chr_in LF header = false ->
  Forall (fun l => str_in AUTOMATED l = false) (split_chr LF doc2) ->
  _is_phase_completed (doc1 ++ NL ++ header ++ NL ++ doc2)
  = _is_phase_completed doc1.
Proof.
  intros Hm Ha Hn H2. rewrite completed_app, completed_scan. f_equal.
  change (header ++ NL ++ doc2) with (header ++ String LF doc2).
  rewrite split_chr_app, (split_chr_whole LF header Hn).
  cbn [app]. rewrite scan_cons.
  unfold unchecked_item, is_header, toggle. rewrite Ha, Hm.
  cbn [orb negb andb]. rewrite andb_false_r. cbn [orb].
  rewrite (no_automated_inactive _ H2). apply orb_false_r.
Qed.

Lemma manual_section_is_ignored_witness :
  _is_phase_completed ((AUTOMATED ++ NL ++ "- [x] tests pass") ++ NL ++ MANUAL ++ NL
                       ++ "- [ ] looks right")
  = _is_phase_completed (AUTOMATED ++ NL ++ "- [x] tests pass").
Proof.
  apply (manual_section_is_ignored (AUTOMATED ++ NL ++ "- [x] tests pass") MANUAL
           "- [ ] looks right"); try (vm_compute; reflexivity).
  vm_compute. repeat constructor.
Defined.

(** X10.  The first unchecked item is decisive: a content classified
    incomplete stays incomplete whatever lines are appended after it,
    later headers and checked items included.  The appended text has to
    start on a line of its own: text appended to the last line changes
    that line, and a manual marker added to the line of the only item
    makes the content complete. *)
Theorem incomplete_stays_incomplete (doc1 doc2 : string) :
  _is_phase_completed doc1 = false ->
  _is_phase_completed (doc1 ++ NL ++ doc2) = false
  /\ (_is_phase_completed one_item = false
      /\ _is_phase_completed (one_item ++ " " ++ MANUAL) = true).
Proof.
  intros H. split; [|split; vm_compute; reflexivity].
  revert H. rewrite completed_app, completed_scan. intros H.
  apply negb_false_iff in H. now rewrite H.
Qed.

Lemma incomplete_stays_incomplete_witness :
  _is_phase_completed (one_item ++ NL ++ MANUAL) = false.
Proof.
  apply (incomplete_stays_incomplete one_item MANUAL). vm_compute. reflexivity.
Defined.

(* ================================================================== *)
(** ** Further properties: the Phase Driver *)

Section SilentDriver.

Variable kind : Event -> bool.
Variable self : PlanAutomator.

Hypothesis kind_log : forall lvl msg, enabled self lvl = true -> kind (EvLog lvl msg) = false.
Hypothesis kind_print : forall text, verbose self = true -> kind (EvPrint text) = false.

Lemma silent_log_here lvl msg : silent kind (log self lvl msg).
Proof. apply silent_log. apply kind_log. Qed.

Lemma silent_handle_text text success : silent kind (handle_text self text success).
Proof.
  unfold handle_text.
  apply silent_bind; [apply silent_log_here|]. intros _.
  apply silent_bind.
  { destruct (success_indicator text); [|apply silent_ret].
    apply silent_bind; [apply silent_log_here|]. intros. apply silent_ret. }
  intros s1. apply silent_bind.
  { destruct (manual_verification_request text); [|apply silent_ret].
    apply silent_bind; [apply silent_log_here|]. intros _.
    apply silent_bind; [apply silent_log_here|]. intros. apply silent_ret. }
  intros s2. apply silent_bind; [|intros; apply silent_ret].
  destruct (verbose self) eqn:V; [|apply silent_ret].
  apply silent_emit. now apply kind_print.
Qed.

Lemma silent_handle_blocks blocks : forall success,
  silent kind (handle_blocks self blocks success).
Proof.
  induction blocks as [|b rest IH]; intros success; cbn [handle_blocks].
  - apply silent_ret.
  - destruct b; [|apply IH].
    apply silent_bind; [apply silent_handle_text|]. intros. apply IH.
Qed.

Lemma silent_handle_messages messages : forall success,
  silent kind (handle_messages self messages success).
Proof.
  induction messages as [|m rest IH]; intros success; cbn [handle_messages].
  - apply silent_ret.
  - destruct m.
    + apply silent_bind; [apply silent_log_here|]. intros _.
      apply silent_bind; [apply silent_handle_blocks|]. intros. apply IH.
    + apply silent_bind; [apply silent_log_here|]. intros _.
      apply silent_bind; [apply silent_log_here|]. intros. apply IH.
Qed.

Lemma silent_load_slash_command w command_name :
  (forall path, kind (EvExists path) = false) ->
  (forall path, kind (EvRead path) = false) ->
  silent kind (load_slash_command w command_name).
Proof.
  intros He Hr. unfold load_slash_command.
  apply silent_bind; [now apply silent_path_exists|]. intros in_home.
  apply silent_bind; [now apply silent_path_exists|]. intros found.
  destruct (negb found); [apply silent_raise|].
  apply silent_bind; [now apply silent_read_text|]. intros. apply silent_ret.
Qed.

(** The driver adds no event of a kind that none of its steps emits. *)
Lemma silent_implement_phase w plan_path phase :
  (forall path, kind (EvExists path) = false) ->
  (forall path, kind (EvRead path) = false) ->
  (forall prompt mode, kind (EvQuery prompt mode) = false) ->
  silent kind (implement_phase self w plan_path phase).
Proof.
  intros He Hr Hq. unfold implement_phase.
  apply silent_bind; [apply silent_log_here|]. intros _.
  destruct (is_completed phase).
  { apply silent_bind; [apply silent_log_here|]. intros. apply silent_ret. }
  destruct (dry_run self).
  { apply silent_bind; [apply silent_log_here|]. intros. apply silent_ret. }
  apply silent_bind; [now apply silent_load_slash_command|]. intros cp.
  apply silent_bind; [now apply silent_query|]. intros.
  apply silent_handle_messages.
Qed.

(** A skipped phase touches neither the files nor the agent. *)
Lemma silent_implement_phase_skipped w plan_path phase :
  skipped self phase = true ->
  silent kind (implement_phase self w plan_path phase).
Proof.
  unfold skipped. intros Hs. unfold implement_phase.
  apply silent_bind; [apply silent_log_here|]. intros _.
  destruct (is_completed phase).
  { apply silent_bind; [apply silent_log_here|]. intros. apply silent_ret. }
  cbn [orb] in Hs. rewrite Hs.
  apply silent_bind; [apply silent_log_here|]. intros. apply silent_ret.
Qed.

Lemma silent_loop_tail phases phase success :
  (forall s, (number phase <? number (last phases phase)) = true ->
              kind (EvSleep s) = false) ->
  silent kind
    (if negb success then
       log self ERROR ("Phase " ++ str (number phase) ++ " failed, stopping implementation") ;;
       ret false
     else
       log self INFO ("Phase " ++ str (number phase) ++ " completed successfully") ;;
       (if number phase <? number (last phases phase)
        then log self INFO "Clearing context for next phase..." ;; sleep 1
        else ret tt) ;;
       ret true).
Proof.
  intros Hs. destruct (negb success).
  - apply silent_bind; [apply silent_log_here|]. intros. apply silent_ret.
  - apply silent_bind; [apply silent_log_here|]. intros _.
    apply silent_bind; [|intros; apply silent_ret].
    destruct (number phase <? number (last phases phase)); [|apply silent_ret].
    apply silent_bind; [apply silent_log_here|]. intros.
    apply silent_emit. now apply Hs.
Qed.

Lemma silent_loop_body w plan_path phases phase :
  silent kind (implement_phase self w plan_path phase) ->
  (forall s, (number phase <? number (last phases phase)) = true ->
              kind (EvSleep s) = false) ->
  silent kind (loop_body self w plan_path phases phase).
Proof.
  intros Hi Hs. unfold loop_body.
  apply silent_bind; [apply silent_log_here|]. intros _.
  apply silent_bind; [apply silent_log_here|]. intros _.
  apply silent_bind; [apply silent_log_here|]. intros _.
  apply silent_bind; [exact Hi|]. intros success.
  now apply silent_loop_tail.
Qed.

Lemma silent_for_phases w plan_path phases todo :
  Forall (fun phase => silent kind (loop_body self w plan_path phases phase)) todo ->
  silent kind (for_phases self w plan_path phases todo).
Proof.
  induction 1 as [|phase rest Hp _ IH]; cbn [for_phases].
  - apply silent_ret.
  - apply silent_bind; [exact Hp|]. intros [|]; [exact IH|apply silent_ret].
Qed.

Lemma silent_parse_plan w plan_path :
  kind (EvExists plan_path) = false -> kind (EvRead plan_path) = false ->
  silent kind (parse_plan w plan_path).
Proof.
  intros He Hr. unfold parse_plan.
  apply silent_bind; [now apply silent_path_exists|]. intros found.
  destruct (negb found); [apply silent_raise|].
  apply silent_bind; [now apply silent_read_text|]. intros. apply silent_ret.
Qed.

End SilentDriver.

(** X11.  In live mode, on a phase that is not completed, when the
    template is in neither place [implement_phase] raises
    FileNotFoundError "Slash command not found: implement_plan" after its
    entry record and the two look-ups: the agent is not called. *)
Theorem missing_template_raises
    (self : PlanAutomator) (w : World) (files : string -> option string)
    (plan_path : string) (phase : Phase) (tr : Trace) :
  is_completed phase = false ->
  dry_run self = false ->
  static_files w files ->
  chosen_template w files "implement_plan" = None ->
  implement_phase self w plan_path phase tr
  = (Raise (FileNotFoundError "Slash command not found: implement_plan"),
     (tr ++ [driver_entry phase;
             EvExists (home_command_path w "implement_plan");
             EvExists (local_command_path "implement_plan")])%list)
  /\ agent_calls (snd (implement_phase self w plan_path phase tr)) = agent_calls tr.
Proof.
  intros Hc Hd Hs Ht.
  assert (E : implement_phase self w plan_path phase tr
              = (Raise (FileNotFoundError "Slash command not found: implement_plan"),
                 (tr ++ [driver_entry phase;
                         EvExists (home_command_path w "implement_plan");
                         EvExists (local_command_path "implement_plan")])%list)).
  { unfold implement_phase. rewrite Hc, Hd.
    unfold bind at 1. unfold log at 1. cbn [enabled]. unfold emit at 1.
    unfold bind at 1.
    rewrite (load_slash_command_static w files "implement_plan" _ Hs).
    unfold chosen_template in Ht.
    destruct (files (home_command_path w "implement_plan")); [discriminate|].
    rewrite Ht. rewrite <- app_assoc. reflexivity. }
  split; [exact E|]. rewrite E. cbn [snd].
  unfold agent_calls. rewrite filter_app. cbn. apply app_nil_r.
Qed.

Lemma missing_template_raises_witness :
  fst (implement_phase live (plain_world no_files) "plan.md"
         (mkPhase 1 "Setup" "body" false) [])
  = Raise (FileNotFoundError "Slash command not found: implement_plan").
Proof.
  destruct (missing_template_raises live (plain_world no_files) no_files "plan.md"
              (mkPhase 1 "Setup" "body" false) [] eq_refl eq_refl)
    as [E _]; [intros tr path; reflexivity | reflexivity |].
  now rewrite E.
Defined.

(** X12.  In live mode, on a phase that is not completed and with the
    template found, [implement_phase] calls the agent exactly once: with
    the template text followed by the plan path and the phase number, and
    with permission mode bypassPermissions. *)
Theorem one_agent_call_per_live_phase
    (self : PlanAutomator) (w : World) (plan_path : string) (phase : Phase)
    (tr tr1 : Trace) (command_prompt : string) :
  is_completed phase = false ->
  dry_run self = false ->
  load_slash_command w "implement_plan" (tr ++ [driver_entry phase])%list
  = (Ok command_prompt, tr1) ->
  agent_calls (snd (implement_phase self w plan_path phase tr))
  = (agent_calls tr
     ++ [EvQuery (command_prompt ++ NL ++ NL ++ "Plan: " ++ plan_path ++ NL
                  ++ "Phase: " ++ str (number phase))
           "bypassPermissions"])%list.
Proof.
  intros Hc Hd Hl.
  pose proof (silent_load_slash_command is_query w "implement_plan"
                (fun _ => eq_refl) (fun _ => eq_refl)
                (tr ++ [driver_entry phase])%list) as Hq.
  rewrite Hl in Hq. cbn [snd] in Hq.
  unfold implement_phase. rewrite Hc, Hd.
  unfold bind at 1. unfold log at 1. cbn [enabled]. unfold emit at 1.
  fold (driver_entry phase). unfold bind at 1. rewrite Hl.
  unfold bind at 1. unfold query at 1.
  unfold agent_calls.
  rewrite (silent_handle_messages is_query self (fun _ _ _ => eq_refl)
             (fun _ _ => eq_refl)).
  rewrite filter_app, Hq, filter_app. cbn [filter is_query].
  now rewrite app_nil_r.
Qed.

Lemma one_agent_call_per_live_phase_witness :
  agent_calls (snd (implement_phase live live_world "plan.md"
                      (mkPhase 2 "Build" "work" false) []))
  = [EvQuery ("Implement the phase." ++ NL ++ NL ++ "Plan: plan.md" ++ NL ++ "Phase: 2")
       "bypassPermissions"].
Proof.
  apply (one_agent_call_per_live_phase live live_world "plan.md"
           (mkPhase 2 "Build" "work" false) []
           [EvLog INFO "Implementing Phase 2: Build";
            EvExists "/home/dev/.claude/commands/implement_plan.md";
            EvExists ".claude/commands/implement_plan.md";
            EvRead ".claude/commands/implement_plan.md"]
           "Implement the phase." eq_refl eq_refl).
  vm_compute. reflexivity.
Defined.

(* ================================================================== *)
(** ** Further properties: the Run Controller *)

Lemma loop_body_raise self w plan_path phases phase tr exn tr2 :
  implement_phase self w plan_path phase (tr ++ banner phases phase)%list = (Raise exn, tr2) ->
  loop_body self w plan_path phases phase tr = (Raise exn, tr2).
Proof.
  intros H. unfold loop_body, bind, log, emit. cbn [enabled].
  unfold banner in H. rewrite <- !app_assoc. cbn [app].
  rewrite H. reflexivity.
Qed.

(** X13.  An exception out of the Phase Driver ends the run: when the loop
    has passed through [pre] and [implement_phase] raises for [p], the run
    raises the same exception with the trace as it was at that point; no
    later phase is entered, and neither a failure record nor the closing
    records are logged. *)
Theorem driver_exception_ends_run
    (self : PlanAutomator) (w : World) (plan_path : string)
    (start_phase end_phase : option Z)
    (parsed pre post : list Phase) (p : Phase) (exn : Exn)
    (tr tr0 tr1 tr2 : Trace) :
  parse_plan w plan_path tr = (Ok parsed, tr0) ->
  filter_phases start_phase end_phase parsed = (pre ++ p :: post)%list ->
  run_through self w plan_path (pre ++ p :: post)%list pre
    (tr0 ++ [found_record parsed])%list
  = Some tr1 ->
  implement_phase self w plan_path p (tr1 ++ banner (pre ++ p :: post) p)%list
  = (Raise exn, tr2) ->
  run_full_implementation self w plan_path start_phase end_phase tr = (Raise exn, tr2)
  /\ driver_entries tr2 = (driver_entries tr ++ map driver_entry (pre ++ [p]))%list.
Proof.
  intros Hparse Hfilter Hpre Hfail.
  assert (Hne : parsed <> []).
  { intros ->. rewrite filter_phases_selected in Hfilter. destruct pre; discriminate. }
  split.
  - rewrite (run_after_parse _ _ _ _ _ _ _ _ Hparse Hne), Hfilter.
    unfold bind at 1. rewrite (run_through_for _ _ _ _ _ _ _ _ Hpre).
    cbn [for_phases]. unfold bind at 1.
    now rewrite (loop_body_raise _ _ _ _ _ _ _ _ Hfail).
  - pose proof (implement_phase_enters self w plan_path p
                  (tr1 ++ banner (pre ++ p :: post) p)%list) as He.
    rewrite Hfail in He. cbn [snd] in He.
    pose proof (run_through_entries _ _ _ _ _ _ _ Hpre) as Hp.
    pose proof (quiet_parse_plan w plan_path tr) as Hq.
    rewrite Hparse in Hq. cbn [snd] in Hq.
    unfold driver_entries in *. rewrite !filter_app in *.
    cbn [filter is_driver_entry String.prefix] in *.
    rewrite !app_nil_r in *. rewrite He, Hp, Hq.
    rewrite map_app. cbn [map]. now rewrite <- !app_assoc.
Qed.

Lemma driver_exception_ends_run_witness :
  fst (run_full_implementation live (plain_world plan123_files) "plan.md" None None [])
  = Raise (FileNotFoundError "Slash command not found: implement_plan").
Proof.
  pose (three := parse_plan_text plan123).
  edestruct (driver_exception_ends_run live (plain_world plan123_files) "plan.md"
               None None three [] (skipn 1 three)
               (nth 0 three (mkPhase 0 "" "" true))
               (FileNotFoundError "Slash command not found: implement_plan") [])
    as (Hrun & _).
  - vm_compute. reflexivity.
  - vm_compute. reflexivity.
  - vm_compute. reflexivity.
  - vm_compute. reflexivity.
  - now rewrite Hrun.
Defined.

(** X14.  A run whose selected phases are all skipped, because they are
    completed or because the automator is in dry-run mode, never calls the
    agent and touches no file but the plan: it enters every selected
    phase, in order, and returns. *)
Theorem skipped_phases_need_no_agent
    (self : PlanAutomator) (w : World) (plan_path : string)
    (start_phase end_phase : option Z) (parsed : list Phase) (tr tr0 : Trace) :
  parse_plan w plan_path tr = (Ok parsed, tr0) ->
  parsed <> [] ->
  Forall (fun p => skipped self p = true) (filter_phases start_phase end_phase parsed) ->
  let run := run_full_implementation self w plan_path start_phase end_phase tr in
  fst run = Ok tt
  /\ agent_calls (snd run) = agent_calls tr
  /\ file_accesses (snd run) = file_accesses tr0
  /\ driver_entries (snd run)
     = (driver_entries tr
        ++ map driver_entry (filter_phases start_phase end_phase parsed))%list.
Proof.
  intros Hparse Hne Hskip run.
  set (chosen := filter_phases start_phase end_phase parsed) in *.
  destruct (run_through_skipped self w plan_path chosen chosen
              (tr0 ++ [found_record parsed])%list Hskip) as [tr1 Hall].
  assert (Hrun : run = (Ok tt, (tr1 ++ closing)%list)).
  { unfold run. rewrite (run_after_parse _ _ _ _ _ _ _ _ Hparse Hne).
    fold chosen. unfold bind at 1. rewrite (run_through_all _ _ _ _ _ _ Hall).
    unfold bind, log, emit, closing. cbn [enabled].
    now rewrite <- app_assoc. }
  assert (Hsil : forall kind,
            (forall lvl msg, kind (EvLog lvl msg) = false) ->
            (forall s, kind (EvSleep s) = false) ->
            filter kind tr1 = filter kind tr0).
  { intros kind Hlog Hsleep.
    assert (Hs : silent kind (for_phases self w plan_path chosen chosen)).
    { apply silent_for_phases. apply Forall_forall. intros p Hp.
      apply silent_loop_body.
      - intros l m _. apply Hlog.
      - apply silent_implement_phase_skipped.
        + intros l m _. apply Hlog.
        + rewrite Forall_forall in Hskip. now apply Hskip.
      - intros s _. apply Hsleep. }
    specialize (Hs (tr0 ++ [found_record parsed])%list).
    rewrite (run_through_all _ _ _ _ _ _ Hall) in Hs. cbn [snd] in Hs.
    rewrite Hs, filter_app. unfold found_record. cbn [filter].
    rewrite Hlog. apply app_nil_r. }
  rewrite Hrun. cbn [fst snd]. split; [reflexivity|]. split; [|split].
  - unfold agent_calls. rewrite filter_app. cbn [closing filter is_query].
    rewrite app_nil_r, (Hsil is_query) by reflexivity.
    pose proof (silent_parse_plan is_query w plan_path eq_refl eq_refl tr) as Hq.
    now rewrite Hparse in Hq.
  - unfold file_accesses. rewrite filter_app. cbn [closing filter is_file_access].
    rewrite app_nil_r. now apply Hsil.
  - pose proof (run_through_entries _ _ _ _ _ _ _ Hall) as He.
    pose proof (quiet_parse_plan w plan_path tr) as Hq.
    rewrite Hparse in Hq. cbn [snd] in Hq.
    unfold driver_entries in *. rewrite !filter_app in *.
    cbn [closing found_record filter is_driver_entry String.prefix] in *.
    rewrite !app_nil_r in *. now rewrite He, Hq.
Qed.

Lemma skipped_phases_need_no_agent_witness :
  agent_calls (snd (run_full_implementation live (plain_world done_files) "plan.md"
                      None None []))
  = [].
Proof.
  destruct (skipped_phases_need_no_agent live (plain_world done_files) "plan.md"
              None None (parse_plan_text done_plan) []
              [EvExists "plan.md"; EvRead "plan.md"] eq_refl)
    as (_ & Hagent & _).
  - vm_compute. discriminate.
  - vm_compute. repeat constructor.
  - exact Hagent.
Defined.

Lemma sleeps_loop_body self w plan_path phases phase tr t :
  loop_body self w plan_path phases phase tr = (Ok true, t) ->
  sleeps t
  = (sleeps tr
     ++ if number phase <? number (last phases phase) then [EvSleep 1] else [])%list.
Proof.
  unfold loop_body, bind at 1 2 3, log at 1 2 3, emit. cbn [enabled].
  unfold bind at 1.
  match goal with
  | |- context [implement_phase self w plan_path phase ?t0] =>
      pose proof (silent_implement_phase is_sleep self (fun _ _ _ => eq_refl)
                    (fun _ _ => eq_refl) w plan_path phase
                    (fun _ => eq_refl) (fun _ => eq_refl) (fun _ _ => eq_refl) t0) as Hs;
      destruct (implement_phase self w plan_path phase t0) as [[success|x] t1]
  end; [|discriminate].
  cbn [snd] in Hs. rewrite !filter_app in Hs. cbn [filter is_sleep] in Hs.
  rewrite !app_nil_r in Hs.
  destruct success; cbn [negb]; unfold bind, log, emit, ret, sleep; cbn [enabled];
    [|discriminate].
  unfold sleeps.
  destruct (number phase <? number (last phases phase)); intros [= <-];
    rewrite !filter_app; cbn [filter is_sleep]; rewrite ?app_nil_r, Hs; reflexivity.
Qed.

Lemma sleeps_run_through self w plan_path phases todo : forall tr tr1,
  run_through self w plan_path phases todo tr = Some tr1 ->
  sleeps tr1
  = (sleeps tr
     ++ map (fun _ => EvSleep 1)
          (filter (fun p => number p <? number (last phases p)) todo))%list.
Proof.
  induction todo as [|phase rest IH]; intros tr tr1 H; cbn [run_through] in H.
  - injection H as <-. cbn. now rewrite app_nil_r.
  - destruct (loop_body self w plan_path phases phase tr) as [[[|]|x] t] eqn:E;
      try discriminate.
    rewrite (IH _ _ H), (sleeps_loop_body _ _ _ _ _ _ _ E). cbn [filter].
    destruct (number phase <? number (last phases phase)); cbn [map];
      rewrite <- app_assoc; reflexivity.
Qed.

(** X15.  In a run where every selected phase succeeds, the run pauses for
    one second once for each selected phase whose number is below the
    number of the last selected phase, and never otherwise: pauses go by
    number, not by position, and no pause follows the last phase. *)
Theorem pauses_follow_phase_numbers
    (self : PlanAutomator) (w : World) (plan_path : string)
    (start_phase end_phase : option Z) (parsed : list Phase) (tr tr0 tr1 : Trace) :
  parse_plan w plan_path tr = (Ok parsed, tr0) ->
  parsed <> [] ->
  let chosen := filter_phases start_phase end_phase parsed in
  run_through self w plan_path chosen chosen (tr0 ++ [found_record parsed])%list
  = Some tr1 ->
  sleeps (snd (run_full_implementation self w plan_path start_phase end_phase tr))
  = (sleeps tr
     ++ map (fun _ => EvSleep 1)
          (filter (fun p => number p <? number (last chosen p)) chosen))%list.
Proof.
  intros Hparse Hne chosen Hall.
  rewrite (run_after_parse _ _ _ _ _ _ _ _ Hparse Hne). fold chosen.
  unfold bind at 1. rewrite (run_through_all _ _ _ _ _ _ Hall).
  unfold bind, log, emit. cbn [enabled snd].
  pose proof (sleeps_run_through _ _ _ _ _ _ _ Hall) as Hs.
  pose proof (silent_parse_plan is_sleep w plan_path eq_refl eq_refl tr) as Hq.
  rewrite Hparse in Hq. cbn [snd] in Hq.
  unfold sleeps in *. rewrite !filter_app in *. cbn [filter is_sleep found_record] in *.
  rewrite !app_nil_r in *. now rewrite Hs, Hq.
Qed.

Lemma pauses_follow_phase_numbers_witness :
  sleeps (snd (run_full_implementation live world_ok21 "plan.md" None None [])) = []
  /\ sleeps (snd (run_full_implementation live world_ok123 "plan.md" None None []))
     = [EvSleep 1; EvSleep 1].
Proof.
  split.
  - eapply eq_trans.
    + eapply (pauses_follow_phase_numbers live world_ok21 "plan.md" None None
                (parse_plan_text plan21) [] [EvExists "plan.md"; EvRead "plan.md"]).
      * reflexivity.
      * vm_compute. discriminate.
      * vm_compute. reflexivity.
    + vm_compute. reflexivity.
  - eapply eq_trans.
    + eapply (pauses_follow_phase_numbers live world_ok123 "plan.md" None None
                (parse_plan_text plan123) [] [EvExists "plan.md"; EvRead "plan.md"]).
      * reflexivity.
      * vm_compute. discriminate.
      * vm_compute. reflexivity.
    + vm_compute. reflexivity.
Defined.

Lemma silent_note_messages kind (Path : string -> string) self :
  (forall lvl msg, enabled self lvl = true -> kind (EvLog lvl msg) = false) ->
  (forall text, verbose self = true -> kind (EvPrint text) = false) ->
  forall messages held, silent kind (note_messages Path self messages held).
Proof.
  intros Hlog Hprint messages.
  induction messages as [|m rest IH]; intros held.
  - apply silent_ret.
  - destruct m as [blocks|ty rp]; cbn [note_messages]; [|apply IH].
    apply silent_bind; [|intros; apply IH].
    clear IH. revert held. induction blocks as [|b bs IHb]; intros held.
    + apply silent_ret.
    + destruct b as [text|]; cbn [note_blocks]; [|apply IHb].
      apply silent_bind; [|intros; apply IHb].
      unfold note_plan_path. apply silent_bind.
      { destruct (str_in PLANS_DIR text); [|apply silent_ret].
        destruct (re_search created_plan_pattern text); [|apply silent_ret].
        apply silent_bind; [apply silent_log; apply Hlog|].
        intros. apply silent_ret. }
      intros. apply silent_bind; [|intros; apply silent_ret].
      destruct (verbose self) eqn:V; [|apply silent_ret].
      apply silent_emit. now apply Hprint.
Qed.

(** X16.  Without the verbose flag nothing is printed, whatever the agent
    streams: neither by a run over a plan nor by [create_plan]. *)
Theorem quiet_unless_verbose
    (d : bool) (w : World) (plan_path : string)
    (start_phase end_phase : option Z)
    (Path : string -> string) (task_description : string) (tr : Trace) :
  prints (snd (run_full_implementation (mkAutomator false d) w plan_path
                 start_phase end_phase tr))
  = prints tr
  /\ prints (snd (create_plan Path (mkAutomator false d) w task_description tr))
     = prints tr.
Proof.
  set (self := mkAutomator false d).
  assert (Hlog : forall lvl msg, enabled self lvl = true ->
                                 is_print (EvLog lvl msg) = false).
  { intros lvl msg _. reflexivity. }
  assert (Hprint : forall text, verbose self = true ->
                                is_print (EvPrint text) = false).
  { intros text H. discriminate. }
  split; revert tr.
  - change (silent is_print
      (run_full_implementation self w plan_path start_phase end_phase)).
    unfold run_full_implementation.
    apply silent_bind; [now apply silent_parse_plan|]. intros phases.
    destruct phases as [|p0 l]; [now apply silent_log|].
    apply silent_bind; [now apply silent_log|]. intros _.
    apply silent_bind.
    + apply silent_for_phases. apply Forall_forall. intros p _.
      apply silent_loop_body; [assumption| |reflexivity].
      now apply silent_implement_phase.
    + intros _. apply silent_bind; [now apply silent_log|]. intros _.
      now apply silent_log.
  - change (silent is_print (create_plan Path self w task_description)).
    unfold create_plan.
    apply silent_bind; [now apply silent_log|]. intros _.
    destruct (dry_run self).
    + apply silent_bind; [now apply silent_log|]. intros _. apply silent_ret.
    + apply silent_bind; [now apply silent_query|]. intros messages.
      now apply silent_note_messages.
Qed.

Lemma prints_handle_text self text success tr :
  verbose self = true ->
  prints (snd (handle_text self text success tr)) = (prints tr ++ [EvPrint text])%list.
Proof.
  intros V. unfold handle_text, print. rewrite V.
  unfold bind, log, emit, ret. cbn [enabled]. rewrite V.
  destruct (success_indicator text), (manual_verification_request text);
    cbn [snd]; unfold prints; rewrite !filter_app; cbn [filter is_print];
    rewrite ?app_nil_r; reflexivity.
Qed.

Lemma prints_handle_blocks self blocks : forall success tr,
  verbose self = true ->
  prints (snd (handle_blocks self blocks success tr))
  = (prints tr ++ map EvPrint (block_texts blocks))%list.
Proof.
  induction blocks as [|b rest IH]; intros success tr V.
  - cbn. now rewrite app_nil_r.
  - destruct b as [text|]; cbn [handle_blocks block_texts flat_map].
    + unfold bind.
      pose proof (prints_handle_text self text success tr V) as Ht.
      destruct (handle_text_flag self text success tr) as [t1 E].
      rewrite E in *. cbn [snd] in Ht.
      rewrite IH, Ht by assumption. cbn [app map]. now rewrite <- app_assoc.
    + now apply IH.
Qed.

Lemma prints_after_log tr lvl msg : prints (tr ++ [EvLog lvl msg])%list = prints tr.
Proof. unfold prints. rewrite filter_app. cbn. apply app_nil_r. Qed.

Lemma prints_handle_messages self messages : forall success tr,
  verbose self = true ->
  prints (snd (handle_messages self messages success tr))
  = (prints tr ++ map EvPrint (chunks messages))%list.
Proof.
  induction messages as [|m rest IH]; intros success tr V.
  - cbn. now rewrite app_nil_r.
  - destruct m as [blocks|ty rp]; cbn [handle_messages chunks flat_map].
    + unfold bind at 1. unfold log at 1. cbn [enabled]. rewrite V. unfold emit at 1.
      unfold bind at 1.
      pose proof (prints_handle_blocks self blocks success
                    (tr ++ [EvLog DEBUG "Received message type: AssistantMessage"])%list V)
        as Hb.
      destruct (handle_blocks_flag self blocks success
                  (tr ++ [EvLog DEBUG "Received message type: AssistantMessage"])%list)
        as [t1 E].
      rewrite E in *. cbn [snd] in Hb.
      rewrite IH, Hb by assumption.
      fold (chunks rest). rewrite prints_after_log, map_app.
      now rewrite <- app_assoc.
    + unfold bind at 1 2, log at 1 2. cbn [enabled]. rewrite V. unfold emit.
      rewrite IH by assumption. now rewrite !prints_after_log.
Qed.

(** X17.  In verbose live mode, on a phase that is not completed and with
    the template found, [implement_phase] prints every text chunk of the
    agent's stream once, in stream order, and prints nothing else. *)
Theorem verbose_prints_every_chunk
    (self : PlanAutomator) (w : World) (plan_path : string) (phase : Phase)
    (tr tr1 : Trace) (command_prompt : string) :
  verbose self = true ->
  is_completed phase = false ->
  dry_run self = false ->
  load_slash_command w "implement_plan" (tr ++ [driver_entry phase])%list
  = (Ok command_prompt, tr1) ->
  prints (snd (implement_phase self w plan_path phase tr))
  = (prints tr
     ++ map EvPrint (chunks (agent w tr1 (phase_prompt command_prompt plan_path phase))))%list.
Proof.
  intros V Hc Hd Hl.
  pose proof (silent_load_slash_command is_print w "implement_plan"
                (fun _ => eq_refl) (fun _ => eq_refl)
                (tr ++ [driver_entry phase])%list) as Hq.
  rewrite Hl in Hq. cbn [snd] in Hq.
  unfold implement_phase. rewrite Hc, Hd.
  unfold bind at 1. unfold log at 1. cbn [enabled]. unfold emit at 1.
  fold (driver_entry phase). unfold bind at 1. rewrite Hl.
  unfold bind at 1. unfold query at 1.
  fold (phase_prompt command_prompt plan_path phase).
  rewrite prints_handle_messages by assumption.
  unfold prints at 1. rewrite filter_app, Hq, filter_app.
  cbn [filter is_print]. now rewrite !app_nil_r.
Qed.

Lemma verbose_prints_every_chunk_witness :
  prints (snd (implement_phase verbose_live world_ok123 "plan.md"
                 (mkPhase 1 "Setup" "body" false) []))
  = [EvPrint "working"; EvPrint "Phase Complete"].
Proof.
  apply (verbose_prints_every_chunk verbose_live world_ok123 "plan.md"
           (mkPhase 1 "Setup" "body" false) []
           [EvLog INFO "Implementing Phase 1: Setup";
            EvExists "/home/dev/.claude/commands/implement_plan.md";
            EvExists ".claude/commands/implement_plan.md";
            EvRead ".claude/commands/implement_plan.md"]
           "Implement the phase." eq_refl eq_refl eq_refl).
  vm_compute. reflexivity.
Defined.

(** X18.  On the phases of a parsed plan, and with an end bound that is
    absent or not 0, the two filters of the run keep exactly the phases
    whose number lies in the inclusive window: at least the start bound
    when there is one, at most the end bound when there is one. *)
Theorem window_filter_when_end_not_zero
    (doc : string) (start_phase end_phase : option Z) :
  end_phase <> Some 0 ->
  filter_phases start_phase end_phase (parse_plan_text doc)
  = filter (in_window start_phase end_phase) (parse_plan_text doc).
Proof.
  intros He. rewrite filter_phases_selected. apply filter_ext_in.
  intros p Hp. apply selected_in_window; [assumption|].
  now apply (parsed_phase_fields doc p).
Qed.

Lemma window_filter_when_end_not_zero_witness :
  map number (filter_phases (Some 2) (Some 3) (parse_plan_text plan123)) = [2; 3].
Proof.
  rewrite (window_filter_when_end_not_zero plan123 (Some 2) (Some 3))
    by discriminate.
  vm_compute. reflexivity.
Defined.

(** X19.  When the plan has phases but none passes the filters, the run
    enters no phase and calls nobody, and still logs its closing records,
    "Implementation complete!" among them. *)
Theorem empty_window_still_reports_completion
    (self : PlanAutomator) (w : World) (plan_path : string)
    (start_phase end_phase : option Z) (parsed : list Phase) (tr tr0 : Trace) :
  parse_plan w plan_path tr = (Ok parsed, tr0) ->
  parsed <> [] ->
  filter_phases start_phase end_phase parsed = [] ->
  run_full_implementation self w plan_path start_phase end_phase tr
  = (Ok tt, (tr0 ++ found_record parsed :: closing)%list).
Proof.
  intros Hparse Hne Hf.
  rewrite (run_after_parse _ _ _ _ _ _ _ _ Hparse Hne), Hf.
  unfold bind, for_phases, ret, log, emit, closing. cbn [enabled].
  now rewrite <- !app_assoc.
Qed.

Lemma empty_window_still_reports_completion_witness :
  run_full_implementation live world_ok123 "plan.md" (Some 7) None []
  = (Ok tt, [EvExists "plan.md"; EvRead "plan.md";
             EvLog INFO "Found 3 phases in plan";
             EvLog INFO (NL ++ rule); EvLog INFO "Implementation complete!"]).
Proof.
  apply (empty_window_still_reports_completion live world_ok123 "plan.md"
           (Some 7) None (parse_plan_text plan123) []
           [EvExists "plan.md"; EvRead "plan.md"]).
  - reflexivity.
  - vm_compute. discriminate.
  - vm_compute. reflexivity.
Defined.

(* ================================================================== *)
(** ** Further properties: [create_plan] *)

Module ReSound.
Import Re.
Import ReSpec.

Lemma single_sound cls (k : cont) s st r :
  single cls k s st = Some r ->
  exists c t, s = String c t /\ cls c = true /\ k t (eat c st) = Some r.
Proof.
  unfold single. destruct s as [|c t]; [discriminate|].
  destruct (cls c) eqn:E; [|discriminate]. intros H. exists c, t. auto.
Qed.

Lemma greedy_sound cls (k : cont) s : forall st r,
  greedy cls k s st = Some r ->
  exists w t, s = w ++ t /\ all cls w = true /\ k t (eat_all w st) = Some r.
Proof.
  induction s as [|c s IH]; intros st r H; cbn [greedy] in H.
  - exists EmptyString, EmptyString. auto.
  - destruct (cls c) eqn:Ec.
    + destruct (greedy cls k s (eat c st)) as [r'|] eqn:Eg.
      * injection H as <-. apply IH in Eg. destruct Eg as (w & t & -> & Hw & Hk).
        exists (String c w), t. cbn [all eat_all append]. rewrite Ec, Hw. auto.
      * exists EmptyString, (String c s). auto.
    + exists EmptyString, (String c s). auto.
Qed.

Lemma lit_sound l : forall p s st r,
  matcher (lit l ++ p) s st = Some r ->
  exists t, s = l ++ t /\ matcher p t (eat_all l st) = Some r.
Proof.
  unfold lit. induction l as [|c l IH]; intros p s st r H.
  - exists s. auto.
  - cbn [list_ascii_of_string map app matcher] in H.
    apply single_sound in H. destruct H as (c' & t & -> & Hc & H).
    apply Ascii.eqb_eq in Hc. subst c'.
    apply IH in H. destruct H as (t' & -> & H).
    exists t'. auto.
Qed.

Lemma eat_all_eq w : forall st,
  eat_all w st
  = mkState (consumed st + String.length w) (groups st)
            (option_map (fun g => g ++ w) (opened st)).
Proof.
  induction w as [|c w IH]; intros st.
  - destruct st as [n gs [g|]]; cbn; rewrite Nat.add_0_r; [|reflexivity].
    now rewrite app_nil_r_string.
  - cbn [eat_all]. rewrite IH. unfold eat. cbn [consumed groups opened String.length].
    f_equal; [lia|]. destruct (opened st) as [g|]; cbn; [|reflexivity].
    now rewrite append_assoc.
Qed.

Lemma search_sound p s : forall pos m,
  search_from p s pos = Some m ->
  exists a t pos', s = a ++ t /\ matcher p t (mkState pos' [] None) = Some m.
Proof.
  induction s as [|c s IH]; intros pos m H; cbn [search_from] in H.
  - destruct (matcher p EmptyString (mkState pos [] None)) eqn:E; [|discriminate].
    injection H as <-. exists EmptyString, EmptyString, pos. auto.
  - destruct (matcher p (String c s) (mkState pos [] None)) eqn:E.
    + injection H as <-. exists EmptyString, (String c s), pos. auto.
    + apply IH in H. destruct H as (a & t & pos' & -> & H).
      exists (String c a), t, pos'. auto.
Qed.

End ReSound.

(** What a match of the plan-path pattern is made of. *)
Lemma created_plan_match t pos m :
  Re.matcher created_plan_pattern t (Re.mkState pos [] None) = Some m ->
  exists c stem rest,
    t = "`" ++ PLANS_DIR ++ String c stem ++ ".md" ++ "`" ++ rest
    /\ not_backtick c = true /\ ReSpec.all not_backtick stem = true
    /\ m = [PLANS_DIR ++ String c stem ++ ".md"].
Proof.
  unfold created_plan_pattern. intros H.
  apply ReSound.lit_sound in H. destruct H as (t1 & -> & H).
  cbn [app Re.matcher] in H.
  remember (Re.open_group (ReSpec.eat_all "`" (Re.mkState pos [] None))) as S1 eqn:E1.
  assert (G1 : Re.groups S1 = [] /\ Re.opened S1 = Some EmptyString).
  { subst S1. unfold Re.open_group. cbn [Re.groups Re.opened].
    rewrite ReRuns.groups_eat_all. split; reflexivity. }
  clear E1. destruct G1 as [G1 O1].
  apply ReSound.lit_sound in H. destruct H as (t2 & -> & H).
  cbn [app Re.matcher] in H.
  apply ReSound.single_sound in H. destruct H as (c & t3 & -> & Hc & H).
  apply ReSound.greedy_sound in H. destruct H as (stem & t4 & -> & Hs & H).
  apply ReSound.lit_sound in H. destruct H as (t5 & -> & H).
  cbn [app Re.matcher] in H.
  remember (Re.close_group
              (ReSpec.eat_all ".md"
                 (ReSpec.eat_all stem (Re.eat c (ReSpec.eat_all PLANS_DIR S1)))))
    as S2 eqn:E2.
  assert (G2 : Re.groups S2 = [PLANS_DIR ++ String c stem ++ ".md"]).
  { subst S2. unfold Re.close_group. cbn [Re.groups].
    rewrite !ReRuns.groups_eat_all, !ReRuns.opened_eat_all.
    unfold Re.eat. cbn [Re.groups Re.opened].
    rewrite ReRuns.groups_eat_all, ReRuns.opened_eat_all, G1, O1.
    cbn [option_map app]. now rewrite ?append_assoc. }
  clear E2.
  rewrite <- (app_nil_r (Re.lit "`")) in H.
  apply ReSound.lit_sound in H. destruct H as (rest & -> & H).
  cbn [Re.matcher] in H.
  assert (Hm : m = Re.groups (ReSpec.eat_all "`" S2)) by congruence.
  rewrite ReRuns.groups_eat_all, G2 in Hm.
  exists c, stem, rest. repeat split; assumption.
Qed.

Lemma str_in_middle needle a : forall b, str_in needle (a ++ needle ++ b) = true.
Proof.
  induction a as [|c a IH]; intros b.
  - cbn [append]. destruct (needle ++ b) eqn:E; cbn [str_in];
      rewrite <- E, prefix_append; reflexivity.
  - cbn [append str_in]. rewrite IH. apply orb_true_r.
Qed.

(** The guard of [create_plan] is implied by a match of its pattern. *)
Lemma search_implies_guard text m :
  re_search created_plan_pattern text = Some m ->
  str_in PLANS_DIR text = true
  /\ exists c stem,
       not_backtick c = true /\ ReSpec.all not_backtick stem = true
       /\ m = [PLANS_DIR ++ String c stem ++ ".md"].
Proof.
  unfold re_search. intros H.
  apply ReSound.search_sound in H. destruct H as (a & t & pos & -> & H).
  apply created_plan_match in H.
  destruct H as (c & stem & rest & -> & Hc & Hs & ->).
  split; [|eauto].
  change (a ++ "`" ++ PLANS_DIR ++ String c stem ++ ".md" ++ "`" ++ rest)
    with (a ++ "`" ++ PLANS_DIR ++ (String c stem ++ ".md" ++ "`" ++ rest)).
  rewrite <- (append_assoc a "`"). apply str_in_middle.
Qed.

Section CreatePlanFacts.

Variable Path : string -> string.

Lemma note_plan_path_value self text held tr :
  exists tr',
    note_plan_path Path self text held tr
    = (Ok (match reported_path Path text with Some p => Some p | None => held end), tr').
Proof.
  unfold note_plan_path, reported_path, bind.
  destruct (re_search created_plan_pattern text) as [m|] eqn:E.
  - destruct (search_implies_guard text m E) as [-> _].
    unfold log, emit, ret. cbn [enabled].
    destruct (verbose self); unfold print, emit; eexists; reflexivity.
  - destruct (str_in PLANS_DIR text); unfold ret at 1;
      destruct (verbose self); unfold print, emit, ret; eexists; reflexivity.
Qed.

Lemma note_blocks_value self blocks : forall held tr,
  exists tr',
    note_blocks Path self blocks held tr
    = (Ok (last_report Path held (block_texts blocks)), tr').
Proof.
  induction blocks as [|b rest IH]; intros held tr.
  - exists tr. reflexivity.
  - destruct b as [text|]; cbn [note_blocks block_texts flat_map].
    + unfold bind. destruct (note_plan_path_value self text held tr) as [t1 ->].
      destruct (IH (match reported_path Path text with
                    | Some p => Some p | None => held end) t1) as [t2 ->].
      exists t2. reflexivity.
    + apply IH.
Qed.

Lemma last_report_app held a b :
  last_report Path held (a ++ b) = last_report Path (last_report Path held a) b.
Proof. unfold last_report. apply fold_left_app. Qed.

Lemma note_messages_value self messages : forall held tr,
  exists tr',
    note_messages Path self messages held tr
    = (Ok (last_report Path held (chunks messages)), tr').
Proof.
  induction messages as [|m rest IH]; intros held tr.
  - exists tr. reflexivity.
  - destruct m as [blocks|ty rp]; cbn [note_messages chunks flat_map].
    + unfold bind. destruct (note_blocks_value self blocks held tr) as [t1 ->].
      destruct (IH (last_report Path held (block_texts blocks)) t1) as [t2 ->].
      exists t2. now rewrite last_report_app.
    + apply IH.
Qed.

Lemma all_not_backtick stem :
  ReSpec.all not_backtick stem = true -> chr_in BACKTICK stem = false.
Proof.
  induction stem as [|c s IH]; cbn [ReSpec.all chr_in]; [reflexivity|].
  intros H. apply andb_true_iff in H. destruct H as [Hc Hs].
  unfold not_backtick in Hc. apply negb_true_iff in Hc. now rewrite Hc, IH.
Qed.

Lemma reported_path_shape text p :
  reported_path Path text = Some p -> plan_path_shape Path p.
Proof.
  unfold reported_path. destruct (re_search created_plan_pattern text) as [m|] eqn:E;
    [|discriminate].
  intros [= <-]. destruct (search_implies_guard text m E) as (_ & c & stem & Hc & Hs & ->).
  exists (String c stem). cbn [Re.group Nat.sub nth]. repeat split.
  - discriminate.
  - apply (all_not_backtick (String c stem)). cbn [ReSpec.all]. now rewrite Hc, Hs.
Qed.

Lemma last_report_shape texts : forall held p,
  (forall q, held = Some q -> plan_path_shape Path q) ->
  last_report Path held texts = Some p -> plan_path_shape Path p.
Proof.
  induction texts as [|t rest IH]; intros held p Hh H.
  - cbn in H. now apply Hh.
  - cbn [last_report fold_left] in H. apply (IH _ _ ) in H; [assumption|].
    intros q Hq. destruct (reported_path Path t) as [r|] eqn:E.
    + injection Hq as <-. now apply (reported_path_shape t).
    + now apply Hh.
Qed.

End CreatePlanFacts.

(** X20.  Whatever [create_plan] returns as the plan path, in dry-run mode
    or from the agent's stream, is the path of a string made of
    "thoughts/shared/plans/", a non-empty stem without backtick, and
    ".md". *)
Theorem created_plan_path_shape
    (Path : string -> string) (self : PlanAutomator) (w : World)
    (task_description : string) (tr : Trace) (p : string) :
  fst (create_plan Path self w task_description tr) = Ok (Some p) ->
  plan_path_shape Path p.
Proof.
  unfold create_plan, bind at 1, log at 1. cbn [enabled]. unfold emit at 1.
  destruct (dry_run self).
  - unfold bind, log, emit, ret. cbn [enabled fst]. intros [= <-].
    exists "dry-run-plan". repeat split. discriminate.
  - unfold bind at 1, query at 1.
    match goal with
    | |- context [note_messages Path self ?ms None ?t] =>
        destruct (note_messages_value Path self ms None t) as [t' ->]
    end.
    cbn [fst]. intros [= H].
    eapply last_report_shape; [|exact H]. discriminate.
Qed.

Lemma created_plan_path_shape_witness :
  plan_path_shape same_path "thoughts/shared/plans/2025-auth.md".
Proof.
  apply (created_plan_path_shape same_path live planner_world "add auth" []).
  vm_compute. reflexivity.
Defined.

(** X21.  In live mode [create_plan] calls the agent once, with
    "/create_plan " followed by the task description, and returns the plan
    path reported by the last text chunk of the stream that holds one
    between backticks: a later report replaces an earlier one, and the
    result is None when no chunk reports a path. *)
Theorem created_plan_is_last_report
    (Path : string -> string) (v : bool) (w : World)
    (task_description : string) (tr : Trace) :
  let self := mkAutomator v false in
  let prompt := "/create_plan " ++ task_description in
  let stream := agent w (tr ++ [EvLog INFO "Creating new plan..."])%list prompt in
  fst (create_plan Path self w task_description tr)
  = Ok (last_report Path None (chunks stream))
  /\ agent_calls (snd (create_plan Path self w task_description tr))
     = (agent_calls tr ++ [EvQuery prompt ""])%list
  /\ (Forall (fun text => reported_path Path text = None) (chunks stream) ->
      fst (create_plan Path self w task_description tr) = Ok None).
Proof.
  cbv zeta.
  set (self := mkAutomator v false).
  set (prompt := "/create_plan " ++ task_description).
  set (stream := agent w (tr ++ [EvLog INFO "Creating new plan..."])%list prompt).
  assert (V : fst (create_plan Path self w task_description tr)
              = Ok (last_report Path None (chunks stream))).
  { unfold create_plan, bind at 1, log at 1. cbn [enabled dry_run self].
    unfold emit at 1. unfold bind at 1, query at 1. fold prompt. fold stream.
    match goal with
    | |- context [note_messages Path ?s ?ms None ?t] =>
        destruct (note_messages_value Path s ms None t) as [t' ->]
    end.
    reflexivity. }
  split; [exact V|]. split.
  - unfold create_plan, bind at 1, log at 1. cbn [enabled dry_run self].
    unfold emit at 1. unfold bind at 1, query at 1. fold prompt. fold stream.
    assert (Hs : silent is_query (note_messages Path (mkAutomator v false) stream None)).
    { clear V. generalize (@None string). induction stream as [|m rest IH]; intros held.
      - apply silent_ret.
      - destruct m as [blocks|ty rp]; cbn [note_messages]; [|apply IH].
        apply silent_bind; [|intros; apply IH].
        clear IH. revert held. induction blocks as [|b bs IHb]; intros held.
        + apply silent_ret.
        + destruct b as [text|]; cbn [note_blocks]; [|apply IHb].
          apply silent_bind; [|intros; apply IHb].
          unfold note_plan_path.
          apply silent_bind.
          { destruct (str_in PLANS_DIR text); [|apply silent_ret].
            destruct (re_search created_plan_pattern text); [|apply silent_ret].
            apply silent_bind; [now apply silent_log|]. intros. apply silent_ret. }
          intros. apply silent_bind; [|intros; apply silent_ret].
          destruct (verbose (mkAutomator v false)); [now apply silent_emit|apply silent_ret]. }
    unfold agent_calls. rewrite Hs, !filter_app. cbn [filter is_query].
    now rewrite app_nil_r.
  - intros H. rewrite V. f_equal.
    clear V. induction H as [|t rest Ht _ IH]; [reflexivity|].
    cbn [last_report fold_left]. rewrite Ht. exact IH.
Qed.

Lemma created_plan_is_last_report_witness :
  fst (create_plan same_path live live_world "add auth" []) = Ok None.
Proof.
  apply (created_plan_is_last_report same_path false live_world "add auth" []).
  vm_compute. repeat constructor.
Defined.

Lemma int_go_of_uint_acc d : forall acc,
  int_go (NilEmpty.string_of_uint d) (Zpos acc) = Zpos (Pos.of_uint_acc d acc).
Proof.
  induction d; intros acc; cbn [NilEmpty.string_of_uint int_go Pos.of_uint_acc];
    [reflexivity| rewrite <- IHd; f_equal ..].
  all: match goal with
       | |- context [digit_val ?c] =>
           let v := eval vm_compute in (digit_val c) in
           change (digit_val c) with v
       end; lia.
Qed.

Lemma int_go_of_uint d :
  int_go (NilEmpty.string_of_uint d) 0 = Z.of_N (Pos.of_uint d).
Proof.
  induction d; cbn [NilEmpty.string_of_uint int_go Pos.of_uint]; [reflexivity|..].
  all: match goal with
       | |- int_go _ ?a = _ =>
           let v := eval vm_compute in a in change a with v
       end.
  all: first [exact IHd | apply int_go_of_uint_acc].
Qed.

Lemma digits_of_uint d : all isdigit (NilEmpty.string_of_uint d) = true.
Proof. induction d; cbn [NilEmpty.string_of_uint all]; [reflexivity|exact IHd ..]. Qed.

Lemma str_nonneg n :
  0 <= n ->
  exists d, str n = NilEmpty.string_of_uint d /\ d <> Decimal.Nil /\ Z.of_N (Pos.of_uint d) = n.
Proof.
  intros H. destruct n as [|p|p]; [| |lia].
  - exists (Decimal.D0 Decimal.Nil). repeat split. discriminate.
  - exists (Pos.to_uint p). unfold str. cbn [Z.to_int NilZero.string_of_int].
    pose proof (DecimalPos.Unsigned.to_uint_nonnil p) as Hn.
    rewrite DecimalPos.Unsigned.of_to. repeat split; [|assumption].
    unfold NilZero.string_of_uint. destruct (Pos.to_uint p); congruence.
Qed.

Lemma int_str n : 0 <= n -> int (str n) = n.
Proof.
  intros H. destruct (str_nonneg n H) as (d & -> & _ & <-). apply int_go_of_uint.
Qed.

Lemma str_digits n : 0 <= n -> str n <> EmptyString /\ all isdigit (str n) = true.
Proof.
  intros H. destruct (str_nonneg n H) as (d & -> & Hd & _). split.
  - destruct d; cbn [NilEmpty.string_of_uint]; congruence.
  - apply digits_of_uint.
Qed.

Lemma digits_no_newline s : all isdigit s = true -> chr_in LF s = false.
Proof.
  induction s as [|c s IH]; cbn [all chr_in]; [reflexivity|].
  intros H. apply andb_true_iff in H. destruct H as [Hc Hs]. rewrite (IH Hs).
  destruct (Ascii.eqb_spec c LF) as [->|]; [discriminate|reflexivity].
Qed.

Lemma chr_in_lstrip c s : chr_in c s = false -> chr_in c (lstrip s) = false.
Proof.
  induction s as [|x s IH]; cbn [lstrip chr_in]; [reflexivity|].
  intros H. apply orb_false_iff in H. destruct H as [Hx Hs].
  destruct (isspace x); [now apply IH|]. cbn [chr_in]. now rewrite Hx, Hs.
Qed.

Lemma chr_in_rstrip c s : chr_in c s = false -> chr_in c (rstrip s) = false.
Proof.
  induction s as [|x s IH]; [reflexivity|].
  cbn [chr_in]. intros H. apply orb_false_iff in H. destruct H as [Hx Hs].
  rewrite rstrip_cons. specialize (IH Hs). destruct (rstrip s) as [|y r].
  - destruct (isspace x); [reflexivity|]. cbn [chr_in]. now rewrite Hx.
  - cbn [chr_in] in *. now rewrite Hx, IH.
Qed.

Lemma heading_line_shape n nm :
  0 <= n -> strip nm = nm -> heading_shape (heading_line n nm) n nm.
Proof.
  intros Hn Hs. destruct (str_digits n Hn) as [Hne Hd].
  exists (str n), (String " " nm). repeat split; try assumption.
  - discriminate.
  - now rewrite int_str.
  - now rewrite <- Hs at 1.
Qed.

Lemma heading_line_no_newline n nm :
  0 <= n -> chr_in LF nm = false -> chr_in LF (heading_line n nm) = false.
Proof.
  intros Hn Hnm. destruct (str_digits n Hn) as [_ Hd]. unfold heading_line.
  rewrite !chr_in_app, (digits_no_newline _ Hd), Hnm. reflexivity.
Qed.

Lemma heading_line_parses n nm :
  0 <= n -> chr_in LF nm = false -> strip nm = nm ->
  heading (heading_line n nm) = Some (n, nm)
  /\ parse_plan_text (heading_line n nm) = [mkPhase n nm EmptyString true].
Proof.
  intros Hn Hnl Hs.
  pose proof (heading_line_no_newline n nm Hn Hnl) as Hl.
  pose proof (heading_of_shape _ n nm Hl (heading_line_shape n nm Hn Hs)) as Hh.
  split; [exact Hh|].
  rewrite parse_plan_text_blocks, (split_chr_whole LF _ Hl), segments_cons.
  unfold is_heading. rewrite Hh. cbn [segments fst snd map].
  unfold record_of. cbn [fst snd]. now rewrite Hh.
Qed.

Lemma parsed_phase_heading (doc : string) (ph : Phase) :
  In ph (parse_plan_text doc) ->
  0 <= number ph /\ chr_in LF (name ph) = false /\ strip (name ph) = name ph.
Proof.
  intros Hin. destruct (parsed_phase_fields doc ph Hin) as (Hn & Hl & Hr).
  split; [assumption|]. split; [|unfold strip; now rewrite Hl].
  revert Hin. rewrite parse_plan_text_blocks. intros Hin.
  apply in_map_iff in Hin. destruct Hin as (b & <- & Hb).
  pose proof (segments_blocks (split_chr LF doc)) as Hwf.
  rewrite Forall_forall in Hwf. destruct (Hwf b Hb) as [Hh _].
  assert (Hline : chr_in LF (fst b) = false).
  { pose proof (split_chr_no_sep LF doc) as Hs. rewrite Forall_forall in Hs.
    apply Hs. rewrite (segments_partition (split_chr LF doc)).
    apply in_or_app. right. apply in_flat_map. exists b. split; [assumption|].
    now left. }
  unfold record_of. destruct (heading (fst b)) as [[k nm]|] eqn:E; [|congruence].
  cbn [name].
  apply (heading_shape_iff _ _ _ Hline) in E.
  destruct E as (digits & label & El & _ & _ & _ & _ & ->).
  rewrite El in Hline. rewrite !chr_in_app in Hline.
  apply orb_false_iff in Hline. destruct Hline as [_ Hline].
  apply orb_false_iff in Hline. destruct Hline as [_ Hline].
  apply orb_false_iff in Hline. destruct Hline as [_ Hline].
  unfold strip. now apply chr_in_rstrip, chr_in_lstrip.
Qed.

(** X22.  A heading written as "## Phase N: Name", with N the decimal
    writing of a number that is not negative and Name free of newlines and
    of whitespace at its ends, is read by [parse_plan] as one phase with
    that number and that name, an empty content, and marked complete. *)
Theorem written_heading_reads_back (n : Z) (nm : string) :
  0 <= n -> chr_in LF nm = false -> strip nm = nm ->
  int (str n) = n
  /\ parse_plan_text (heading_line n nm) = [mkPhase n nm EmptyString true].
Proof.
  intros Hn Hnl Hs. split; [now apply int_str|].
  now apply heading_line_parses.
Qed.

Lemma written_heading_reads_back_witness :
  int (str 12) = 12
  /\ parse_plan_text (heading_line 12 "Add login")
     = [mkPhase 12 "Add login" EmptyString true].
Proof.
  apply (written_heading_reads_back 12 "Add login"); [lia|reflexivity|reflexivity].
Defined.

(** X23.  Every record [parse_plan] returns survives a round trip: its
    number and name, written as a heading "## Phase N: Name", parse to a
    single phase with the same number and the same name. *)
Theorem parsed_phase_round_trip (doc : string) (ph : Phase) :
  In ph (parse_plan_text doc) ->
  parse_plan_text (heading_line (number ph) (name ph))
  = [mkPhase (number ph) (name ph) EmptyString true].
Proof.
  intros Hin. destruct (parsed_phase_heading doc ph Hin) as (Hn & Hnl & Hs).
  now apply heading_line_parses.
Qed.

Lemma parsed_phase_round_trip_witness :
  parse_plan_text (heading_line 2 "Build") = [mkPhase 2 "Build" EmptyString true].
Proof.
  apply (parsed_phase_round_trip two_phase_doc
           (mkPhase 2 "Build" (AUTOMATED ++ NL ++ "- [ ] tests pass") false)).
  vm_compute. right. left. reflexivity.
Defined.
